(** * DisasterWatch backend: the aggregation pipeline of [server.js]

    A shallow embedding of the server's pipeline: the normalisation code of
    the USGS and NASA EONET adapters, the coordinate handling of the GDACS
    and ReliefWeb adapters, the credentials guard and token refresh of the
    Reddit adapter, the proximity deduplicator, the severity/recency
    ranking, the aggregator over the settled adapter promises and the two
    cache backed routes; then the GDACS and ReliefWeb adapters in full, the
    keyword classification, location hints, severity score and subreddit
    loop of the Reddit adapter, and sequences of requests to the cache.

    JavaScript values are embedded as they are at run time.  A Number is an
    IEEE 754 binary64 value ([spec_float] with precision 53).  The values
    the adapters read from a feed are JSON values ([JsVal]).  The built-in
    functions that read or print text (string to number, number to string,
    date parsing and printing) belong to the JavaScript engine, not to this
    repository; they are the fields of a [Runtime] that the definitions take
    as an argument, and so are the string methods that depend on the
    engine's character tables ([Text]). *)

From stdpp Require Import gmap strings list pretty.
From Stdlib Require Import ZArith Lia Sorted Permutation.
From Stdlib Require Import Floats.SpecFloat.
From Stdlib Require Import Strings.Ascii.

#[local] Set Warnings "-register-all".

(** ** Numbers *)

Module Num.

Definition prec : Z := 53.
Definition emax : Z := 1024.

Definition number : Type := spec_float.

Definition NaN : number := S754_nan.
Definition zero : number := S754_zero false.

(** [a - b], [a + b], [a * b], [Math.abs], [a < b] and [a >= b] on
    Numbers. *)
Definition sub : number -> number -> number := SFsub prec emax.
Definition add : number -> number -> number := SFadd prec emax.
Definition mul : number -> number -> number := SFmul prec emax.
Definition abs : number -> number := SFabs.
Definition lt : number -> number -> bool := SFltb.
Definition ge (a b : number) : bool := SFleb b a.

Definition is_nan (x : number) : bool :=
  match x with S754_nan => true | _ => false end.

Definition is_zero (x : number) : bool :=
  match x with S754_zero _ => true | _ => false end.

(** The Number nearest to the integer [z], and to the fraction [n/d]
    (ties to even): what a numeric literal such as [6.5] denotes. *)
Definition of_Z (z : Z) : number := binary_normalize prec emax z 0 false.

Definition of_ratio (neg : bool) (n d : positive) : number :=
  let '(q, e, l) := SFdiv_core_binary prec emax (Zpos n) 0 (Zpos d) 0 in
  binary_round_aux prec emax neg q e l.

Definition dec (n : Z) (d : positive) : number :=
  match n with
  | Z0 => zero
  | Zpos p => of_ratio false p d
  | Zneg p => of_ratio true p d
  end.

(** Truncation toward zero, [None] on NaN and the infinities. *)
Definition trunc (x : number) : option Z :=
  match x with
  | S754_zero _ => Some 0%Z
  | S754_finite s m e =>
      let a := match e with
               | Zneg k => Z.shiftr (Zpos m) (Zpos k)
               | _ => Z.shiftl (Zpos m) e
               end in
      Some (if s then Z.opp a else a)
  | _ => None
  end.

(** [parseFloat(x.toFixed(1))].  [toFixed(1)] prints the integer [n]
    nearest to ten times the magnitude of [x] (the larger one on a tie) as
    [n / 10] under the sign of [x]; [parseFloat] reads the digits back as
    the nearest Number.  From 1e21 on [toFixed] prints the Number itself,
    which is that same value.  [NaN] and the infinities print and read back
    as themselves, and both zeros print as [0.0]. *)
Definition tenths (m : positive) (e : Z) : Z :=
  match e with
  | Zneg k => (20 * Zpos m + 2 ^ Zpos k) / 2 ^ (Zpos k + 1)
  | _ => 10 * Zpos m * 2 ^ e
  end.

Definition toFixed1 (x : number) : number :=
  match x with
  | S754_finite s m e =>
      match tenths m e with
      | Zpos n => of_ratio s n 10
      | _ => S754_zero s
      end
  | S754_zero _ => zero
  | _ => x
  end.

(** [TimeClip]: the time value of [new Date(x)] for a Number [x]. *)
Definition time_clip (x : number) : option Z :=
  match trunc x with
  | Some z => if Z.leb (Z.abs z) 8640000000000000 then Some z else None
  | None => None
  end.

End Num.

Abbreviation number := Num.number.

(** ** JSON values and the engine's coercions *)

(** The values [JSON.parse] builds from a feed.  Objects are plain data:
    a key shadowing [Object.prototype.toString] or [valueOf] (which would
    make a coercion of the object throw) is outside the model. *)
Inductive JsVal : Type :=
| VUndefined
| VNull
| VBool (b : bool)
| VNum (x : number)
| VStr (s : string)
| VArr (l : list JsVal)
| VObj (o : list (string * JsVal)).

(** The engine's text built-ins. *)
Record Runtime : Type := {
  StringToNumber : string -> number;      (* Number(s), isNaN(s), s - 0 *)
  NumberToString : number -> string;      (* String(n), '' + n *)
  parseFloat : string -> number;
  Date_parse : string -> option Z;        (* ms since the epoch; None: Invalid Date *)
  Date_toISOString : Z -> string;
}.

Definition nullish (v : JsVal) : bool :=
  match v with VUndefined | VNull => true | _ => false end.

Definition truthy (v : JsVal) : bool :=
  match v with
  | VUndefined | VNull => false
  | VBool b => b
  | VNum x => negb (Num.is_zero x || Num.is_nan x)
  | VStr s => negb (String.eqb s "")
  | VArr _ | VObj _ => true
  end.

(** [a || b] on values. *)
Definition js_or (a b : JsVal) : JsVal := if truthy a then a else b.

Fixpoint assoc {A : Type} (k : string) (o : list (string * A)) : option A :=
  match o with
  | [] => None
  | (k', v) :: o' => if String.eqb k k' then Some v else assoc k o'
  end.

Definition char_at (s : string) (i : nat) : JsVal :=
  match String.get i s with
  | Some c => VStr (String c EmptyString)
  | None => VUndefined
  end.

(** [v.k] on a value that is neither [undefined] nor [null].  The keys the
    server reads this way are data names and [length]. *)
Definition prop (v : JsVal) (k : string) : JsVal :=
  match v with
  | VObj o => default VUndefined (assoc k o)
  | VArr l =>
      if String.eqb k "length" then VNum (Num.of_Z (Z.of_nat (length l)))
      else VUndefined
  | VStr s =>
      if String.eqb k "length"
      then VNum (Num.of_Z (Z.of_nat (String.length s)))
      else VUndefined
  | _ => VUndefined
  end.

(** [v?.k]: [undefined] when [v] is [undefined] or [null]. *)
Definition prop_opt (v : JsVal) (k : string) : JsVal :=
  if nullish v then VUndefined else prop v k.

(** [v[i]] for a literal subscript, on a value that is not nullish. *)
Definition at_idx (v : JsVal) (i : nat) : JsVal :=
  match v with
  | VArr l => nth i l VUndefined
  | VStr s => char_at s i
  | VObj o => default VUndefined (assoc (pretty i) o)
  | _ => VUndefined
  end.

Definition at_idx_opt (v : JsVal) (i : nat) : JsVal :=
  if nullish v then VUndefined else at_idx v i.

Section Coercions.

Context (rt : Runtime).

Fixpoint ToString (v : JsVal) : string :=
  match v with
  | VUndefined => "undefined"
  | VNull => "null"
  | VBool true => "true"
  | VBool false => "false"
  | VNum x => NumberToString rt x
  | VStr s => s
  | VArr l =>
      String.concat ","
        (List.map (fun e => if nullish e then "" else ToString e) l)
  | VObj _ => "[object Object]"
  end.

Definition ToNumber (v : JsVal) : number :=
  match v with
  | VUndefined => Num.NaN
  | VNull => Num.zero
  | VBool true => Num.of_Z 1
  | VBool false => Num.zero
  | VNum x => x
  | VStr s => StringToNumber rt s
  | VArr _ => StringToNumber rt (ToString v)
  | VObj _ => Num.NaN
  end.

Definition isNaN (v : JsVal) : bool := Num.is_nan (ToNumber v).

End Coercions.

(** ** Lookup tables

    The server's tables are object literals read with a computed key,
    [table[key]].  A key the literal does not list is looked up on
    [Object.prototype]: for one of its member names the read yields that
    built-in object (a truthy value that is no string), for any other key
    [undefined]. *)

Definition Object_prototype_keys : list string :=
  [ "constructor"; "hasOwnProperty"; "isPrototypeOf"; "propertyIsEnumerable";
    "toLocaleString"; "toString"; "valueOf"; "__proto__";
    "__defineGetter__"; "__defineSetter__"; "__lookupGetter__";
    "__lookupSetter__" ].

Definition inherited (k : string) : bool :=
  List.existsb (String.eqb k) Object_prototype_keys.

(** What a table read yields when it is not [undefined]. *)
Inductive Label : Type :=
| LStr (s : string)
| LBuiltin (k : string).

Definition table_get (t : list (string * string)) (k : string) : option Label :=
  match assoc k t with
  | Some s => Some (LStr s)
  | None => if inherited k then Some (LBuiltin k) else None
  end.

(** The property key a label denotes when it subscripts a table.  The text
    of a built-in object (the source text of a function, [[object Object]]
    for [Object.prototype]) is never a key of a table or of
    [Object.prototype]. *)
Definition label_key (l : Label) : option string :=
  match l with LStr s => Some s | LBuiltin _ => None end.

(** [a === b] on labels: strings by content, objects by identity. *)
Definition label_eqb (a b : Label) : bool :=
  match a, b with
  | LStr s, LStr s' => String.eqb s s'
  | LBuiltin k, LBuiltin k' => String.eqb k k'
  | _, _ => false
  end.

(** ** Incidents *)

(** The object every adapter builds.  [description] is display text that no
    stage reads back; it is left out, and the reads its construction makes
    are kept where they can throw. *)
Record Incident : Type := {
  id : string;
  type : Label;
  title : JsVal;
  location : JsVal;
  lat : JsVal;
  lng : JsVal;
  severity : Label;
  magnitude : JsVal;
  time : JsVal;
  source : string;
  url : JsVal;
  extra : list (string * JsVal);
}.

(** ** Deduplicate incidents by proximity *)

Section Dedup.

Context (rt : Runtime).

Definition half : number := Num.dec 5 10.

(** The predicate given to [seen.find]. *)
Definition clash (s inc : Incident) : bool :=
  label_eqb (type s) (type inc)
  && Num.lt (Num.abs (Num.sub (ToNumber rt (lat s)) (ToNumber rt (lat inc)))) half
  && Num.lt (Num.abs (Num.sub (ToNumber rt (lng s)) (ToNumber rt (lng inc)))) half.

(** One call of the [filter] callback: the answer and the [seen] array
    after it. *)
Definition dedup_step (seen : list Incident) (inc : Incident)
  : bool * list Incident :=
  match List.find (fun s => clash s inc) seen with
  | None => (true, seen ++ [inc])
  | Some _ => (false, seen)
  end.

(** [incidents.filter(cb)] with the callback's array [seen] threaded. *)
Fixpoint dedup_from (seen incidents : list Incident) : list Incident :=
  match incidents with
  | [] => []
  | inc :: rest =>
      let '(keep, seen') := dedup_step seen inc in
      if keep then inc :: dedup_from seen' rest else dedup_from seen' rest
  end.

Definition deduplicateIncidents (incidents : list Incident) : list Incident :=
  dedup_from [] incidents.

End Dedup.

(** ** Exceptions *)

(** What a piece of adapter code throws: an error of the engine, or the
    reason an awaited request was rejected with.  An [async] adapter that
    throws rejects its promise with what it threw. *)
Inductive Exn : Type :=
| TypeError
| RangeError
| Rejection (reason : JsVal).

Inductive result (A : Type) : Type :=
| Ok (a : A)
| Throw (e : Exn).

Arguments Ok {A} a.
Arguments Throw {A} e.

#[export] Instance result_ret : MRet result := fun A a => Ok a.

#[export] Instance result_bind : MBind result := fun A B f m =>
  match m with
  | Ok a => f a
  | Throw e => Throw e
  end.

(** [v.k]: reading a property of [undefined] or [null] throws. *)
Definition get (v : JsVal) (k : string) : result JsVal :=
  if nullish v then Throw TypeError else Ok (prop v k).

(** [v[i]] likewise. *)
Definition get_idx (v : JsVal) (i : nat) : result JsVal :=
  if nullish v then Throw TypeError else Ok (at_idx v i).

(** The elements an iteration or an array pattern draws from [v]: arrays
    and strings are iterable, no other JSON value is. *)
Definition iterate (v : JsVal) : result (list JsVal) :=
  match v with
  | VArr l => Ok l
  | VStr s =>
      Ok (List.map (fun c => VStr (String c EmptyString))
            (String.list_ascii_of_string s))
  | _ => Throw TypeError
  end.

(** [x.toFixed(d)] is a method of Numbers only. *)
Definition as_number (v : JsVal) : result number :=
  match v with
  | VNum x => Ok x
  | _ => Throw TypeError
  end.

(** ** Dates *)

Section Dates.

Context (rt : Runtime).

(** The time value of [new Date(v)]: text is parsed, any other value is
    converted to a Number and clipped.  [None] is an Invalid Date. *)
Definition date_of (v : JsVal) : option Z :=
  match v with
  | VStr s => Date_parse rt s
  | VArr _ | VObj _ => Date_parse rt (ToString rt v)
  | _ => Num.time_clip (ToNumber rt v)
  end.

(** [d.toISOString()] throws on an Invalid Date. *)
Definition toISOString (d : option Z) : result string :=
  match d with
  | Some t => Ok (Date_toISOString rt t)
  | None => Throw RangeError
  end.

End Dates.

(** ** Source 1: USGS earthquakes *)

Section USGS.

Context (rt : Runtime).

Definition usgs_severity (mag : JsVal) : string :=
  if Num.ge (ToNumber rt mag) (Num.dec 65 10) then "critical"
  else if Num.ge (ToNumber rt mag) (Num.dec 55 10) then "high"
  else if Num.ge (ToNumber rt mag) (Num.dec 45 10) then "moderate"
  else "low".

(** The callback of [data.features.map]. *)
Definition usgs_feature (f : JsVal) : result Incident :=
  props ← get f "properties";
  mag ← get props "mag";
  let severity := usgs_severity mag in
  coords ← get (prop f "geometry") "coordinates";
  lat_v ← get_idx coords 1;
  lng_v ← get_idx coords 0;
  m ← as_number mag;
  iso ← toISOString rt (date_of rt (prop props "time"));
  _ ← as_number (at_idx coords 2);
  Ok {| id := "usgs_" ++ ToString rt (prop f "id");
        type := LStr "earthquake";
        title := prop props "title";
        location := prop props "place";
        lat := lat_v;
        lng := lng_v;
        severity := LStr severity;
        magnitude := VNum (Num.toFixed1 m);
        time := VStr iso;
        source := "USGS Earthquake Hazards";
        url := prop props "url";
        extra := [] |}.

(** The filter on the mapped array: [i.lat && i.lng]. *)
Definition usgs_keep (i : Incident) : bool := truthy (lat i) && truthy (lng i).

(** [fetchUSGS], from the response body [data]. *)
Definition fetchUSGS (data : JsVal) : result (list Incident) :=
  features ← get data "features";
  match features with
  | VArr l =>
      mapped ← mapM usgs_feature l;
      Ok (List.filter usgs_keep mapped)
  | _ => Throw TypeError
  end.

End USGS.

(** ** Source 2: NASA EONET natural events *)

(** [table[key] || fallback], for a table whose values are non-empty
    strings; [key] is [None] when the subscript is a built-in object. *)
Definition table_or (t : list (string * string)) (key : option string)
  (fallback : string) : Label :=
  match key with
  | Some k => default (LStr fallback) (table_get t k)
  | None => LStr fallback
  end.

Definition nasa_typeMap : list (string * string) :=
  [ ("Wildfires", "fire"); ("Floods", "flood"); ("Severe Storms", "storm");
    ("Volcanoes", "volcano"); ("Tsunamis", "tsunami");
    ("Earthquakes", "earthquake"); ("Drought", "other");
    ("Sea and Lake Ice", "other"); ("Snow", "other");
    ("Dust and Haze", "other"); ("Landslides", "other");
    ("Manmade", "other") ].

Definition nasa_sevMap : list (string * string) :=
  [ ("fire", "high"); ("volcano", "high"); ("tsunami", "critical");
    ("flood", "moderate"); ("storm", "high") ].

Section NASA.

Context (rt : Runtime).

(** [event.geometry?.[event.geometry.length - 1]].  The length of an array
    or a string is an integer below 2^32, so the subscript is exactly the
    last position (none when the length is 0); an object is subscripted
    with the text of its own [length] minus one. *)
Definition nasa_last_geometry (event : JsVal) : JsVal :=
  let g := prop event "geometry" in
  match g with
  | VArr l => List.last l VUndefined
  | VStr s =>
      match String.length s with
      | O => VUndefined
      | S n => char_at s n
      end
  | VObj o =>
      let n := Num.sub (ToNumber rt (prop g "length")) (Num.of_Z 1) in
      default VUndefined (assoc (NumberToString rt n) o)
  | _ => VUndefined
  end.

(** [a === 'text'] for a JSON value [a]. *)
Definition is_string (a : JsVal) (text : string) : bool :=
  match a with VStr s => String.eqb s text | _ => false end.

(** The array pattern [[lng, lat] = v]. *)
Definition lng_lat (v : JsVal) : result (JsVal * JsVal) :=
  elems ← iterate v;
  Ok (nth 0 elems VUndefined, nth 1 elems VUndefined).

(** The coordinate pair taken from the geometry [geo], whose [coordinates]
    are truthy; [None] for a geometry that is neither a point nor a
    polygon. *)
Definition nasa_coordinates (geo : JsVal) : result (option (JsVal * JsVal)) :=
  if is_string (prop geo "type") "Point" then
    p ← lng_lat (prop geo "coordinates");
    Ok (Some p)
  else if is_string (prop geo "type") "Polygon" then
    vertex ← get_idx (at_idx (prop geo "coordinates") 0) 0;
    p ← lng_lat vertex;
    Ok (Some p)
  else Ok None.

(** One turn of the loop over [data.events]: [None] is a [continue],
    [Some] the incident pushed.  [now] is the clock read by [new Date()]. *)
Definition nasa_event (now : Z) (event : JsVal) : result (option Incident) :=
  categories ← get event "categories";
  let category :=
    js_or (prop_opt (at_idx_opt categories 0) "title") (VStr "Unknown") in
  let disasterType :=
    table_or nasa_typeMap (Some (ToString rt category)) "other" in
  let geo := nasa_last_geometry event in
  if negb (truthy (prop_opt geo "coordinates")) then Ok None else
  found ← nasa_coordinates geo;
  match found with
  | None => Ok None
  | Some (lng_v, lat_v) =>
      if isNaN rt lat_v || isNaN rt lng_v then Ok None else
      Ok (Some
        {| id := "nasa_" ++ ToString rt (prop event "id");
           type := disasterType;
           title := prop event "title";
           location := prop event "title";
           lat := lat_v;
           lng := lng_v;
           severity := table_or nasa_sevMap (label_key disasterType) "moderate";
           magnitude := VUndefined;
           time := js_or (prop geo "date") (VStr (Date_toISOString rt now));
           source := "NASA EONET";
           url := js_or (prop_opt (at_idx_opt (prop event "sources") 0) "url")
                        (VStr "https://eonet.gsfc.nasa.gov");
           extra := [] |})
  end.

Fixpoint nasa_loop (now : Z) (events : list JsVal) : result (list Incident) :=
  match events with
  | [] => Ok []
  | event :: rest =>
      pushed ← nasa_event now event;
      results ← nasa_loop now rest;
      Ok (match pushed with Some i => i :: results | None => results end)
  end.

(** [fetchNASAEONET], from the response body [data]. *)
Definition fetchNASAEONET (now : Z) (data : JsVal) : result (list Incident) :=
  events ← get data "events";
  events ← iterate events;
  nasa_loop now events.

End NASA.

(** ** Sources 3 and 4: the coordinate handling of GDACS and ReliefWeb *)

(** [s.split(c)] for a one-character separator. *)
Fixpoint split_on (c : Ascii.ascii) (s : string) : list string :=
  match s with
  | EmptyString => [ EmptyString ]
  | String a s' =>
      if Ascii.eqb a c then EmptyString :: split_on c s'
      else match split_on c s' with
           | [] => [ String a EmptyString ]
           | w :: ws => String a w :: ws
           end
  end.

(** [v?.split(c)?.[i]]: [split] is a method of strings only. *)
Definition split_part (v : JsVal) (c : Ascii.ascii) (i : nat) : result JsVal :=
  match v with
  | VUndefined | VNull => Ok VUndefined
  | VStr s => Ok (nth i (List.map VStr (split_on c s)) VUndefined)
  | _ => Throw TypeError
  end.

(** [v?.replace(...)]: [replace] is a method of strings only. *)
Definition replaceable (v : JsVal) : result unit :=
  match v with
  | VUndefined | VNull | VStr _ => Ok tt
  | _ => Throw TypeError
  end.

Section OtherSources.

Context (rt : Runtime).

(** The coordinates read from one GDACS feed item (an element of the parsed
    RSS): [None] is the early [return] that drops the item. *)
Definition gdacs_coordinates (item : JsVal) : result (option (number * number)) :=
  _ ← get item "title";
  _ ← replaceable (prop item "description");
  let geo_lat := prop item "geo:lat" in
  lat_src ← (if truthy geo_lat then Ok geo_lat
             else split_part (prop item "georss:point") " "%char 0);
  let lat_n := parseFloat rt (ToString rt lat_src) in
  let geo_long := prop item "geo:long" in
  lng_src ← (if truthy geo_long then Ok geo_long
             else split_part (prop item "georss:point") " "%char 1);
  let lng_n := parseFloat rt (ToString rt lng_src) in
  if Num.is_nan lat_n || Num.is_nan lng_n then Ok None
  else Ok (Some (lat_n, lng_n)).

(** The coordinates read from one ReliefWeb record: [None] is a
    [continue]. *)
Definition reliefweb_coordinates (item : JsVal) : result (option (JsVal * JsVal)) :=
  f ← get item "fields";
  country_list ← get f "country";
  let country := at_idx_opt country_list 0 in
  let location := prop_opt country "location" in
  if negb (truthy location) then Ok None else
  match location with
  | VStr s =>
      let parts :=
        List.map (fun part => VNum (StringToNumber rt part)) (split_on ","%char s) in
      let lng_v := nth 0 parts VUndefined in
      let lat_v := nth 1 parts VUndefined in
      if isNaN rt lat_v || isNaN rt lng_v then Ok None
      else Ok (Some (lat_v, lng_v))
  | _ => Throw TypeError
  end.

End OtherSources.

(** ** Source 5: Reddit, the credentials guard and the token *)

(** The part of [process.env] the server reads. *)
Record Env : Type := {
  REDDIT_CLIENT_ID : option string;
  REDDIT_CLIENT_SECRET : option string;
  REDDIT_USERNAME : option string;
}.

(** Truthiness of an environment variable: set and not empty. *)
Definition env_truthy (v : option string) : bool :=
  match v with
  | Some s => negb (String.eqb s "")
  | None => false
  end.

(** [let redditToken = null; let redditTokenExpiry = 0]. *)
Record RedditSession : Type := {
  redditToken : JsVal;
  redditTokenExpiry : number;
}.

Definition initial_session : RedditSession :=
  {| redditToken := VNull; redditTokenExpiry := Num.zero |}.

Section Reddit.

Context (rt : Runtime).

(** [getRedditToken]: [post] is the outcome of the token request (its
    response body, or the rejection), [now] the clock read once it
    returned.  The result is the returned value and the session after. *)
Definition getRedditToken (env : Env) (session : RedditSession)
  (post : result JsVal) (now : Z) : result JsVal * RedditSession :=
  if negb (env_truthy (REDDIT_CLIENT_ID env))
     || negb (env_truthy (REDDIT_CLIENT_SECRET env))
  then (Ok VNull, session)
  else
    match post with
    | Throw e => (Throw e, session)
    | Ok data =>
        if nullish data then (Throw TypeError, session)
        else
          let token := prop data "access_token" in
          let lifetime :=
            Num.mul (ToNumber rt (prop data "expires_in")) (Num.of_Z 1000) in
          (Ok token,
           {| redditToken := token;
              redditTokenExpiry := Num.add (Num.of_Z now) lifetime |})
    end.

(** [fetchRedditPosts]: [now] is the clock read by the expiry test, [post]
    and [now_token] are what a token refresh would meet, and [posts] are
    the incidents the loop over the subreddits collects (a failure inside
    the loop is caught there, so the loop itself never throws). *)
Definition fetchRedditPosts (env : Env) (session : RedditSession) (now : Z)
  (post : result JsVal) (now_token : Z) (posts : list Incident)
  : result (list Incident) * RedditSession :=
  if negb (env_truthy (REDDIT_CLIENT_ID env)) then (Ok [], session)
  else if negb (truthy (redditToken session))
          || Num.lt (Num.sub (redditTokenExpiry session) (Num.of_Z 30000))
               (Num.of_Z now)
  then
    match getRedditToken env session post now_token with
    | (Ok _, session') => (Ok posts, session')
    | (Throw e, session') => (Throw e, session')
    end
  else (Ok posts, session).

End Reddit.

(** ** Ranking *)

Definition sevOrder : list (string * Z) :=
  [ ("critical", 0%Z); ("high", 1%Z); ("moderate", 2%Z); ("low", 3%Z) ].

(** [sevOrder[severity] ?? 3] as the subtraction reads it: [None] is a
    value that is not a Number (a built-in object inherited from
    [Object.prototype]), which makes the difference [NaN]. *)
Definition tier (sev : Label) : option Z :=
  match sev with
  | LStr s =>
      match assoc s sevOrder with
      | Some n => Some n
      | None => if inherited s then None else Some 3%Z
      end
  | LBuiltin _ => Some 3%Z
  end.

Section Ranking.

Context (rt : Runtime).

(** The time value of [new Date(i.time || 0)]. *)
Definition time_value (i : Incident) : option Z :=
  date_of rt (js_or (time i) (VNum Num.zero)).

(** The comparator given to [sort]; [None] is [NaN].  Tiers and time
    values are integers, and the sign of a difference of two time values
    is the sign of their exact difference, which is all [sort] reads. *)
Definition compare_incidents (a b : Incident) : option Z :=
  match tier (severity a), tier (severity b) with
  | Some ta, Some tb =>
      let sd := (ta - tb)%Z in
      if negb (Z.eqb sd 0) then Some sd
      else match time_value b, time_value a with
           | Some tb', Some ta' => Some (tb' - ta')%Z
           | _, _ => None
           end
  | _, _ => None
  end.

End Ranking.

(** [Array.prototype.sort(comparefn)].  ECMA-262 makes the sort stable and
    reads only the sign of the comparator's result, [NaN] counting as zero.
    For a comparator that orders the elements consistently this fixes the
    result; the embedding is the stable insertion sort.  For a comparator
    that does not (one that yields [NaN] on some pairs and a sign on
    others, as an unparseable time makes it) ECMA-262 leaves the order to
    the implementation, and the order of the embedding is then not one the
    engine has to produce. *)
Definition positive_result (v : option Z) : bool :=
  match v with
  | Some z => Z.ltb 0 z
  | None => false
  end.

Fixpoint sort_insert {A : Type} (cmp : A -> A -> option Z) (x : A) (l : list A)
  : list A :=
  match l with
  | [] => [x]
  | y :: l' =>
      if positive_result (cmp x y) then y :: sort_insert cmp x l'
      else x :: y :: l'
  end.

Fixpoint Array_sort {A : Type} (cmp : A -> A -> option Z) (l : list A) : list A :=
  match l with
  | [] => []
  | x :: l' => sort_insert cmp x (Array_sort cmp l')
  end.

(** ** Main aggregation function *)

(** One entry of the array [Promise.allSettled] resolves to. *)
Inductive Settled : Type :=
| Fulfilled (value : list Incident)
| Rejected (reason : JsVal).

(** The five entries, in the order of the array literal. *)
Record Settlements : Type := {
  usgs : Settled;
  nasa : Settled;
  gdacs : Settled;
  reliefweb : Settled;
  reddit : Settled;
}.

Definition sourceNames : list string :=
  [ "USGS"; "NASA EONET"; "GDACS"; "ReliefWeb"; "Reddit" ].

Definition settled_list (r : Settlements) : list Settled :=
  [ usgs r; nasa r; gdacs r; reliefweb r; reddit r ].

Inductive SourceStatus : Type :=
| StatusOk (count : nat)                  (* { ok: true, count } *)
| StatusFailed (error : JsVal).           (* { ok: false, error } *)

Record AggregationResult : Type := {
  incidents : list Incident;
  sourceStatus : gmap string SourceStatus;
  fetchedAt : string;
}.

(** The callback of [results.forEach], on the pair of arrays it fills. *)
Definition collect (acc : list Incident * gmap string SourceStatus)
  (entry : string * Settled) : list Incident * gmap string SourceStatus :=
  let '(combined, status) := acc in
  let '(name, result) := entry in
  match result with
  | Fulfilled value =>
      (combined ++ value, <[ name := StatusOk (length value) ]> status)
  | Rejected reason =>
      (combined, <[ name := StatusFailed (prop_opt reason "message") ]> status)
  end.

(** [results.forEach(...)]: the arrays [combined] and [sourceStatus] once
    all five entries are visited. *)
Definition collect_all (results : Settlements)
  : list Incident * gmap string SourceStatus :=
  List.fold_left collect (combine sourceNames (settled_list results)) ([], ∅).

Section Aggregation.

Context (rt : Runtime).

Definition rank (deduped : list Incident) : list Incident :=
  Array_sort (compare_incidents rt) deduped.

(** [aggregateAllSources], from the settled adapter promises and the clock
    reading [now] of [new Date()]. *)
Definition aggregateAllSources (results : Settlements) (now : Z)
  : AggregationResult :=
  let '(combined, status) := collect_all results in
  let deduped := deduplicateIncidents rt combined in
  {| incidents := rank deduped;
     sourceStatus := status;
     fetchedAt := Date_toISOString rt now |}.

End Aggregation.

(** ** API routes and the cache *)

Record Cache : Type := {
  data : option AggregationResult;
  timestamp : option Z;
}.

(** [let cache = { data: null, timestamp: null }]. *)
Definition empty_cache : Cache := {| data := None; timestamp := None |}.

Definition CACHE_TTL_MS : Z := 3 * 60 * 1000.

(** One run of the pipeline as a route sees it: the settled adapters, the
    clock read inside [aggregateAllSources] and the clock read when the
    result is stored. *)
Record Run : Type := {
  results : Settlements;
  fetched_now : Z;
  stored_now : Z;
}.

(** The body of [GET /api/incidents]. *)
Record Response : Type := {
  body : AggregationResult;
  fromCache : bool;
}.

(** The body of [GET /api/incidents/:type]. *)
Record TypeResponse : Type := {
  filtered : list Incident;
  count : nat;
}.

(** [cache.data && cache.timestamp && Date.now() - cache.timestamp < TTL]:
    the cached result when the test passes. *)
Definition fresh (cache : Cache) (now : Z) : option AggregationResult :=
  match data cache, timestamp cache with
  | Some r, Some t =>
      if negb (Z.eqb t 0) && Z.ltb (now - t) CACHE_TTL_MS then Some r else None
  | _, _ => None
  end.

Section Routes.

Context (rt : Runtime).

(** [GET /api/incidents]: [now] is the clock read by the freshness test;
    [run] is consulted only when the pipeline runs. *)
Definition getAllIncidents (cache : Cache) (now : Z) (run : Run)
  : Cache * Response :=
  match fresh cache now with
  | Some r => (cache, {| body := r; fromCache := true |})
  | None =>
      let result := aggregateAllSources rt (results run) (fetched_now run) in
      ({| data := Some result; timestamp := Some (stored_now run) |},
       {| body := result; fromCache := false |})
  end.

(** [i.type === type] for the route parameter [type], a string. *)
Definition has_type (type_param : string) (i : Incident) : bool :=
  label_eqb (type i) (LStr type_param).

(** [GET /api/incidents/:type]. *)
Definition getIncidentsByType (cache : Cache) (type_param : string) (run : Run)
  : Cache * TypeResponse :=
  let all :=
    match data cache with
    | Some r => incidents r
    | None => incidents (aggregateAllSources rt (results run) (fetched_now run))
    end in
  let filtered := List.filter (has_type type_param) all in
  (cache, {| filtered := filtered; count := length filtered |}).

(** The pre-warm run at start-up. *)
Definition prewarm (run : Run) : Cache :=
  {| data := Some (aggregateAllSources rt (results run) (fetched_now run));
     timestamp := Some (stored_now run) |}.

End Routes.

(** ** Requests in turn *)

Section Serving.

Context (rt : Runtime).

(** The server answering a sequence of [GET /api/incidents] requests, one
    after the other, each with the clock it reads and the run it would
    make: the cache after the last one and the answers in order. *)
Fixpoint serve (cache : Cache) (requests : list (Z * Run))
  : Cache * list Response :=
  match requests with
  | [] => (cache, [])
  | (now, run) :: rest =>
      let '(cache', answer) := getAllIncidents rt cache now run in
      let '(final, answers) := serve cache' rest in
      (final, answer :: answers)
  end.

End Serving.

(** ** Text methods *)

(** The methods of [String.prototype] whose result depends on the engine's
    character tables; like the [Runtime] they are taken as an argument. *)
Record Text : Type := {
  toLowerCase : string -> string;
  trim : string -> string;
  slice_to : nat -> string -> string;     (* s.slice(0, n) *)
}.

(** [s.includes(kw)].  Every keyword the server searches for is ASCII
    text, which occurs in [s] at the same places whether a character of
    [s] outside ASCII is held as one unit or as several. *)
Fixpoint includes (s kw : string) : bool :=
  String.prefix kw s
  || match s with
     | EmptyString => false
     | String _ s' => includes s' kw
     end.

(** [toLowerCase], [trim] and [split] are methods of strings only. *)
Definition as_string (v : JsVal) : result string :=
  match v with
  | VStr s => Ok s
  | _ => Throw TypeError
  end.

(** ** Source 3: GDACS, the whole adapter *)

(** The chain of tests on the lower-cased title. *)
Definition gdacs_type (t : string) : string :=
  if includes t "earthquake" || includes t "quake" then "earthquake"
  else if includes t "flood" then "flood"
  else if includes t "cyclone" || includes t "hurricane"
          || includes t "typhoon" || includes t "storm" then "storm"
  else if includes t "volcano" || includes t "eruption" then "volcano"
  else if includes t "tsunami" then "tsunami"
  else if includes t "fire" then "fire"
  else "other".

Definition gdacs_sevMap : list (string * string) :=
  [ ("Red", "critical"); ("Orange", "high"); ("Green", "moderate") ].

Section GDACS.

Context (rt : Runtime) (tx : Text).

(** The callback of [forEach] on the item at position [idx]: [None] is
    the early [return], [Some] the incident pushed.  [now idx] is the clock
    read by [Date.now()] when that item is pushed. *)
Definition gdacs_item (now : nat -> Z) (idx : nat) (item : JsVal)
  : result (option Incident) :=
  coords ← gdacs_coordinates rt item;
  match coords with
  | None => Ok None
  | Some (lat_n, lng_n) =>
      let title_v := js_or (prop item "title") (VStr "") in
      let link := js_or (prop item "link") (VStr "https://gdacs.org") in
      let pubDate := prop item "pubDate" in
      title_s ← as_string title_v;
      let t := toLowerCase tx title_s in
      let alertLevel :=
        js_or (prop item "gdacs:alertlevel")
          (js_or (prop item "alertlevel") (VStr "")) in
      let severity :=
        table_or gdacs_sevMap (Some (ToString rt alertLevel)) "moderate" in
      let tail :=
        match last (split_on "-"%char title_s) with
        | Some part => VStr (trim tx part)
        | None => VUndefined
        end in
      iso ← (if truthy pubDate
             then text ← toISOString rt (date_of rt pubDate); Ok (VStr text)
             else Ok VNull);
      Ok (Some
        {| id := "gdacs_" ++ pretty idx ++ "_" ++ pretty (now idx);
           type := LStr (gdacs_type t);
           title := VStr (trim tx title_s);
           location :=
             js_or (prop item "gdacs:country") (js_or tail (VStr "Unknown"));
           lat := VNum lat_n;
           lng := VNum lng_n;
           severity := severity;
           magnitude := VUndefined;
           time := iso;
           source := "GDACS (UN System)";
           url := link;
           extra := [] |})
  end.

(** [itemArr.slice(0, 30).forEach(cb)] from position [idx] on. *)
Fixpoint gdacs_loop (now : nat -> Z) (idx : nat) (items : list JsVal)
  : result (list Incident) :=
  match items with
  | [] => Ok []
  | item :: rest =>
      pushed ← gdacs_item now idx item;
      results ← gdacs_loop now (S idx) rest;
      Ok (match pushed with Some i => i :: results | None => results end)
  end.

(** [fetchGDACS], from the object [parsed] that the XML parser builds from
    the feed. *)
Definition fetchGDACS (now : nat -> Z) (parsed : JsVal)
  : result (list Incident) :=
  let items := prop_opt (prop_opt (prop_opt parsed "rss") "channel") "item" in
  if negb (truthy items) then Ok [] else
  let itemArr := match items with VArr l => l | _ => [ items ] end in
  gdacs_loop now 0 (take 30 itemArr).

End GDACS.

(** ** Source 4: ReliefWeb, the whole adapter *)

Definition reliefweb_typeMap : list (string * string) :=
  [ ("EQ", "earthquake"); ("FL", "flood"); ("TC", "storm"); ("VO", "volcano");
    ("TS", "tsunami"); ("WF", "fire"); ("DR", "other"); ("EP", "other");
    ("AC", "other"); ("OT", "other") ].

Section ReliefWeb.

Context (rt : Runtime).

(** One turn of the loop over [data.data]: [None] is a [continue]. *)
Definition reliefweb_record (item : JsVal) : result (option Incident) :=
  coords ← reliefweb_coordinates rt item;
  match coords with
  | None => Ok None
  | Some (lat_v, lng_v) =>
      let f := prop item "fields" in
      let country := at_idx_opt (prop f "country") 0 in
      let typeCode :=
        js_or (prop_opt (at_idx_opt (prop f "type") 0) "code") (VStr "OT") in
      Ok (Some
        {| id := "rw_" ++ ToString rt (prop item "id");
           type := table_or reliefweb_typeMap (Some (ToString rt typeCode)) "other";
           title := prop f "name";
           location := js_or (prop country "name") (VStr "Unknown");
           lat := lat_v;
           lng := lng_v;
           severity := LStr "high";
           magnitude := VUndefined;
           time := prop_opt (prop f "date") "created";
           source := "ReliefWeb (OCHA)";
           url := js_or (prop f "url")
                    (VStr ("https://reliefweb.int/disaster/"
                           ++ ToString rt (prop item "id")));
           extra := [] |})
  end.

Fixpoint reliefweb_loop (items : list JsVal) : result (list Incident) :=
  match items with
  | [] => Ok []
  | item :: rest =>
      pushed ← reliefweb_record item;
      results ← reliefweb_loop rest;
      Ok (match pushed with Some i => i :: results | None => results end)
  end.

(** [fetchReliefWeb], from the response body [data]. *)
Definition fetchReliefWeb (data : JsVal) : result (list Incident) :=
  listing ← get data "data";
  items ← iterate (js_or listing (VArr []));
  reliefweb_loop items.

End ReliefWeb.

(** ** Source 5: Reddit, the posts *)

Definition DISASTER_KEYWORDS : list (string * list string) :=
  [ ("earthquake",
      [ "earthquake"; "quake"; "seismic"; "tremor"; "aftershock"; "magnitude" ]);
    ("flood",
      [ "flood"; "flooding"; "submerged"; "inundation"; "flash flood" ]);
    ("fire",
      [ "wildfire"; "fire"; "blaze"; "inferno"; "burning"; "forest fire";
        "brushfire" ]);
    ("storm",
      [ "hurricane"; "typhoon"; "cyclone"; "tornado"; "storm"; "blizzard" ]);
    ("volcano", [ "volcano"; "eruption"; "lava"; "volcanic" ]);
    ("tsunami", [ "tsunami"; "tidal wave" ]) ].

Definition LOCATION_HINTS : list (string * (number * number)) :=
  [ ("turkey", (Num.of_Z 39, Num.of_Z 35));
    ("california", (Num.dec 367 10, Num.dec (-1194) 10));
    ("japan", (Num.dec 362 10, Num.dec 1382 10));
    ("india", (Num.dec 206 10, Num.dec 789 10));
    ("indonesia", (Num.dec 8 10, Num.dec 1139 10));
    ("pakistan", (Num.dec 304 10, Num.dec 693 10));
    ("china", (Num.dec 359 10, Num.dec 1042 10));
    ("nepal", (Num.dec 284 10, Num.dec 841 10));
    ("philippines", (Num.dec 129 10, Num.dec 1218 10));
    ("australia", (Num.dec (-253) 10, Num.dec 1338 10));
    ("brazil", (Num.dec (-142) 10, Num.dec (-519) 10));
    ("chile", (Num.dec (-357) 10, Num.dec (-715) 10));
    ("italy", (Num.dec 419 10, Num.dec 125 10));
    ("greece", (Num.dec 391 10, Num.dec 218 10));
    ("morocco", (Num.dec 318 10, Num.dec (-71) 10));
    ("haiti", (Num.dec 189 10, Num.dec (-723) 10));
    ("mexico", (Num.dec 236 10, Num.dec (-1025) 10));
    ("iran", (Num.dec 324 10, Num.dec 537 10));
    ("afghanistan", (Num.dec 339 10, Num.dec 677 10));
    ("ukraine", (Num.dec 484 10, Num.dec 312 10));
    ("peru", (Num.dec (-92) 10, Num.of_Z (-75)));
    ("new zealand", (Num.dec (-409) 10, Num.dec 1749 10));
    ("taiwan", (Num.dec 237 10, Num.dec 1209 10));
    ("myanmar", (Num.dec 219 10, Num.dec 959 10));
    ("thailand", (Num.dec 159 10, Num.dec 1009 10));
    ("bangladesh", (Num.dec 237 10, Num.dec 904 10));
    ("los angeles", (Num.dec 341 10, Num.dec (-1182) 10));
    ("san francisco", (Num.dec 378 10, Num.dec (-1224) 10));
    ("texas", (Num.of_Z 31, Num.dec (-999) 10));
    ("florida", (Num.dec 277 10, Num.dec (-815) 10));
    ("alaska", (Num.dec 642 10, Num.dec (-1534) 10)) ].

Definition scaryWords : list string :=
  [ "deadly"; "deaths"; "killed"; "casualties"; "devastating"; "catastrophic";
    "emergency"; "massive" ].

(** [{ name, query }] of the four searches. *)
Definition subreddits : list (string * string) :=
  [ ("worldnews",
      "earthquake OR flood OR hurricane OR wildfire OR tsunami OR volcano");
    ("news", "earthquake OR flood OR hurricane OR wildfire");
    ("earthquake", "");
    ("weather", "disaster OR severe OR emergency") ].

(** [name.charAt(0).toUpperCase() + name.slice(1)] for a key of
    [LOCATION_HINTS]: the keys are lower-case ASCII words. *)
Definition capitalize (name : string) : string :=
  match name with
  | EmptyString => EmptyString
  | String c rest =>
      let n := Ascii.nat_of_ascii c in
      String (if (97 <=? n)%nat && (n <=? 122)%nat
              then Ascii.ascii_of_nat (n - 32) else c) rest
  end.

(** [(Math.random() - 0.5) * 2] for the draw [r]. *)
Definition jitter (r : number) : number :=
  Num.mul (Num.sub r (Num.dec 5 10)) (Num.of_Z 2).

(** [s.slice(0, n)] is a method of strings and of arrays. *)
Definition sliceable (v : JsVal) : result unit :=
  match v with
  | VStr _ | VArr _ => Ok tt
  | _ => Throw TypeError
  end.

(** What the handler [catch (e) { console.warn(..., e.message) }] does with
    what was thrown: reading [message] of a rejection reason that is
    [undefined] or [null] throws in turn. *)
Definition warn (e : Exn) : result unit :=
  match e with
  | Rejection reason => if nullish reason then Throw TypeError else Ok tt
  | _ => Ok tt
  end.

Section RedditPosts.

Context (rt : Runtime) (tx : Text).

Definition classifyDisasterType (text : string) : option string :=
  let lower := toLowerCase tx text in
  match List.find (fun entry => List.existsb (includes lower) entry.2)
          DISASTER_KEYWORDS with
  | Some entry => Some entry.1
  | None => None
  end.

(** [extractLocation]: [random] is the sequence of values [Math.random()]
    returns and [n] the number of values drawn so far; the result carries
    the number drawn after the call. *)
Definition extractLocation (text : string) (random : nat -> number) (n : nat)
  : option (string * number * number) * nat :=
  let lower := toLowerCase tx text in
  match List.find (fun entry => includes lower entry.1) LOCATION_HINTS with
  | Some (name, (la, lo)) =>
      (Some (capitalize name,
             Num.add la (jitter (random n)),
             Num.add lo (jitter (random (S n)))),
       S (S n))
  | None => (None, n)
  end.

Definition scoreSeverity (upvotes title : JsVal) : result string :=
  title_s ← as_string title;
  let scary := List.existsb (includes (toLowerCase tx title_s)) scaryWords in
  let votes := ToNumber rt upvotes in
  if Num.lt (Num.of_Z 5000) votes || (Num.lt (Num.of_Z 2000) votes && scary)
  then Ok "critical"
  else if Num.lt (Num.of_Z 1000) votes || scary then Ok "high"
  else if Num.lt (Num.of_Z 200) votes then Ok "moderate"
  else Ok "low".

(** The object pushed for the post [p] once its type and location are
    found. *)
Definition reddit_incident (sub_name : string) (p : JsVal) (type_s : string)
  (place : string * number * number) : result Incident :=
  title_s ← as_string (prop p "title");
  sev ← scoreSeverity (prop p "score") (prop p "title");
  iso ← toISOString rt
          (date_of rt
             (VNum (Num.mul (ToNumber rt (prop p "created_utc"))
                      (Num.of_Z 1000))));
  _ ← sliceable (js_or (prop p "selftext") (VStr ""));
  Ok {| id := "reddit_" ++ ToString rt (prop p "id");
        type := LStr type_s;
        title := VStr (slice_to tx 120 title_s);
        location := VStr place.1.1;
        lat := VNum place.1.2;
        lng := VNum place.2;
        severity := LStr sev;
        magnitude := VUndefined;
        time := VStr iso;
        source := "Reddit";
        url := VStr ("https://reddit.com" ++ ToString rt (prop p "permalink"));
        extra := [ ("upvotes", prop p "score");
                   ("comments", prop p "num_comments");
                   ("subreddit", VStr sub_name) ] |}.

(** One turn of the loop over the posts of a listing: [None] is a
    [continue]. *)
Definition reddit_post (sub_name : string) (post : JsVal)
  (random : nat -> number) (n : nat) : result (option Incident) * nat :=
  match get post "data" with
  | Throw e => (Throw e, n)
  | Ok p =>
      match get p "title" with
      | Throw e => (Throw e, n)
      | Ok title_v =>
          if negb (truthy title_v)
             || Num.lt (ToNumber rt (prop p "score")) (Num.of_Z 10)
          then (Ok None, n)
          else
            let text :=
              (ToString rt title_v ++ " "
               ++ ToString rt (js_or (prop p "selftext") (VStr "")))%string in
            match classifyDisasterType text with
            | None => (Ok None, n)
            | Some type_s =>
                match extractLocation text random n with
                | (None, n') => (Ok None, n')
                | (Some place, n') =>
                    (i ← reddit_incident sub_name p type_s place; Ok (Some i),
                     n')
                end
            end
      end
  end.

(** The loop over the posts, pushing to [allPosts]; what it throws leaves
    [allPosts] with what was pushed before. *)
Fixpoint reddit_posts (sub_name : string) (posts : list JsVal)
  (random : nat -> number) (allPosts : list Incident) (n : nat)
  : result unit * (list Incident * nat) :=
  match posts with
  | [] => (Ok tt, (allPosts, n))
  | post :: rest =>
      match reddit_post sub_name post random n with
      | (Throw e, n') => (Throw e, (allPosts, n'))
      | (Ok pushed, n') =>
          reddit_posts sub_name rest random
            (match pushed with Some i => allPosts ++ [ i ] | None => allPosts end)
            n'
      end
  end.

(** The body of the loop over the subreddits, [try] and [catch]:
    [response] is the outcome of the request for this subreddit. *)
Definition reddit_sub (sub_name : string) (response : result JsVal)
  (random : nat -> number) (allPosts : list Incident) (n : nat)
  : result unit * (list Incident * nat) :=
  let attempt :=
    match response with
    | Throw e => (Throw e, (allPosts, n))
    | Ok data =>
        match iterate (js_or (prop_opt (prop_opt data "data") "children")
                             (VArr [])) with
        | Throw e => (Throw e, (allPosts, n))
        | Ok posts => reddit_posts sub_name posts random allPosts n
        end
    end in
  match attempt with
  | (Throw e, state) => (warn e, state)
  | (Ok _, state) => (Ok tt, state)
  end.

Fixpoint reddit_subs (subs : list (string * string))
  (responses : string -> result JsVal) (random : nat -> number)
  (allPosts : list Incident) (n : nat) : result (list Incident) * nat :=
  match subs with
  | [] => (Ok allPosts, n)
  | sub :: rest =>
      match reddit_sub sub.1 (responses sub.1) random allPosts n with
      | (Throw e, (_, n')) => (Throw e, n')
      | (Ok _, (allPosts', n')) => reddit_subs rest responses random allPosts' n'
      end
  end.

(** The part of [fetchRedditPosts] after the token: the loop over the four
    subreddits and the [return allPosts].  [responses name] is the outcome
    of the request for [r/name]. *)
Definition reddit_loop (responses : string -> result JsVal)
  (random : nat -> number) (n : nat) : result (list Incident) * nat :=
  reddit_subs subreddits responses random [] n.

End RedditPosts.

(** * Vocabulary of the properties *)

(** No incident clashes with one that stands before it in the list. *)
Definition clash_free (rt : Runtime) (l : list Incident) : Prop :=
  ForallOrdPairs (fun s inc => clash rt s inc = false) l.

(** Ranking keys: a severity tier and a time value.  [key_before k1 k2]:
    an incident with key [k1] must stand before one with key [k2] (lower
    tier, or the same tier and a later time). *)
Definition key_before (k1 k2 : Z * Z) : bool :=
  Z.ltb k1.1 k2.1 || (Z.eqb k1.1 k2.1 && Z.ltb k2.2 k1.2).

Definition key_eqb (k1 k2 : Z * Z) : bool :=
  Z.eqb k1.1 k2.1 && Z.eqb k1.2 k2.2.

(** [a] may stand before [b]: [b]'s key does not have to precede [a]'s. *)
Definition in_order {A : Type} (key : A -> Z * Z) (a b : A) : Prop :=
  key_before (key b) (key a) = false.

Definition same_key {A : Type} (key : A -> Z * Z) (a b : A) : bool :=
  key_eqb (key a) (key b).

Definition rank_key (rt : Runtime) (i : Incident) : Z * Z :=
  (default 3%Z (tier (severity i)), default 0%Z (time_value rt i)).

Definition same_rank (rt : Runtime) (a b : Incident) : bool :=
  same_key (rank_key rt) a b.

(** The comparator yields a Number on [i]: its severity has a tier and its
    time is absent or a valid date. *)
Definition well_keyed (rt : Runtime) (i : Incident) : Prop :=
  is_Some (tier (severity i)) /\ is_Some (time_value rt i).

(** The order the ranking is said to produce, in the words of the
    specification: ascending tier, then descending time with an absent time
    older than every time. *)
Definition spec_not_older (rt : Runtime) (a b : Incident) : Prop :=
  match truthy (time a), truthy (time b) with
  | _, false => True
  | false, true => False
  | true, true =>
      exists ma mb, date_of rt (time a) = Some ma
                    /\ date_of rt (time b) = Some mb /\ (mb <= ma)%Z
  end.

Definition spec_ranked (rt : Runtime) (out : list Incident) : Prop :=
  forall i j a b, (i < j)%nat -> out !! i = Some a -> out !! j = Some b ->
    exists ta tb, tier (severity a) = Some ta /\ tier (severity b) = Some tb
      /\ ((ta < tb)%Z \/ (ta = tb /\ spec_not_older rt a b)).

(** What a settled adapter contributes and how it is reported. *)
Definition contribution (r : Settled) : list Incident :=
  match r with
  | Fulfilled value => value
  | Rejected _ => []
  end.

Definition report (r : Settled) : SourceStatus :=
  match r with
  | Fulfilled value => StatusOk (length value)
  | Rejected reason => StatusFailed (prop_opt reason "message")
  end.

(** The cached result was fetched no later than it was stored. *)
Definition cache_dated (rt : Runtime) (cache : Cache) : Prop :=
  forall r t, data cache = Some r -> timestamp cache = Some t ->
    exists t0, fetchedAt r = Date_toISOString rt t0 /\ (t0 <= t)%Z.

(** [n] is an integer nearest to ten times [m * 2^e]: twice their distance
    is at most one. *)
Definition nearest_tenth (m : positive) (e n : Z) : Prop :=
  match e with
  | Zneg k => (2 * Z.abs (10 * Zpos m - n * 2 ^ Zpos k) <= 2 ^ Zpos k)%Z
  | _ => n = (10 * Zpos m * 2 ^ e)%Z
  end.

(** The severity the satellite-event adapter is said to give a type. *)
Definition nasa_severity_of (t : Label) : string :=
  match t with
  | LStr s =>
      if String.eqb s "tsunami" then "critical"
      else if String.eqb s "fire" || String.eqb s "volcano" || String.eqb s "storm"
      then "high"
      else "moderate"
  | LBuiltin _ => "moderate"
  end.

(** * Sample inputs *)

(** A runtime for the closed examples below.  None of them reads or prints
    a number as text, and the only dates they parse are ISO dates of the
    year 2024, given by the table. *)
Definition example_dates : list (string * Z) :=
  [ ("2024-05-01T00:00:00.000Z", 1714521600000%Z);
    ("2024-05-02T00:00:00.000Z", 1714608000000%Z) ].

Definition example_runtime : Runtime :=
  {| StringToNumber := fun _ => Num.NaN;
     NumberToString := fun _ => "NaN";
     parseFloat := fun _ => Num.NaN;
     Date_parse := fun s => assoc s example_dates;
     Date_toISOString := fun t =>
       match List.find (fun d => Z.eqb d.2 t) example_dates with
       | Some d => d.1
       | None => ""
       end |}.

Definition undated_alert : Incident :=
  {| id := "gdacs_0_1700000000000";
     type := LStr "flood";
     title := VStr "Flood alert";
     location := VStr "Unknown";
     lat := VNum (Num.of_Z 10);
     lng := VNum (Num.of_Z 20);
     severity := LStr "high";
     magnitude := VUndefined;
     time := VNull;
     source := "GDACS (UN System)";
     url := VStr "https://gdacs.org";
     extra := [] |}.

Definition old_disaster : Incident :=
  {| id := "rw_1";
     type := LStr "flood";
     title := VStr "Floods";
     location := VStr "Unknown";
     lat := VNum (Num.of_Z 40);
     lng := VNum (Num.of_Z 50);
     severity := LStr "high";
     magnitude := VUndefined;
     time := VStr "1969-12-31T23:59:59.000Z";
     source := "ReliefWeb (OCHA)";
     url := VStr "https://reliefweb.int/disaster/1";
     extra := [] |}.

(** A second report of the flood of [undated_alert], 0.3 and 0.2 degrees
    away, and a report exactly half a degree away. *)
Definition nearby_report : Incident :=
  {| id := "gdacs_1_1700000000000";
     type := LStr "flood";
     title := VStr "Flood alert";
     location := VStr "Unknown";
     lat := VNum (Num.dec 103 10);
     lng := VNum (Num.dec 202 10);
     severity := LStr "critical";
     magnitude := VUndefined;
     time := VStr "2024-05-01T00:00:00.000Z";
     source := "GDACS (UN System)";
     url := VStr "https://gdacs.org";
     extra := [] |}.

Definition half_degree_report : Incident :=
  {| id := "gdacs_2_1700000000000";
     type := LStr "flood";
     title := VStr "Flood alert";
     location := VStr "Unknown";
     lat := VNum (Num.dec 105 10);
     lng := VNum (Num.of_Z 20);
     severity := LStr "moderate";
     magnitude := VUndefined;
     time := VStr "2024-05-02T00:00:00.000Z";
     source := "GDACS (UN System)";
     url := VStr "https://gdacs.org";
     extra := [] |}.

(** A feed with one earthquake on the equator, of magnitude 5.649. *)
Definition equator_quake : JsVal :=
  VObj [ ("id", VStr "us7000abcd");
         ("properties",
           VObj [ ("mag", VNum (Num.dec 5649 1000));
                  ("title", VStr "M 5.6 - Molucca Sea");
                  ("place", VStr "Molucca Sea");
                  ("time", VNum (Num.of_Z 1714521600000));
                  ("url", VStr "https://earthquake.usgs.gov/earthquakes/eventpage/us7000abcd");
                  ("felt", VNull) ]);
         ("geometry",
           VObj [ ("type", VStr "Point");
                  ("coordinates",
                    VArr [ VNum (Num.dec 1253 10); VNum Num.zero;
                           VNum (Num.of_Z 35) ]) ]) ].

Definition equator_feed : JsVal := VObj [ ("features", VArr [ equator_quake ]) ].

Definition equator_incident : Incident :=
  {| id := "usgs_us7000abcd";
     type := LStr "earthquake";
     title := VStr "M 5.6 - Molucca Sea";
     location := VStr "Molucca Sea";
     lat := VNum Num.zero;
     lng := VNum (Num.dec 1253 10);
     severity := LStr "high";
     magnitude := VNum (Num.dec 56 10);
     time := VStr "2024-05-01T00:00:00.000Z";
     source := "USGS Earthquake Hazards";
     url := VStr "https://earthquake.usgs.gov/earthquakes/eventpage/us7000abcd";
     extra := [] |}.

(** An open wildfire with two observations, the later one a point. *)
Definition wildfire_event : JsVal :=
  VObj [ ("id", VStr "EONET_6500");
         ("title", VStr "Wildfire - Alberta, Canada");
         ("categories", VArr [ VObj [ ("id", VStr "wildfires");
                                      ("title", VStr "Wildfires") ] ]);
         ("sources", VArr [ VObj [ ("id", VStr "IRWIN");
                                   ("url", VStr "https://irwin.doi.gov/observer/") ] ]);
         ("geometry",
           VArr [ VObj [ ("date", VStr "2024-05-01T00:00:00.000Z");
                         ("type", VStr "Point");
                         ("coordinates",
                           VArr [ VNum (Num.of_Z (-114)); VNum (Num.of_Z 55) ]) ];
                  VObj [ ("date", VStr "2024-05-02T00:00:00.000Z");
                         ("type", VStr "Point");
                         ("coordinates",
                           VArr [ VNum (Num.of_Z (-113)); VNum (Num.of_Z 56) ]) ] ]) ].

Definition wildfire_incident : Incident :=
  {| id := "nasa_EONET_6500";
     type := LStr "fire";
     title := VStr "Wildfire - Alberta, Canada";
     location := VStr "Wildfire - Alberta, Canada";
     lat := VNum (Num.of_Z 56);
     lng := VNum (Num.of_Z (-113));
     severity := LStr "high";
     magnitude := VUndefined;
     time := VStr "2024-05-02T00:00:00.000Z";
     source := "NASA EONET";
     url := VStr "https://irwin.doi.gov/observer/";
     extra := [] |}.

(** An event whose only observation has no longitude. *)
Definition unlocated_event : JsVal :=
  VObj [ ("id", VStr "EONET_6501");
         ("title", VStr "Wildfire - location pending");
         ("categories", VArr [ VObj [ ("id", VStr "wildfires");
                                      ("title", VStr "Wildfires") ] ]);
         ("sources", VArr []);
         ("geometry",
           VArr [ VObj [ ("date", VStr "2024-05-02T00:00:00.000Z");
                         ("type", VStr "Point");
                         ("coordinates", VArr [ VNull; VNum (Num.of_Z 56) ]) ] ]) ].

Definition unlocated_incident : Incident :=
  {| id := "nasa_EONET_6501";
     type := LStr "fire";
     title := VStr "Wildfire - location pending";
     location := VStr "Wildfire - location pending";
     lat := VNum (Num.of_Z 56);
     lng := VNull;
     severity := LStr "high";
     magnitude := VUndefined;
     time := VStr "2024-05-02T00:00:00.000Z";
     source := "NASA EONET";
     url := VStr "https://eonet.gsfc.nasa.gov";
     extra := [] |}.

(** An earthquake whose latitude is text that is no number. *)
Definition mislabelled_quake : JsVal :=
  VObj [ ("id", VStr "us7000abce");
         ("properties",
           VObj [ ("mag", VNum (Num.dec 46 10));
                  ("title", VStr "M 4.6 - unknown");
                  ("place", VStr "unknown");
                  ("time", VNum (Num.of_Z 1714521600000));
                  ("url", VStr "https://earthquake.usgs.gov/earthquakes/eventpage/us7000abce") ]);
         ("geometry",
           VObj [ ("type", VStr "Point");
                  ("coordinates",
                    VArr [ VNum (Num.dec 1253 10); VStr "n/a";
                           VNum (Num.of_Z 35) ]) ]) ].

Definition no_sources (nasa_result : Settled) (usgs_result : Settled)
  : Settlements :=
  {| usgs := usgs_result;
     nasa := nasa_result;
     gdacs := Rejected (VObj [ ("message", VStr "timeout of 10000ms exceeded") ]);
     reliefweb := Fulfilled [];
     reddit := Fulfilled [] |}.

Definition no_credentials : Env :=
  {| REDDIT_CLIENT_ID := None;
     REDDIT_CLIENT_SECRET := None;
     REDDIT_USERNAME := None |}.

(** A first run at start-up and a later run that sees one more incident. *)
Definition first_run : Run :=
  {| results := no_sources (Fulfilled [ wildfire_incident ]) (Fulfilled []);
     fetched_now := 1714521600000;
     stored_now := 1714521600400 |}.

Definition later_run : Run :=
  {| results := no_sources (Fulfilled [ wildfire_incident ])
                  (Fulfilled [ equator_incident ]);
     fetched_now := 1714608000000;
     stored_now := 1714608000400 |}.

Definition warm_cache : Cache := prewarm example_runtime first_run.

(** An earthquake the feed lists without a magnitude. *)
Definition unrated_quake : JsVal :=
  VObj [ ("id", VStr "us7000abcf");
         ("properties",
           VObj [ ("mag", VNull);
                  ("title", VStr "M ? - Fiji region");
                  ("place", VStr "Fiji region");
                  ("time", VNum (Num.of_Z 1714521600000));
                  ("url", VStr "https://earthquake.usgs.gov/earthquakes/eventpage/us7000abcf") ]);
         ("geometry",
           VObj [ ("type", VStr "Point");
                  ("coordinates",
                    VArr [ VNum (Num.of_Z (-178)); VNum (Num.of_Z (-18));
                           VNum (Num.of_Z 550) ]) ]) ].

Definition all_rejected (reason : JsVal) : Settlements :=
  {| usgs := Rejected reason;
     nasa := Rejected reason;
     gdacs := Rejected reason;
     reliefweb := Rejected reason;
     reddit := Rejected reason |}.

(** An event the feed lists with no observation yet. *)
Definition unobserved_event : JsVal :=
  VObj [ ("id", VStr "EONET_6502");
         ("title", VStr "Tropical Storm Alberto");
         ("categories", VArr [ VObj [ ("id", VStr "severeStorms");
                                      ("title", VStr "Severe Storms") ] ]);
         ("sources", VArr []);
         ("geometry", VArr []) ].

Definition with_credentials : Env :=
  {| REDDIT_CLIENT_ID := Some "client";
     REDDIT_CLIENT_SECRET := Some "secret";
     REDDIT_USERNAME := None |}.

(** A strong earthquake near Fiji. *)
Definition fiji_quake : JsVal :=
  VObj [ ("id", VStr "us7000abcg");
         ("properties",
           VObj [ ("mag", VNum (Num.dec 66 10));
                  ("title", VStr "M 6.6 - Fiji region");
                  ("place", VStr "Fiji region");
                  ("time", VNum (Num.of_Z 1714608000000));
                  ("url", VStr "https://earthquake.usgs.gov/earthquakes/eventpage/us7000abcg") ]);
         ("geometry",
           VObj [ ("type", VStr "Point");
                  ("coordinates",
                    VArr [ VNum (Num.of_Z (-178)); VNum (Num.of_Z (-18));
                           VNum (Num.of_Z 550) ]) ]) ].

Definition fiji_incident : Incident :=
  {| id := "usgs_us7000abcg";
     type := LStr "earthquake";
     title := VStr "M 6.6 - Fiji region";
     location := VStr "Fiji region";
     lat := VNum (Num.of_Z (-18));
     lng := VNum (Num.of_Z (-178));
     severity := LStr "critical";
     magnitude := VNum (Num.dec 66 10);
     time := VStr "2024-05-02T00:00:00.000Z";
     source := "USGS Earthquake Hazards";
     url := VStr "https://earthquake.usgs.gov/earthquakes/eventpage/us7000abcg";
     extra := [] |}.

(** The item or items of a parsed GDACS feed, as [fetchGDACS] reaches
    them. *)
Definition gdacs_items (parsed : JsVal) : JsVal :=
  prop_opt (prop_opt (prop_opt parsed "rss") "channel") "item".

(** A coordinate that is a Number other than [NaN]. *)
Definition plain_number (v : JsVal) : Prop :=
  exists x, v = VNum x /\ Num.is_nan x = false.

(** A runtime and text methods for the closed examples on feeds: numbers
    and dates are read by table, letters are lowered and blanks trimmed
    within ASCII. *)
Definition feed_numbers : list (string * number) :=
  [ ("-17.9", Num.dec (-179) 10); ("178.4", Num.dec 1784 10);
    ("12.5", Num.dec 125 10); ("41.9", Num.dec 419 10);
    ("35", Num.of_Z 35); ("39", Num.of_Z 39) ].

Definition feed_dates : list (string * Z) :=
  [ ("Wed, 01 May 2024 00:00:00 GMT", 1714521600000%Z);
    ("2024-05-01T00:00:00.000Z", 1714521600000%Z) ].

Definition feed_runtime : Runtime :=
  {| StringToNumber := fun s => default Num.NaN (assoc s feed_numbers);
     NumberToString := fun _ => "NaN";
     parseFloat := fun s => default Num.NaN (assoc s feed_numbers);
     Date_parse := fun s => assoc s feed_dates;
     Date_toISOString := fun t =>
       if Z.eqb t 1714521600000 then "2024-05-01T00:00:00.000Z" else "" |}.

Definition lower_ascii (c : Ascii.ascii) : Ascii.ascii :=
  let n := Ascii.nat_of_ascii c in
  if (65 <=? n)%nat && (n <=? 90)%nat then Ascii.ascii_of_nat (n + 32) else c.

Fixpoint lower_string (s : string) : string :=
  match s with
  | EmptyString => EmptyString
  | String c s' => String (lower_ascii c) (lower_string s')
  end.

Fixpoint trim_left (s : string) : string :=
  match s with
  | String c s' => if Ascii.eqb c " "%char then trim_left s' else s
  | EmptyString => EmptyString
  end.

Fixpoint trim_right (s : string) : string :=
  match s with
  | EmptyString => EmptyString
  | String c s' =>
      match trim_right s' with
      | EmptyString =>
          if Ascii.eqb c " "%char then EmptyString else String c EmptyString
      | kept => String c kept
      end
  end.

Definition example_text : Text :=
  {| toLowerCase := lower_string;
     trim := fun s => trim_right (trim_left s);
     slice_to := fun n s => String.substring 0 n s |}.

(** A GDACS item: an orange cyclone alert, and the same alert with a
    publication date that is no date. *)
Definition cyclone_item : JsVal :=
  VObj [ ("title", VStr "Orange alert for tropical cyclone - Fiji");
         ("link", VStr "https://www.gdacs.org/report.aspx?eventid=1001");
         ("description", VStr "Tropical cyclone");
         ("pubDate", VStr "Wed, 01 May 2024 00:00:00 GMT");
         ("geo:lat", VStr "-17.9");
         ("geo:long", VStr "178.4");
         ("gdacs:alertlevel", VStr "Orange");
         ("gdacs:country", VStr "Fiji") ].

Definition misdated_item : JsVal :=
  VObj [ ("title", VStr "Green alert for flood - Italy");
         ("pubDate", VStr "yesterday");
         ("geo:lat", VStr "41.9");
         ("geo:long", VStr "12.5") ].

Definition gdacs_feed (items : JsVal) : JsVal :=
  VObj [ ("rss", VObj [ ("channel", VObj [ ("item", items) ]) ]) ].

Definition feed_clock (idx : nat) : Z := 1714521600000 + Z.of_nat idx.

(** ReliefWeb records: one whose country location is text, one whose
    country location is an object with the two coordinates as members. *)
Definition italy_floods : JsVal :=
  VObj [ ("id", VStr "52001");
         ("fields",
           VObj [ ("name", VStr "Italy: Floods - May 2024");
                  ("country",
                    VArr [ VObj [ ("name", VStr "Italy");
                                  ("location", VStr "12.5,41.9") ] ]);
                  ("date", VObj [ ("created", VStr "2024-05-01T00:00:00.000Z") ]);
                  ("type", VArr [ VObj [ ("code", VStr "FL");
                                         ("name", VStr "Flood") ] ]);
                  ("url", VStr "https://reliefweb.int/disaster/fl-2024-000052-ita") ]) ].

Definition turkey_quake : JsVal :=
  VObj [ ("id", VStr "52002");
         ("fields",
           VObj [ ("name", VStr "Turkey: Earthquake - May 2024");
                  ("country",
                    VArr [ VObj [ ("name", VStr "Turkey");
                                  ("location",
                                    VObj [ ("lat", VNum (Num.of_Z 39));
                                           ("lon", VNum (Num.of_Z 35)) ]) ] ]);
                  ("type", VArr [ VObj [ ("code", VStr "EQ");
                                         ("name", VStr "Earthquake") ] ]) ]) ].

(** [table] read as [classifyDisasterType] reads [DISASTER_KEYWORDS]: the
    name of the first entry one of whose keywords occurs in [lower]. *)
Definition first_entry (table : list (string * list string)) (lower : string)
  : option string :=
  match List.find (fun entry => List.existsb (includes lower) entry.2) table with
  | Some entry => Some entry.1
  | None => None
  end.

(** [DISASTER_KEYWORDS] without the keywords that contain another keyword
    of their own entry. *)
Definition essential_keywords : list (string * list string) :=
  [ ("earthquake", [ "quake"; "seismic"; "tremor"; "aftershock"; "magnitude" ]);
    ("flood", [ "flood"; "submerged"; "inundation" ]);
    ("fire", [ "fire"; "blaze"; "inferno"; "burning" ]);
    ("storm",
      [ "hurricane"; "typhoon"; "cyclone"; "tornado"; "storm"; "blizzard" ]);
    ("volcano", [ "volcano"; "eruption"; "lava"; "volcanic" ]);
    ("tsunami", [ "tsunami"; "tidal wave" ]) ].

(** The response body of a Reddit listing with the posts [posts]. *)
Definition reddit_listing (posts : list JsVal) : JsVal :=
  VObj [ ("data", VObj [ ("children", VArr posts) ]) ].

(** An incident that some turn of the loop over the posts pushes. *)
Definition reddit_pushed (rt : Runtime) (tx : Text) (random : nat -> number)
  (i : Incident) : Prop :=
  exists sub_name post n n',
    reddit_post rt tx sub_name post random n = (Ok (Some i), n').

(** Rejections as the HTTP client makes them: with an error object. *)
Definition rejections_carry_errors (responses : string -> result JsVal) : Prop :=
  forall name e, responses name = Throw e -> warn e = Ok tt.

(** Reddit posts, a listing and the outcome of the four requests. *)
Definition quake_post : JsVal :=
  VObj [ ("kind", VStr "t3");
         ("data",
           VObj [ ("id", VStr "1abc");
                  ("title", VStr "Deadly earthquake hits Turkey");
                  ("selftext", VStr "");
                  ("score", VNum (Num.of_Z 2500));
                  ("created_utc", VNum (Num.of_Z 1714521600));
                  ("permalink", VStr "/r/worldnews/comments/1abc");
                  ("num_comments", VNum (Num.of_Z 40)) ]) ].

Definition undated_post : JsVal :=
  VObj [ ("kind", VStr "t3");
         ("data",
           VObj [ ("id", VStr "1abd");
                  ("title", VStr "Flooding in Nepal");
                  ("score", VNum (Num.of_Z 300)) ]) ].

Definition quake_report : Incident :=
  {| id := "reddit_1abc";
     type := LStr "earthquake";
     title := VStr "Deadly earthquake hits Turkey";
     location := VStr "Turkey";
     lat := VNum (Num.of_Z 39);
     lng := VNum (Num.of_Z 35);
     severity := LStr "critical";
     magnitude := VUndefined;
     time := VStr "2024-05-01T00:00:00.000Z";
     source := "Reddit";
     url := VStr "https://reddit.com/r/worldnews/comments/1abc";
     extra := [ ("upvotes", VNum (Num.of_Z 2500));
                ("comments", VNum (Num.of_Z 40));
                ("subreddit", VStr "worldnews") ] |}.

Definition steady_random (n : nat) : number := Num.dec 5 10.

Definition worldnews_only (name : string) : result JsVal :=
  if String.eqb name "worldnews"
  then Ok (reddit_listing [ quake_post; undated_post; quake_post ])
  else Throw (Rejection (VObj [ ("message", VStr "timeout of 8000ms exceeded") ])).

(** A deduplicated list in an order the ranking has to change: six
    incidents no two of which clash, of three tiers, one of them undated,
    and two of the same tier and date at different places. *)
Definition molucca_aftershock : Incident :=
  {| id := "usgs_us7000abcf";
     type := LStr "earthquake";
     title := VStr "M 5.5 - Molucca Sea";
     location := VStr "Molucca Sea";
     lat := VNum (Num.dec 15 10);
     lng := VNum (Num.of_Z 126);
     severity := LStr "high";
     magnitude := VNum (Num.dec 55 10);
     time := VStr "2024-05-01T00:00:00.000Z";
     source := "USGS Earthquake Hazards";
     url := VStr "https://earthquake.usgs.gov/earthquakes/eventpage/us7000abcf";
     extra := [] |}.

Definition unranked_incidents : list Incident :=
  [ half_degree_report; undated_alert; equator_incident; fiji_incident;
    molucca_aftershock; wildfire_incident ].

(** * Properties *)

(** ** Numbers *)

Lemma abs_binary_round (s s' : bool) (m : positive) (e : Z) :
  SFabs (binary_round Num.prec Num.emax s m e)
  = SFabs (binary_round Num.prec Num.emax s' m e).
Proof.
  unfold binary_round, binary_round_aux.
  destruct (shl_align _ _ _) as [mz ez].
  destruct (shr_fexp _ _ _ _ _) as [mrs e1].
  destruct (shr_fexp _ _ _ _ _) as [mrs' e2].
  destruct (shr_m mrs'); [reflexivity | | reflexivity].
  destruct (Z.leb _ _); reflexivity.
Qed.

Lemma abs_binary_normalize_opp (z e : Z) :
  SFabs (binary_normalize Num.prec Num.emax (- z) e false)
  = SFabs (binary_normalize Num.prec Num.emax z e false).
Proof.
  destruct z; simpl; [reflexivity | | ]; apply abs_binary_round.
Qed.

(** [Math.abs(a - b)] and [Math.abs(b - a)] are the same Number. *)
Lemma abs_sub_sym (a b : number) :
  Num.abs (Num.sub a b) = Num.abs (Num.sub b a).
Proof.
  unfold Num.abs, Num.sub.
  destruct a as [sa | sa | | sa ma ea], b as [sb | sb | | sb mb eb];
    try reflexivity;
    try (destruct sa, sb; reflexivity);
    try (destruct sa; reflexivity);
    try (destruct sb; reflexivity).
  cbn [SFsub].
  rewrite (Z.min_comm eb ea).
  rewrite <- abs_binary_normalize_opp.
  f_equal. f_equal. lia.
Qed.

(** ** Lists *)

Lemma ForallOrdPairs_lookup {A : Type} (R : A -> A -> Prop) (l : list A) :
  ForallOrdPairs R l ->
  forall i j x y, (i < j)%nat -> l !! i = Some x -> l !! j = Some y -> R x y.
Proof.
  induction 1 as [| a l Ha Hl IH]; intros i j x y Hij Hi Hj.
  - destruct i; discriminate.
  - destruct j as [| j]; [lia |].
    destruct i as [| i]; simpl in *.
    + injection Hi as <-.
      rewrite List.Forall_forall in Ha. apply Ha.
      apply list_elem_of_In. eapply list_elem_of_lookup_2. exact Hj.
    + apply (IH i j); [lia | assumption | assumption].
Qed.

(** ** Deduplicator *)

Section DedupFacts.

Context (rt : Runtime).

Lemma label_eqb_sym (a b : Label) : label_eqb a b = label_eqb b a.
Proof.
  destruct a, b; simpl; try reflexivity; apply String.eqb_sym.
Qed.

Lemma clash_sym (s inc : Incident) : clash rt s inc = clash rt inc s.
Proof.
  unfold clash.
  rewrite (label_eqb_sym (type s)).
  rewrite (abs_sub_sym (ToNumber rt (lat s))).
  rewrite (abs_sub_sym (ToNumber rt (lng s))).
  reflexivity.
Qed.

(** [seen.find(p)] finds nothing exactly when [p] holds of no element. *)
Lemma find_none_existsb {A : Type} (p : A -> bool) (l : list A) :
  List.find p l = None <-> List.existsb p l = false.
Proof.
  induction l as [| a l IH]; simpl; [tauto |].
  destruct (p a); simpl; [split; discriminate | exact IH].
Qed.

Lemma dedup_step_keep (seen : list Incident) (inc : Incident) :
  dedup_step rt seen inc
  = if List.existsb (fun s => clash rt s inc) seen
    then (false, seen) else (true, seen ++ [inc]).
Proof.
  unfold dedup_step.
  destruct (List.existsb _ seen) eqn:E.
  - destruct (List.find _ seen) eqn:F; [reflexivity |].
    apply find_none_existsb in F. congruence.
  - apply find_none_existsb in E. rewrite E. reflexivity.
Qed.

Lemma clash_free_snoc (l : list Incident) (inc : Incident) :
  clash_free rt l ->
  List.existsb (fun s => clash rt s inc) l = false ->
  clash_free rt (l ++ [inc]).
Proof.
  unfold clash_free.
  induction 1 as [| a l Ha Hl IH]; intros E; simpl in *.
  - repeat constructor.
  - apply orb_false_iff in E as [E1 E2].
    constructor; [| auto].
    apply List.Forall_app. split; [exact Ha | constructor; [exact E1 | constructor]].
Qed.

(** The array [seen] only grows by the incidents that are kept, and stays
    free of clashes. *)
Lemma dedup_from_clash_free (incidents seen : list Incident) :
  clash_free rt seen -> clash_free rt (seen ++ dedup_from rt seen incidents).
Proof.
  revert seen.
  induction incidents as [| inc rest IH]; intros seen Hs; simpl.
  - rewrite app_nil_r. exact Hs.
  - rewrite dedup_step_keep.
    destruct (List.existsb _ seen) eqn:E.
    + apply IH, Hs.
    + change (inc :: dedup_from rt (seen ++ [inc]) rest)
        with ([inc] ++ dedup_from rt (seen ++ [inc]) rest).
      rewrite app_assoc. apply IH. apply clash_free_snoc; assumption.
Qed.

Lemma clash_free_lookup (l : list Incident) :
  clash_free rt l ->
  forall i j x y, (i < j)%nat -> l !! i = Some x -> l !! j = Some y ->
    clash rt x y = false.
Proof. apply ForallOrdPairs_lookup. Qed.

(** The callback's answer on the incident that follows a prefix depends on
    the prefix only. *)
Lemma dedup_from_snoc (pre seen : list Incident) (inc : Incident) :
  dedup_from rt seen (pre ++ [inc])
  = dedup_from rt seen pre
    ++ (if List.existsb (fun s => clash rt s inc) (seen ++ dedup_from rt seen pre)
        then [] else [inc]).
Proof.
  revert seen.
  induction pre as [| a pre IH]; intros seen; simpl.
  - rewrite dedup_step_keep, app_nil_r.
    destruct (List.existsb _ seen); reflexivity.
  - rewrite dedup_step_keep.
    destruct (List.existsb (fun s => clash rt s a) seen) eqn:E.
    + apply IH.
    + rewrite IH. simpl. rewrite <- app_assoc. reflexivity.
Qed.

Lemma dedup_from_app (pre post seen : list Incident) :
  dedup_from rt seen (pre ++ post)
  = dedup_from rt seen pre
    ++ dedup_from rt (seen ++ dedup_from rt seen pre) post.
Proof.
  revert seen.
  induction pre as [| a pre IH]; intros seen; simpl.
  - rewrite app_nil_r. reflexivity.
  - rewrite dedup_step_keep.
    destruct (List.existsb (fun s => clash rt s a) seen) eqn:E.
    + apply IH.
    + rewrite IH. simpl. rewrite <- app_assoc. reflexivity.
Qed.

Lemma clash_free_middle (l1 l2 : list Incident) (inc : Incident) :
  clash_free rt (l1 ++ inc :: l2) ->
  List.existsb (fun s => clash rt s inc) l1 = false.
Proof.
  unfold clash_free. induction l1 as [| a l1 IH]; intros H; [reflexivity |].
  simpl in H. inversion H as [| a' l' Ha Hl]; subst.
  simpl. rewrite (IH Hl), orb_false_r.
  rewrite List.Forall_forall in Ha. apply Ha.
  apply in_or_app. right. left. reflexivity.
Qed.

(** A list that is already free of clashes is kept whole. *)
Lemma dedup_from_fixed (incidents seen : list Incident) :
  clash_free rt (seen ++ incidents) -> dedup_from rt seen incidents = incidents.
Proof.
  revert seen.
  induction incidents as [| inc rest IH]; intros seen H; [reflexivity |].
  simpl. rewrite dedup_step_keep, (clash_free_middle seen rest inc H).
  f_equal. apply IH. rewrite <- app_assoc. exact H.
Qed.

(** Deduplicating twice changes nothing more. *)
Lemma deduplicateIncidents_idempotent (incidents : list Incident) :
  deduplicateIncidents rt (deduplicateIncidents rt incidents)
  = deduplicateIncidents rt incidents.
Proof.
  unfold deduplicateIncidents. apply dedup_from_fixed. simpl.
  apply (dedup_from_clash_free incidents []). constructor.
Qed.

Lemma dedup_from_sublist (incidents seen : list Incident) :
  dedup_from rt seen incidents `sublist_of` incidents.
Proof.
  revert seen.
  induction incidents as [| inc rest IH]; intros seen; simpl.
  - constructor.
  - destruct (dedup_step rt seen inc) as [[|] seen'].
    + apply sublist_skip, IH.
    + apply sublist_cons, IH.
Qed.

End DedupFacts.

(** The second report of a flood is dropped, the first one stands; a
    report exactly half a degree away is a different event. *)
Example dedup_sample :
  deduplicateIncidents example_runtime
    [ undated_alert; nearby_report; half_degree_report; nearby_report ]
  = [ undated_alert; half_degree_report ].
Proof. vm_compute. reflexivity. Qed.

(** C1. The deduplicated list holds no two incidents that clash (same
    [type], latitudes less than 0.5 apart and longitudes less than 0.5
    apart, as the code computes the differences), in either order.  It is
    built first-seen-wins: the incident that follows a prefix of the input
    is kept exactly when it clashes with none of the incidents kept from
    that prefix, and what was kept from the prefix is not revisited.  The
    output is a sub-list of the input: kept incidents are the input's own
    records, unchanged and in input order. *)
Theorem C1_deduplicate_first_seen_wins (rt : Runtime) (incidents : list Incident) :
  let out := deduplicateIncidents rt incidents in
  (forall i j x y, i <> j -> out !! i = Some x -> out !! j = Some y ->
     clash rt x y = false)
  /\ (forall pre inc post, incidents = pre ++ inc :: post ->
        let kept := deduplicateIncidents rt pre in
        exists later,
          later `sublist_of` post /\
          out = kept
                ++ (if List.existsb (fun s => clash rt s inc) kept
                    then [] else [inc])
                ++ later)
  /\ out `sublist_of` incidents.
Proof.
  intros out. split; [| split].
  - assert (Hfree : clash_free rt out).
    { apply (dedup_from_clash_free rt incidents []). constructor. }
    intros i j x y Hij Hi Hj.
    destruct (Nat.lt_total i j) as [Hlt | [Heq | Hgt]]; [| contradiction |].
    + exact (clash_free_lookup rt out Hfree i j x y Hlt Hi Hj).
    + rewrite clash_sym.
      exact (clash_free_lookup rt out Hfree j i y x Hgt Hj Hi).
  - intros pre inc post -> kept.
    subst out. unfold deduplicateIncidents.
    change (pre ++ inc :: post) with (pre ++ [inc] ++ post).
    rewrite app_assoc, dedup_from_app, dedup_from_snoc. simpl.
    rewrite <- app_assoc. eexists. split; [apply dedup_from_sublist | reflexivity].
  - apply dedup_from_sublist.
Qed.

(** ** Sorting *)

Lemma key_before_irrefl (k1 k2 : Z * Z) :
  key_before k1 k2 = true -> key_eqb k1 k2 = false.
Proof. unfold key_before, key_eqb. lia. Qed.

Lemma key_before_trans_l (k1 k2 k3 : Z * Z) :
  key_before k2 k1 = false -> key_before k3 k2 = false ->
  key_before k3 k1 = false.
Proof. unfold key_before. lia. Qed.

Lemma key_before_weaken (k1 k2 : Z * Z) :
  key_before k1 k2 = true -> key_before k2 k1 = false.
Proof. unfold key_before. lia. Qed.

Lemma key_eqb_eq (k1 k2 : Z * Z) : key_eqb k1 k2 = true <-> k1 = k2.
Proof.
  destruct k1, k2. unfold key_eqb. simpl. split.
  - intros H. f_equal; lia.
  - intros [= -> ->]. lia.
Qed.

Section StableSort.

Context {A : Type} (key : A -> Z * Z) (P : A -> Prop).
Context (cmp : A -> A -> option Z).

(** On the elements satisfying [P] the comparator is positive exactly when
    its second argument must stand before its first. *)
Hypothesis cmp_key : forall a b, P a -> P b ->
  positive_result (cmp a b) = key_before (key b) (key a).

Lemma sort_insert_perm (x : A) (l : list A) :
  Permutation (x :: l) (sort_insert cmp x l).
Proof.
  induction l as [| y l IH]; simpl; [reflexivity |].
  destruct (positive_result (cmp x y)); [| reflexivity].
  rewrite perm_swap. apply perm_skip, IH.
Qed.

Lemma Array_sort_perm (l : list A) : Permutation l (Array_sort cmp l).
Proof.
  induction l as [| x l IH]; simpl; [reflexivity |].
  rewrite <- sort_insert_perm. apply perm_skip, IH.
Qed.

Lemma Array_sort_Forall (l : list A) : Forall P l -> Forall P (Array_sort cmp l).
Proof. intros H. rewrite <- (Array_sort_perm l). exact H. Qed.

Lemma sort_insert_ordered (x : A) (l : list A) :
  P x -> Forall P l ->
  ForallOrdPairs (in_order key) l -> ForallOrdPairs (in_order key) (sort_insert cmp x l).
Proof.
  intros Px Pl Hl. induction Hl as [| y l Hy Hl IH]; simpl.
  - repeat constructor.
  - apply Forall_cons_1 in Pl as [Py Pl].
    rewrite (cmp_key x y Px Py).
    destruct (key_before (key y) (key x)) eqn:E.
    + constructor; [| apply IH, Pl].
      rewrite <- (sort_insert_perm x l). constructor; [| exact Hy].
      apply key_before_weaken, E.
    + constructor; [| constructor; assumption].
      constructor; [exact E |].
      eapply List.Forall_impl; [| exact Hy].
      intros z Hz. unfold in_order in *.
      eapply key_before_trans_l; eassumption.
Qed.

Lemma Array_sort_ordered (l : list A) :
  Forall P l -> ForallOrdPairs (in_order key) (Array_sort cmp l).
Proof.
  induction l as [| x l IH]; intros Pl; simpl; [constructor |].
  apply Forall_cons_1 in Pl as [Px Pl].
  apply sort_insert_ordered; [exact Px | apply Array_sort_Forall, Pl | apply IH, Pl].
Qed.

(** Insertion moves [x] past elements of other keys only. *)
Lemma sort_insert_filter (z x : A) (l : list A) :
  P x -> Forall P l ->
  List.filter (same_key key z) (sort_insert cmp x l)
  = List.filter (same_key key z) (x :: l).
Proof.
  intros Px Pl. induction l as [| y l IH]; [reflexivity |].
  apply Forall_cons_1 in Pl as [Py Pl]. specialize (IH Pl).
  cbn [sort_insert]. rewrite (cmp_key x y Px Py).
  destruct (key_before (key y) (key x)) eqn:E; [| reflexivity].
  apply key_before_irrefl in E.
  cbn [List.filter] in *. rewrite IH.
  destruct (same_key key z x) eqn:Ex, (same_key key z y) eqn:Ey; try reflexivity.
  exfalso. unfold same_key in *.
  apply key_eqb_eq in Ex, Ey. rewrite <- Ex, <- Ey in E.
  assert (key_eqb (key z) (key z) = true) by (apply key_eqb_eq; reflexivity).
  congruence.
Qed.

(** Stability: the elements of one key keep their input order. *)
Lemma Array_sort_stable (z : A) (l : list A) :
  Forall P l ->
  List.filter (same_key key z) (Array_sort cmp l) = List.filter (same_key key z) l.
Proof.
  induction l as [| x l IH]; intros Pl; [reflexivity |].
  apply Forall_cons_1 in Pl as [Px Pl].
  cbn [Array_sort]. rewrite sort_insert_filter by (auto using Array_sort_Forall).
  cbn [List.filter]. rewrite (IH Pl). reflexivity.
Qed.

(** Two orderings of the same elements that are both sorted and both keep
    equal-keyed elements in the same order are the same list: the order a
    stable sort returns does not depend on how it sorts. *)
Lemma sorted_stable_unique (l1 l2 : list A) :
  ForallOrdPairs (in_order key) l1 -> ForallOrdPairs (in_order key) l2 ->
  (forall z, List.filter (same_key key z) l1 = List.filter (same_key key z) l2) ->
  l1 = l2.
Proof.
  intros H1. revert l2.
  induction H1 as [| x l1 Hx H1 IH]; intros l2 H2 Hf.
  - destruct l2 as [| y l2]; [reflexivity |].
    specialize (Hf y). cbn in Hf. unfold same_key in Hf.
    replace (key_eqb (key y) (key y)) with true in Hf
      by (symmetry; apply key_eqb_eq; reflexivity).
    discriminate.
  - destruct H2 as [| y l2 Hy H2].
    + specialize (Hf x). cbn in Hf. unfold same_key in Hf.
      replace (key_eqb (key x) (key x)) with true in Hf
        by (symmetry; apply key_eqb_eq; reflexivity).
      discriminate.
    + assert (Hxx : same_key key x x = true) by (apply key_eqb_eq; reflexivity).
      assert (Hyy : same_key key y y = true) by (apply key_eqb_eq; reflexivity).
      assert (Hxy : key x = key y).
      { (* [y] occurs in [x :: l1] and [x] in [y :: l2] *)
        pose proof (Hf x) as Fx. pose proof (Hf y) as Fy.
        cbn [List.filter] in Fx, Fy. rewrite Hxx in Fx. rewrite Hyy in Fy.
        destruct (same_key key x y) eqn:Exy; [apply key_eqb_eq, Exy |].
        assert (In x l2).
        { assert (In x (List.filter (same_key key x) l2))
            by (rewrite <- Fx; left; reflexivity).
          apply List.filter_In in H. tauto. }
        assert (In y l1).
        { destruct (same_key key y x) eqn:Eyx.
          - apply key_eqb_eq in Eyx. unfold same_key in Exy.
            rewrite Eyx in Exy.
            replace (key_eqb (key x) (key x)) with true in Exy
              by (symmetry; apply key_eqb_eq; reflexivity).
            discriminate.
          - assert (In y (List.filter (same_key key y) l1))
              by (rewrite Fy; left; reflexivity).
            apply List.filter_In in H0. tauto. }
        rewrite List.Forall_forall in Hx, Hy.
        specialize (Hx y H0). specialize (Hy x H).
        unfold in_order, same_key, key_before, key_eqb in *.
        destruct (key x), (key y). simpl in *. f_equal; lia. }
      assert (x = y).
      { specialize (Hf x). cbn [List.filter] in Hf. rewrite Hxx in Hf.
        unfold same_key in Hf at 2. rewrite Hxy in Hf.
        replace (key_eqb (key y) (key y)) with true in Hf
          by (symmetry; apply key_eqb_eq; reflexivity).
        congruence. }
      subst y. f_equal. apply IH; [exact H2 |].
      intros z. specialize (Hf z). cbn [List.filter] in Hf.
      destruct (same_key key z x); congruence.
Qed.

End StableSort.

(** ** Ranking *)

Section RankFacts.

Context (rt : Runtime).

Lemma compare_incidents_key (a b : Incident) :
  well_keyed rt a -> well_keyed rt b ->
  positive_result (compare_incidents rt a b)
  = key_before (rank_key rt b) (rank_key rt a).
Proof.
  intros [[ta Ha] [ma Ha']] [[tb Hb] [mb Hb']].
  unfold compare_incidents, rank_key, key_before.
  rewrite Ha, Ha', Hb, Hb'. simpl.
  destruct (Z.eqb_spec (ta - tb) 0) as [E | E]; simpl; lia.
Qed.

(** Whatever stable sort the engine runs, it returns this order. *)
Lemma rank_unique (l l' : list Incident) :
  Forall (well_keyed rt) l ->
  ForallOrdPairs (in_order (rank_key rt)) l' ->
  (forall z, List.filter (same_rank rt z) l' = List.filter (same_rank rt z) l) ->
  l' = rank rt l.
Proof.
  intros Hl Hs Hf.
  apply (sorted_stable_unique (rank_key rt)); [exact Hs | |].
  - apply (Array_sort_ordered (rank_key rt) (well_keyed rt)
             (compare_incidents rt) compare_incidents_key l Hl).
  - intros z. transitivity (List.filter (same_rank rt z) l); [apply Hf |].
    symmetry.
    apply (Array_sort_stable (rank_key rt) (well_keyed rt)
             (compare_incidents rt) compare_incidents_key z l Hl).
Qed.

Lemma tier_unrecognized (s : string) :
  assoc s sevOrder = None -> inherited s = false -> tier (LStr s) = Some 3%Z.
Proof. intros H1 H2. unfold tier. rewrite H1, H2. reflexivity. Qed.

Lemma time_value_absent (i : Incident) :
  truthy (time i) = false -> time_value rt i = Some 0%Z.
Proof.
  intros H. unfold time_value, js_or. rewrite H. reflexivity.
Qed.

End RankFacts.

Example rank_sample :
  rank example_runtime
    [ half_degree_report; undated_alert; wildfire_incident; nearby_report ]
  = [ nearby_report; wildfire_incident; undated_alert; half_degree_report ].
Proof. vm_compute. reflexivity. Qed.

(** C2, as stated, fails.  Two incidents of severity [high], one with no
    time and one dated a second before the epoch: on an engine that reads
    that date as -1000 ms the ranking puts the undated incident first,
    while an absent time that were the oldest possible would put it
    last. *)
Lemma C2_absent_time_is_not_oldest :
  exists l : list Incident, forall rt : Runtime,
    Date_parse rt "1969-12-31T23:59:59.000Z" = Some (-1000)%Z ->
    Forall (well_keyed rt) l
    /\ rank rt l = [undated_alert; old_disaster]
    /\ ~ spec_ranked rt (rank rt l).
Proof.
  exists [old_disaster; undated_alert]. intros rt Hd.
  assert (Hr : rank rt [old_disaster; undated_alert]
               = [undated_alert; old_disaster]).
  { unfold rank. cbn [Array_sort sort_insert].
    unfold compare_incidents, time_value. cbn. rewrite Hd. reflexivity. }
  split; [| split; [exact Hr |]].
  - repeat constructor; unfold time_value; cbn; try rewrite Hd; eauto.
  - rewrite Hr. intros H.
    destruct (H 0%nat 1%nat undated_alert old_disaster) as (ta & tb & Ha & Hb & Hc);
      [lia | reflexivity | reflexivity |].
    cbn in Ha, Hb. injection Ha as <-. injection Hb as <-.
    destruct Hc as [Hc | [_ Hc]]; [lia | exact Hc].
Qed.

(** C2, amended.  On a list whose incidents all have a severity with a tier
    and a time that is absent or a valid date, the ranking returns the same
    incidents sorted by tier ascending ([critical] 0, [high] 1, [moderate]
    2, [low] 3, any other severity that is not a member name of
    [Object.prototype] 3) and, within a tier, by time value descending, an
    absent (null, undefined or empty) time counting as the epoch, time
    value 0; incidents of equal tier and equal time value keep their input
    order.  No other arrangement of the list is so ordered and stable, so
    the result does not depend on how the engine sorts. *)
Theorem C2_rank_sorted_stable (rt : Runtime) (l : list Incident) :
  Forall (well_keyed rt) l ->
  let out := rank rt l in
  Permutation l out
  /\ (forall i j a b, (i < j)%nat -> out !! i = Some a -> out !! j = Some b ->
        exists ta tb ma mb,
          tier (severity a) = Some ta /\ tier (severity b) = Some tb
          /\ time_value rt a = Some ma /\ time_value rt b = Some mb
          /\ ((ta < tb)%Z \/ (ta = tb /\ (mb <= ma)%Z)))
  /\ (forall z, List.filter (same_rank rt z) out = List.filter (same_rank rt z) l)
  /\ (forall l', ForallOrdPairs (in_order (rank_key rt)) l' ->
        (forall z, List.filter (same_rank rt z) l'
                   = List.filter (same_rank rt z) l) ->
        l' = out)
  /\ (tier (LStr "critical") = Some 0%Z /\ tier (LStr "high") = Some 1%Z
      /\ tier (LStr "moderate") = Some 2%Z /\ tier (LStr "low") = Some 3%Z
      /\ (forall s, assoc s sevOrder = None -> inherited s = false ->
            tier (LStr s) = Some 3%Z)
      /\ (forall k, tier (LBuiltin k) = Some 3%Z))
  /\ (forall i, truthy (time i) = false -> time_value rt i = Some 0%Z).
Proof.
  intros Hl out.
  pose proof (compare_incidents_key rt) as Hk.
  split; [apply Array_sort_perm |].
  split.
  - intros i j a b Hij Hi Hj.
    pose proof (Array_sort_ordered (rank_key rt) (well_keyed rt)
                  (compare_incidents rt) Hk l Hl) as Hs.
    pose proof (ForallOrdPairs_lookup _ _ Hs i j a b Hij Hi Hj) as Hab.
    pose proof (Array_sort_Forall (well_keyed rt) (compare_incidents rt) l Hl) as Hw.
    rewrite List.Forall_forall in Hw.
    destruct (Hw a) as [[ta Ha] [ma Ha']].
    { apply list_elem_of_In. eapply list_elem_of_lookup_2. exact Hi. }
    destruct (Hw b) as [[tb Hb] [mb Hb']].
    { apply list_elem_of_In. eapply list_elem_of_lookup_2. exact Hj. }
    exists ta, tb, ma, mb. repeat (split; [assumption |]).
    unfold in_order, rank_key, key_before in Hab.
    rewrite Ha, Ha', Hb, Hb' in Hab. simpl in Hab. lia.
  - split.
    + intros z.
      apply (Array_sort_stable (rank_key rt) (well_keyed rt)
               (compare_incidents rt) Hk z l Hl).
    + split; [intros l' Hs Hf; apply rank_unique; assumption |].
      split.
      * repeat split; try reflexivity. apply tier_unrecognized.
      * apply time_value_absent.
Qed.

Lemma C2_rank_sorted_stable_witness :
  Forall (well_keyed example_runtime) unranked_incidents
  /\ deduplicateIncidents example_runtime unranked_incidents
     = unranked_incidents
  /\ rank example_runtime unranked_incidents
     = [ fiji_incident; wildfire_incident; equator_incident;
         molucca_aftershock; undated_alert; half_degree_report ]
  /\ Permutation unranked_incidents (rank example_runtime unranked_incidents)
  /\ (forall i j a b, (i < j)%nat ->
        rank example_runtime unranked_incidents !! i = Some a ->
        rank example_runtime unranked_incidents !! j = Some b ->
        exists ta tb ma mb,
          tier (severity a) = Some ta /\ tier (severity b) = Some tb
          /\ time_value example_runtime a = Some ma
          /\ time_value example_runtime b = Some mb
          /\ ((ta < tb)%Z \/ (ta = tb /\ (mb <= ma)%Z)))
  /\ List.filter (same_rank example_runtime equator_incident)
       (rank example_runtime unranked_incidents)
     = [ equator_incident; molucca_aftershock ]
  /\ forall l',
       ForallOrdPairs (in_order (rank_key example_runtime)) l' ->
       (forall z, List.filter (same_rank example_runtime z) l'
                  = List.filter (same_rank example_runtime z)
                      unranked_incidents) ->
       l' = rank example_runtime unranked_incidents.
Proof.
  assert (H : Forall (well_keyed example_runtime) unranked_incidents).
  { repeat constructor; cbn; eauto. }
  pose proof (C2_rank_sorted_stable example_runtime unranked_incidents H) as HC.
  cbv zeta in HC. destruct HC as (Hp & Ho & Hs & Hu & _).
  split; [exact H |].
  split; [vm_compute; reflexivity |].
  split; [vm_compute; reflexivity |].
  split; [exact Hp |].
  split; [exact Ho |].
  split; [rewrite Hs; vm_compute; reflexivity | exact Hu].
Defined.

(** ** Aggregator *)

Lemma collect_entry (combined : list Incident)
  (status : gmap string SourceStatus) (name : string) (r : Settled) :
  collect (combined, status) (name, r)
  = (combined ++ contribution r, <[ name := report r ]> status).
Proof. destruct r; simpl; [reflexivity | rewrite app_nil_r; reflexivity]. Qed.

Lemma collect_all_eq (results : Settlements) :
  collect_all results
  = (contribution (usgs results) ++ contribution (nasa results)
       ++ contribution (gdacs results) ++ contribution (reliefweb results)
       ++ contribution (reddit results),
     <[ "Reddit" := report (reddit results) ]>
       (<[ "ReliefWeb" := report (reliefweb results) ]>
          (<[ "GDACS" := report (gdacs results) ]>
             (<[ "NASA EONET" := report (nasa results) ]>
                (<[ "USGS" := report (usgs results) ]> ∅))))).
Proof.
  unfold collect_all, settled_list, sourceNames.
  cbn [combine List.fold_left].
  rewrite !collect_entry. cbn [app]. rewrite <- !app_assoc. reflexivity.
Qed.

(** A run in which GDACS times out: its status carries the message, the
    others are counted, and their incidents are all there, ranked. *)
Example aggregate_sample :
  let r := aggregateAllSources example_runtime (results later_run)
             (fetched_now later_run) in
  incidents r = [ wildfire_incident; equator_incident ]
  /\ sourceStatus r !! "USGS" = Some (StatusOk 1)
  /\ sourceStatus r !! "NASA EONET" = Some (StatusOk 1)
  /\ sourceStatus r !! "GDACS"
     = Some (StatusFailed (VStr "timeout of 10000ms exceeded"))
  /\ sourceStatus r !! "Reddit" = Some (StatusOk 0)
  /\ fetchedAt r = "2024-05-02T00:00:00.000Z".
Proof. vm_compute. repeat split; reflexivity. Qed.

(** C3.  Given the five settled adapter outcomes, the aggregator
    concatenates the incident lists of exactly the fulfilled ones in the
    order USGS, NASA EONET, GDACS, ReliefWeb, Reddit, a rejected adapter
    contributing nothing; every fulfilled adapter's list is part of the
    concatenation whatever the other adapters did; the result's incidents
    are that concatenation deduplicated and ranked; and [sourceStatus] has
    exactly the five source names, each mapped to [{ok: true, count}] with
    the length of its list, or to [{ok: false, error}] with the message of
    the rejection reason. *)
Theorem C3_aggregate_settled_sources (rt : Runtime) (results : Settlements)
  (now : Z) :
  let combined :=
    contribution (usgs results) ++ contribution (nasa results)
      ++ contribution (gdacs results) ++ contribution (reliefweb results)
      ++ contribution (reddit results) in
  let r := aggregateAllSources rt results now in
  fst (collect_all results) = combined
  /\ incidents r = rank rt (deduplicateIncidents rt combined)
  /\ (forall s value, In s (settled_list results) -> s = Fulfilled value ->
        value `sublist_of` combined)
  /\ sourceStatus r !! "USGS" = Some (report (usgs results))
  /\ sourceStatus r !! "NASA EONET" = Some (report (nasa results))
  /\ sourceStatus r !! "GDACS" = Some (report (gdacs results))
  /\ sourceStatus r !! "ReliefWeb" = Some (report (reliefweb results))
  /\ sourceStatus r !! "Reddit" = Some (report (reddit results))
  /\ (forall name, ~ In name sourceNames -> sourceStatus r !! name = None)
  /\ (forall value, report (Fulfilled value) = StatusOk (length value))
  /\ (forall reason,
        report (Rejected reason) = StatusFailed (prop_opt reason "message")).
Proof.
  intros combined r. subst r. unfold aggregateAllSources.
  rewrite collect_all_eq. cbn [fst incidents sourceStatus].
  split; [reflexivity |]. split; [reflexivity |].
  split.
  { intros s value Hs ->. subst combined. simpl in Hs.
    destruct Hs as [H | [H | [H | [H | [H | []]]]]]; rewrite H; simpl.
    - apply sublist_inserts_r. reflexivity.
    - apply sublist_inserts_l, sublist_inserts_r. reflexivity.
    - do 2 apply sublist_inserts_l. apply sublist_inserts_r. reflexivity.
    - do 3 apply sublist_inserts_l. apply sublist_inserts_r. reflexivity.
    - do 4 apply sublist_inserts_l. reflexivity. }
  repeat split; try (by simplify_map_eq).
  intros name Hn. simpl in Hn.
  rewrite !lookup_insert_ne by (intros <-; apply Hn; tauto).
  apply lookup_empty.
Qed.

(** ** Cache and routes *)

Section RouteFacts.

Context (rt : Runtime).

Lemma fresh_some (cache : Cache) (now : Z) (r : AggregationResult) (t : Z) :
  data cache = Some r -> timestamp cache = Some t -> t <> 0%Z ->
  (now - t < CACHE_TTL_MS)%Z ->
  fresh cache now = Some r.
Proof.
  intros Hd Ht Hz Hlt. unfold fresh. rewrite Hd, Ht.
  destruct (Z.eqb_spec t 0); [contradiction |].
  destruct (Z.ltb_spec (now - t) CACHE_TTL_MS); [reflexivity | lia].
Qed.

Lemma fresh_none (cache : Cache) (now : Z) :
  fresh cache now = None <->
  data cache = None \/ timestamp cache = None \/ timestamp cache = Some 0%Z
  \/ exists t, timestamp cache = Some t /\ (CACHE_TTL_MS <= now - t)%Z.
Proof.
  unfold fresh.
  destruct (data cache) as [r |]; [| split; [left |]; reflexivity].
  destruct (timestamp cache) as [t |];
    [| split; [right; left |]; reflexivity].
  destruct (Z.eqb_spec t 0) as [-> | Hz]; simpl.
  { split; [right; right; left |]; reflexivity. }
  destruct (Z.ltb_spec (now - t) CACHE_TTL_MS) as [Hlt | Hge].
  - split; [discriminate |].
    intros [E | [E | [E | (t' & E & Hge)]]]; try discriminate.
    + injection E as ->. contradiction.
    + injection E as <-. lia.
  - split; [| reflexivity]. intros _. right. right. right. eauto.
Qed.

Lemma getAllIncidents_hit (cache : Cache) (now : Z) (run : Run)
  (r : AggregationResult) :
  fresh cache now = Some r ->
  getAllIncidents rt cache now run = (cache, {| body := r; fromCache := true |}).
Proof. intros H. unfold getAllIncidents. rewrite H. reflexivity. Qed.

Lemma getAllIncidents_miss (cache : Cache) (now : Z) (run : Run) :
  fresh cache now = None ->
  getAllIncidents rt cache now run
  = ({| data := Some (aggregateAllSources rt (results run) (fetched_now run));
        timestamp := Some (stored_now run) |},
     {| body := aggregateAllSources rt (results run) (fetched_now run);
        fromCache := false |}).
Proof. intros H. unfold getAllIncidents. rewrite H. reflexivity. Qed.

(** After any call the cache holds what the call returned. *)
Lemma getAllIncidents_cached (cache : Cache) (now : Z) (run : Run) :
  data (getAllIncidents rt cache now run).1
  = Some (body (getAllIncidents rt cache now run).2).
Proof.
  unfold getAllIncidents, fresh.
  destruct (data cache) as [r |] eqn:Hd; [| reflexivity].
  destruct (timestamp cache) as [t |]; [| reflexivity].
  destruct (_ && _); [exact Hd | reflexivity].
Qed.

Lemma fetchedAt_aggregate (results : Settlements) (now : Z) :
  fetchedAt (aggregateAllSources rt results now) = Date_toISOString rt now.
Proof.
  unfold aggregateAllSources. destruct (collect_all results). reflexivity.
Qed.

Lemma getAllIncidents_dated (cache : Cache) (now : Z) (run : Run) :
  cache_dated rt cache -> (fetched_now run <= stored_now run)%Z ->
  cache_dated rt (getAllIncidents rt cache now run).1.
Proof.
  intros Hc Hrun. unfold getAllIncidents.
  destruct (fresh cache now); [exact Hc |].
  intros r t [= <-] [= <-]. exists (fetched_now run).
  split; [apply fetchedAt_aggregate | exact Hrun].
Qed.

Lemma prewarm_dated (run : Run) :
  (fetched_now run <= stored_now run)%Z -> cache_dated rt (prewarm rt run).
Proof.
  intros Hrun r t [= <-] [= <-]. exists (fetched_now run).
  split; [apply fetchedAt_aggregate | exact Hrun].
Qed.

End RouteFacts.

(** C4.  [GET /api/incidents] with the clock reading [now].
    - When the cache holds a result and a timestamp [t] with
      [now - t < CACHE_TTL_MS] (three minutes), the stored result is
      returned as it is with [fromCache: true] and the cache is unchanged.
    - Otherwise (nothing stored, or [CACHE_TTL_MS <= now - t]) the pipeline
      runs, its result is stored with the timestamp read after the run and
      returned with [fromCache: false].
    - A second call made while the entry left by a first call is within the
      window returns the first call's result, flagged [fromCache: true].
    - A second call made once the window has elapsed recomputes, and on a
      clock that does not run backwards its [fetchedAt] is the print of a
      later instant than the first result's. *)
Theorem C4_cache_ttl (rt : Runtime) (cache : Cache) (now : Z) (run : Run) :
  CACHE_TTL_MS = 180000%Z
  /\ (forall r t, data cache = Some r -> timestamp cache = Some t -> t <> 0%Z ->
        (now - t < CACHE_TTL_MS)%Z ->
        getAllIncidents rt cache now run
        = (cache, {| body := r; fromCache := true |}))
  /\ (data cache = None \/ timestamp cache = None
      \/ (exists t, timestamp cache = Some t /\ (CACHE_TTL_MS <= now - t)%Z) ->
        getAllIncidents rt cache now run
        = ({| data := Some (aggregateAllSources rt (results run) (fetched_now run));
              timestamp := Some (stored_now run) |},
           {| body := aggregateAllSources rt (results run) (fetched_now run);
              fromCache := false |}))
  /\ (forall now2 run2 t1,
        let first := getAllIncidents rt cache now run in
        timestamp first.1 = Some t1 -> t1 <> 0%Z ->
        (now2 - t1 < CACHE_TTL_MS)%Z ->
        getAllIncidents rt first.1 now2 run2
        = (first.1, {| body := body first.2; fromCache := true |}))
  /\ (forall now2 run2 t1,
        let first := getAllIncidents rt cache now run in
        let second := getAllIncidents rt first.1 now2 run2 in
        cache_dated rt cache ->
        (fetched_now run <= stored_now run)%Z ->
        timestamp first.1 = Some t1 ->
        (CACHE_TTL_MS <= now2 - t1)%Z ->
        (now2 <= fetched_now run2)%Z ->
        fromCache second.2 = false
        /\ body second.2
           = aggregateAllSources rt (results run2) (fetched_now run2)
        /\ timestamp second.1 = Some (stored_now run2)
        /\ exists t0,
             fetchedAt (body first.2) = Date_toISOString rt t0
             /\ fetchedAt (body second.2)
                = Date_toISOString rt (fetched_now run2)
             /\ (t0 < fetched_now run2)%Z).
Proof.
  split; [reflexivity |].
  split.
  { intros r t Hd Ht Hz Hlt.
    apply getAllIncidents_hit, (fresh_some cache now r t); assumption. }
  split.
  { intros H. apply getAllIncidents_miss, fresh_none. tauto. }
  split.
  { intros now2 run2 t1 first Ht Hz Hlt.
    apply getAllIncidents_hit.
    apply (fresh_some first.1 now2 (body first.2) t1); try assumption.
    apply getAllIncidents_cached. }
  intros now2 run2 t1 first second Hc Hrun Ht Hge Hnow.
  assert (Hmiss : fresh first.1 now2 = None).
  { apply fresh_none. right. right. right. eauto. }
  subst second. rewrite (getAllIncidents_miss rt _ _ _ Hmiss). cbn.
  repeat (split; [reflexivity |]).
  pose proof (getAllIncidents_dated rt cache now run Hc Hrun) as Hd.
  destruct (Hd (body first.2) t1) as (t0 & Hf & Hle);
    [apply getAllIncidents_cached | exact Ht |].
  exists t0. split; [exact Hf |].
  split; [apply fetchedAt_aggregate |].
  unfold CACHE_TTL_MS in Hge. lia.
Qed.

(** C10.  [GET /api/incidents/:type] never reads the timestamp: whenever a
    result is cached, however old, the answer is the cached incidents
    filtered by type, and it is the same for every timestamp.  With nothing
    cached it filters the incidents of a pipeline run.  In both cases the
    cache is left as it was, so after a call on an empty cache the cache is
    still empty and the next [GET /api/incidents] runs the pipeline
    again. *)
Theorem C10_by_type_ignores_ttl (rt : Runtime) (cache : Cache)
  (type_param : string) (run : Run) :
  let answer := getIncidentsByType rt cache type_param run in
  answer.1 = cache
  /\ count answer.2 = length (filtered answer.2)
  /\ (forall r, data cache = Some r ->
        filtered answer.2 = List.filter (has_type type_param) (incidents r)
        /\ forall stamp,
             (getIncidentsByType rt {| data := Some r; timestamp := stamp |}
                type_param run).2 = answer.2)
  /\ (data cache = None ->
        filtered answer.2
        = List.filter (has_type type_param)
            (incidents (aggregateAllSources rt (results run) (fetched_now run)))
        /\ data answer.1 = None
        /\ forall now run',
             getAllIncidents rt answer.1 now run'
             = ({| data := Some (aggregateAllSources rt (results run')
                                   (fetched_now run'));
                   timestamp := Some (stored_now run') |},
                {| body := aggregateAllSources rt (results run')
                             (fetched_now run');
                   fromCache := false |})).
Proof.
  intros answer. subst answer. unfold getIncidentsByType. cbn [fst snd].
  split; [reflexivity |]. split; [reflexivity |].
  split.
  - intros r Hd. rewrite Hd. cbn. split; reflexivity.
  - intros Hd. rewrite Hd. cbn.
    split; [reflexivity |]. split; [reflexivity |].
    intros now run'. apply getAllIncidents_miss, fresh_none. tauto.
Qed.

(** C8.  With no client id configured ([REDDIT_CLIENT_ID] unset or empty)
    [fetchRedditPosts] returns the empty list and does not throw, whatever
    the token request and the subreddit requests would have met, and leaves
    the token session as it was.  The aggregator then reports Reddit as
    [{ok: true, count: 0}] and the combined list is that of the other four
    sources. *)
Theorem C8_reddit_without_credentials (rt : Runtime) (env : Env)
  (session : RedditSession) (now : Z) (post : result JsVal) (now_token : Z)
  (posts : list Incident) :
  env_truthy (REDDIT_CLIENT_ID env) = false ->
  fetchRedditPosts rt env session now post now_token posts = (Ok [], session)
  /\ forall results now',
       reddit results = Fulfilled [] ->
       sourceStatus (aggregateAllSources rt results now') !! "Reddit"
       = Some (StatusOk 0)
       /\ fst (collect_all results)
          = contribution (usgs results) ++ contribution (nasa results)
              ++ contribution (gdacs results) ++ contribution (reliefweb results).
Proof.
  intros H. split.
  - unfold fetchRedditPosts. rewrite H. reflexivity.
  - intros results now' Hr.
    unfold aggregateAllSources. rewrite collect_all_eq, Hr.
    cbn [fst sourceStatus contribution report length].
    rewrite app_nil_r. split; [by simplify_map_eq | reflexivity].
Qed.

(** ** USGS adapter *)

Lemma tenths_nearest (m : positive) (e : Z) :
  nearest_tenth m e (Num.tenths m e) /\ (0 <= Num.tenths m e)%Z.
Proof.
  unfold nearest_tenth, Num.tenths. destruct e as [| p | k].
  - split; [reflexivity | lia].
  - split; [reflexivity |].
    assert (0 < 2 ^ Z.pos p)%Z by (apply Z.pow_pos_nonneg; lia). nia.
  - assert (Hk : (0 < 2 ^ Z.pos k)%Z) by (apply Z.pow_pos_nonneg; lia).
    assert (Hs : (2 ^ (Z.pos k + 1) = 2 * 2 ^ Z.pos k)%Z)
      by (rewrite Z.pow_add_r by lia; lia).
    rewrite Hs.
    pose proof (Z.div_mod (20 * Z.pos m + 2 ^ Z.pos k) (2 * 2 ^ Z.pos k)
                  ltac:(lia)) as Hd.
    pose proof (Z.mod_pos_bound (20 * Z.pos m + 2 ^ Z.pos k) (2 * 2 ^ Z.pos k)
                  ltac:(lia)) as Hm.
    set (q := ((20 * Z.pos m + 2 ^ Z.pos k) / (2 * 2 ^ Z.pos k))%Z) in *.
    set (r := ((20 * Z.pos m + 2 ^ Z.pos k) mod (2 * 2 ^ Z.pos k))%Z) in *.
    split; [lia |].
    apply Z.div_pos; lia.
Qed.

Section UsgsFacts.

Context (rt : Runtime).

(** What a feature that normalises without throwing looks like. *)
Lemma usgs_feature_ok (f : JsVal) (i : Incident) :
  usgs_feature rt f = Ok i ->
  exists m,
    prop (prop f "properties") "mag" = VNum m
    /\ type i = LStr "earthquake"
    /\ severity i = LStr (usgs_severity rt (VNum m))
    /\ magnitude i = VNum (Num.toFixed1 m)
    /\ lat i = at_idx (prop (prop f "geometry") "coordinates") 1
    /\ lng i = at_idx (prop (prop f "geometry") "coordinates") 0.
Proof.
  unfold usgs_feature, get, get_idx, as_number, toISOString.
  destruct (nullish f); [discriminate |]. cbn.
  destruct (nullish (prop f "properties")); [discriminate |]. cbn.
  destruct (nullish (prop f "geometry")); [discriminate |]. cbn.
  destruct (nullish (prop (prop f "geometry") "coordinates")); [discriminate |].
  cbn.
  destruct (prop (prop f "properties") "mag") as [| | | m | | |];
    try discriminate. cbn.
  destruct (date_of rt _); [| discriminate]. cbn.
  destruct (at_idx _ 2); try discriminate. cbn.
  intros [= <-]. exists m. cbn. repeat split.
Qed.

Lemma mapM_result_In {A B : Type} (f : A -> result B) (l : list A) (k : list B) :
  mapM f l = Ok k -> forall b, In b k -> exists a, In a l /\ f a = Ok b.
Proof.
  revert k. induction l as [| a l IH]; intros k H b Hb.
  - injection H as <-. destruct Hb.
  - cbn in H. destruct (f a) as [b0 |] eqn:Ea; [| discriminate].
    cbn in H. destruct (mapM f l) as [k0 |]; [| discriminate].
    cbn in H. injection H as <-.
    destruct Hb as [<- | Hb].
    + exists a. split; [left; reflexivity | exact Ea].
    + destruct (IH k0 eq_refl b Hb) as (a' & Ha' & Hf).
      exists a'. split; [right; exact Ha' | exact Hf].
Qed.

Lemma fetchUSGS_ok (data : JsVal) (out : list Incident) :
  fetchUSGS rt data = Ok out ->
  exists features mapped,
    prop data "features" = VArr features
    /\ mapM (usgs_feature rt) features = Ok mapped
    /\ out = List.filter usgs_keep mapped.
Proof.
  unfold fetchUSGS, get.
  destruct (nullish data); [discriminate |]. cbn.
  destruct (prop data "features") as [| | | | | features |]; try discriminate.
  destruct (mapM (usgs_feature rt) features) as [mapped |] eqn:E;
    [| discriminate].
  cbn. intros [= <-]. exists features, mapped.
  split; [reflexivity | split; [exact E | reflexivity]].
Qed.

Lemma truthy_zero (z : number) : Num.is_zero z = true -> truthy (VNum z) = false.
Proof. intros H. simpl. rewrite H. reflexivity. Qed.

End UsgsFacts.

Example usgs_feature_equator :
  usgs_feature example_runtime equator_quake = Ok equator_incident.
Proof. vm_compute. reflexivity. Qed.

(** C6.  A feature that the seismic adapter normalises has a Number [mag];
    its severity is [critical] when [mag >= 6.5], else [high] when
    [mag >= 5.5], else [moderate] when [mag >= 4.5], else [low] (so 6.6,
    5.6, 4.6 and 3.0 give the four severities in turn); and the stored
    magnitude is [mag] rounded to one decimal: for a finite non-zero [mag]
    of mantissa [m] and exponent [e] it is the Number nearest to [n / 10]
    under the sign of [mag], where [n] is an integer nearest to
    [10 * m * 2^e]. *)
Theorem C6_usgs_severity_and_magnitude (rt : Runtime) (f : JsVal) (i : Incident) :
  usgs_feature rt f = Ok i ->
  exists mag,
    prop (prop f "properties") "mag" = VNum mag
    /\ severity i
       = LStr (if Num.ge mag (Num.dec 65 10) then "critical"
               else if Num.ge mag (Num.dec 55 10) then "high"
               else if Num.ge mag (Num.dec 45 10) then "moderate"
               else "low")
    /\ magnitude i = VNum (Num.toFixed1 mag)
    /\ match mag with
       | S754_finite s m e =>
           exists n, nearest_tenth m e n /\ (0 <= n)%Z
             /\ Num.toFixed1 mag
                = match n with
                  | Zpos p => Num.of_ratio s p 10
                  | _ => S754_zero s
                  end
       | S754_zero _ => Num.toFixed1 mag = Num.zero
       | _ => Num.toFixed1 mag = mag
       end
    /\ usgs_severity rt (VNum (Num.dec 66 10)) = "critical"
    /\ usgs_severity rt (VNum (Num.dec 56 10)) = "high"
    /\ usgs_severity rt (VNum (Num.dec 46 10)) = "moderate"
    /\ usgs_severity rt (VNum (Num.dec 30 10)) = "low".
Proof.
  intros H.
  destruct (usgs_feature_ok rt f i H) as (mag & Hm & _ & Hs & Hg & _).
  exists mag. split; [exact Hm |]. split; [exact Hs |]. split; [exact Hg |].
  split.
  - destruct mag as [s | s | | s m e]; try reflexivity.
    exists (Num.tenths m e).
    destruct (tenths_nearest m e) as [Hn H0].
    split; [exact Hn |]. split; [exact H0 | reflexivity].
  - repeat split; vm_compute; reflexivity.
Qed.

Lemma C6_usgs_severity_and_magnitude_witness :
  usgs_feature example_runtime equator_quake = Ok equator_incident
  /\ exists mag,
       prop (prop equator_quake "properties") "mag" = VNum mag
       /\ magnitude equator_incident = VNum (Num.toFixed1 mag).
Proof.
  split; [exact usgs_feature_equator |].
  destruct (C6_usgs_severity_and_magnitude example_runtime equator_quake
              equator_incident usgs_feature_equator)
    as (mag & Hm & _ & Hg & _).
  exists mag. split; [exact Hm | exact Hg].
Defined.

(** C9, as stated, fails in one clause.  The truthiness screen is not
    stronger than dropping the missing and the non-numeric: a latitude that
    is the text [n/a] is truthy, is no Number (and is [NaN] to [isNaN] on
    an engine that reads that text as no number), and the seismic adapter
    keeps the record that carries it. *)
Lemma C9_truthy_text_is_kept :
  exists v : JsVal,
    truthy v = true
    /\ ~ plain_number v
    /\ (forall rt : Runtime,
          Num.is_nan (StringToNumber rt "n/a") = true -> isNaN rt v = true)
    /\ forall rt : Runtime,
         exists kept,
           usgs_keep kept = true
           /\ fetchUSGS rt (VObj [ ("features", VArr [ mislabelled_quake ]) ])
              = Ok [ kept ]
           /\ lat kept = v.
Proof.
  exists (VStr "n/a").
  split; [reflexivity |].
  split; [intros (x & Hx & _); discriminate |].
  split; [intros rt Hn; exact Hn |].
  intros rt. eexists. split; [| split; reflexivity]. reflexivity.
Qed.

(** C9, amended.  The seismic adapter keeps a normalised record only when
    both of its coordinates are truthy.  A record whose latitude or
    longitude is the Number zero (of either sign), though it normalises
    without error, is therefore dropped: no incident of the adapter's
    output has a zero coordinate, so an earthquake on the equator or on the
    prime meridian never appears.  On coordinates that are Numbers or
    missing the screen is stronger than dropping the missing and the
    non-numeric: what passes is a Number other than [NaN], and the Number
    zero does not pass. *)
Theorem C9_usgs_drops_zero_coordinates (rt : Runtime) (data : JsVal)
  (out : list Incident) :
  fetchUSGS rt data = Ok out ->
  exists features mapped,
    prop data "features" = VArr features
    /\ mapM (usgs_feature rt) features = Ok mapped
    /\ out = List.filter (fun i => truthy (lat i) && truthy (lng i)) mapped
    /\ (forall i z, In i mapped -> Num.is_zero z = true ->
          lat i = VNum z \/ lng i = VNum z -> ~ In i out)
    /\ (forall i z, In i out -> lat i = VNum z \/ lng i = VNum z ->
          Num.is_zero z = false)
    /\ (forall v, v = VUndefined \/ v = VNull \/ (exists x, v = VNum x) ->
          truthy v = true ->
          exists x, v = VNum x /\ Num.is_nan x = false /\ Num.is_zero x = false)
    /\ truthy (VNum Num.zero) = false.
Proof.
  intros H.
  destruct (fetchUSGS_ok rt data out H) as (features & mapped & Hf & Hm & ->).
  exists features, mapped.
  split; [exact Hf |]. split; [exact Hm |]. split; [reflexivity |].
  assert (Hnum : forall v,
            v = VUndefined \/ v = VNull \/ (exists x, v = VNum x) ->
            truthy v = true ->
            exists x, v = VNum x /\ Num.is_nan x = false
                      /\ Num.is_zero x = false).
  { intros v [-> | [-> | [x ->]]] Hv; try discriminate.
    exists x. simpl in Hv. apply negb_true_iff, orb_false_iff in Hv as [Hz Hn].
    split; [reflexivity | split; assumption]. }
  assert (Hz : forall i z, In i (List.filter usgs_keep mapped) ->
                 lat i = VNum z \/ lng i = VNum z -> Num.is_zero z = false).
  { intros i z Hi Hc. apply List.filter_In in Hi as [_ Hk].
    unfold usgs_keep in Hk. apply andb_true_iff in Hk as [Hk1 Hk2].
    destruct (Num.is_zero z) eqn:E; [| reflexivity].
    apply truthy_zero in E. destruct Hc as [Hc | Hc]; rewrite Hc in *; congruence. }
  split; [| split; [exact Hz | split; [exact Hnum | reflexivity]]].
  intros i z _ E Hc Hi. specialize (Hz i z Hi Hc). congruence.
Qed.

Lemma C9_usgs_drops_zero_coordinates_witness :
  usgs_feature example_runtime equator_quake = Ok equator_incident
  /\ lat equator_incident = VNum Num.zero
  /\ fetchUSGS example_runtime equator_feed = Ok []
  /\ exists features mapped,
       prop equator_feed "features" = VArr features
       /\ mapM (usgs_feature example_runtime) features = Ok mapped.
Proof.
  assert (H : fetchUSGS example_runtime equator_feed = Ok [])
    by (vm_compute; reflexivity).
  split; [exact usgs_feature_equator |].
  split; [reflexivity |]. split; [exact H |].
  destruct (C9_usgs_drops_zero_coordinates example_runtime equator_feed [] H)
    as (features & mapped & Hf & Hm & _).
  exists features, mapped. split; [exact Hf | exact Hm].
Defined.

(** ** NASA EONET adapter *)

Section NasaFacts.

Context (rt : Runtime).

Lemma nasa_severity_lookup (category : string) :
  let t := table_or nasa_typeMap (Some category) "other" in
  table_or nasa_sevMap (label_key t) "moderate" = LStr (nasa_severity_of t).
Proof.
  unfold table_or, table_get, nasa_typeMap. cbn [assoc].
  repeat (destruct (String.eqb category _); [vm_compute; reflexivity |]).
  destruct (inherited category); vm_compute; reflexivity.
Qed.


(** What an event that is pushed looks like. *)
Lemma nasa_event_pushed (now : Z) (event : JsVal) (i : Incident) :
  nasa_event rt now event = Ok (Some i) ->
  let geo := nasa_last_geometry rt event in
  truthy (prop_opt geo "coordinates") = true
  /\ nasa_coordinates geo = Ok (Some (lng i, lat i))
  /\ isNaN rt (lat i) = false /\ isNaN rt (lng i) = false
  /\ exists category,
       type i = table_or nasa_typeMap (Some category) "other"
       /\ severity i = table_or nasa_sevMap (label_key (type i)) "moderate".
Proof.
  unfold nasa_event, get.
  destruct (nullish event); [discriminate |]. cbn.
  destruct (truthy (prop_opt (nasa_last_geometry rt event) "coordinates"));
    [| discriminate]. cbn.
  destruct (nasa_coordinates (nasa_last_geometry rt event))
    as [[[lng_v lat_v] |] |]; try discriminate. cbn.
  destruct (isNaN rt lat_v) eqn:Elat; [discriminate |].
  destruct (isNaN rt lng_v) eqn:Elng; [discriminate |]. cbn.
  intros [= <-]. cbn.
  repeat (split; [first [reflexivity | assumption] |]).
  eexists. split; reflexivity.
Qed.

Lemma nasa_loop_In (now : Z) (events : list JsVal) (out : list Incident) :
  nasa_loop rt now events = Ok out ->
  forall i, In i out ->
    exists event, In event events /\ nasa_event rt now event = Ok (Some i).
Proof.
  revert out. induction events as [| event rest IH]; intros out H i Hi.
  - injection H as <-. destruct Hi.
  - cbn in H.
    destruct (nasa_event rt now event) as [pushed |] eqn:Ee; [| discriminate].
    cbn in H.
    destruct (nasa_loop rt now rest) as [results |]; [| discriminate].
    cbn in H. injection H as <-.
    assert (Hrest : In i results ->
              exists e, In e (event :: rest) /\ nasa_event rt now e = Ok (Some i)).
    { intros Hr. destruct (IH results eq_refl i Hr) as (e & He & Hp).
      exists e. split; [right; exact He | exact Hp]. }
    destruct pushed as [i0 |]; [| exact (Hrest Hi)].
    destruct Hi as [<- | Hi]; [| exact (Hrest Hi)].
    exists event. split; [left; reflexivity | exact Ee].
Qed.

End NasaFacts.




(** ** Coordinate screening *)

Section ScreeningFacts.

Context (rt : Runtime).

(** What the four feed adapters do guarantee of the coordinates they let
    through: USGS, that both are truthy; NASA EONET and ReliefWeb, that
    [isNaN] is false of both; GDACS, that both are Numbers other than
    [NaN]. *)
Lemma fetchNASAEONET_not_NaN (now : Z) (data : JsVal) (out : list Incident) :
  fetchNASAEONET rt now data = Ok out ->
  forall i, In i out -> isNaN rt (lat i) = false /\ isNaN rt (lng i) = false.
Proof.
  unfold fetchNASAEONET, get.
  destruct (nullish data); [discriminate |]. cbn.
  destruct (iterate (prop data "events")) as [events |]; [| discriminate].
  cbn. intros H i Hi.
  destruct (nasa_loop_In rt now events out H i Hi) as (event & _ & He).
  destruct (nasa_event_pushed rt now event i He) as (_ & _ & H1 & H2 & _).
  split; assumption.
Qed.

Lemma gdacs_coordinates_not_NaN (item : JsVal) (lat_n lng_n : number) :
  gdacs_coordinates rt item = Ok (Some (lat_n, lng_n)) ->
  Num.is_nan lat_n = false /\ Num.is_nan lng_n = false.
Proof.
  unfold gdacs_coordinates, get.
  destruct (nullish item); [discriminate |]. cbn.
  destruct (replaceable _); [| discriminate]. cbn.
  destruct (if truthy (prop item "geo:lat") then _ else _) as [lat_src |];
    [| discriminate]. cbn.
  destruct (if truthy (prop item "geo:long") then _ else _) as [lng_src |];
    [| discriminate]. cbn.
  destruct (Num.is_nan (parseFloat rt (ToString rt lat_src))) eqn:E1;
    [discriminate |].
  destruct (Num.is_nan (parseFloat rt (ToString rt lng_src))) eqn:E2;
    [discriminate |].
  cbn. intros [= <- <-]. split; assumption.
Qed.

Lemma reliefweb_coordinates_not_NaN (item : JsVal) (lat_v lng_v : JsVal) :
  reliefweb_coordinates rt item = Ok (Some (lat_v, lng_v)) ->
  isNaN rt lat_v = false /\ isNaN rt lng_v = false.
Proof.
  unfold reliefweb_coordinates, get.
  destruct (nullish item); [discriminate |]. cbn.
  destruct (nullish (prop item "fields")); [discriminate |]. cbn.
  destruct (truthy _); [| discriminate]. cbn.
  destruct (prop_opt _ "location") as [| | | | s | |]; try discriminate.
  destruct (isNaN rt (nth 1 _ _)) eqn:E1; [discriminate |].
  destruct (isNaN rt (nth 0 _ _)) eqn:E2; [discriminate |].
  cbn. intros [= <- <-]. split; assumption.
Qed.

End ScreeningFacts.

(** C5 fails on the code.  The satellite-event adapter screens coordinates
    with [isNaN], which is false of [null]: an event whose longitude is
    [null] becomes an incident with a [null] longitude, and that incident
    is in the aggregated list.  The seismic adapter screens with
    truthiness: a latitude that is non-numeric text passes. *)
Theorem C5_null_longitude_reaches_final_list (rt : Runtime) (now : Z) :
  fetchNASAEONET rt now (VObj [ ("events", VArr [ unlocated_event ]) ])
  = Ok [ unlocated_incident ]
  /\ lng unlocated_incident = VNull
  /\ incidents (aggregateAllSources rt
                  (no_sources (Fulfilled [ unlocated_incident ]) (Fulfilled []))
                  now)
     = [ unlocated_incident ]
  /\ exists kept,
       fetchUSGS rt (VObj [ ("features", VArr [ mislabelled_quake ]) ])
       = Ok [ kept ]
       /\ lat kept = VStr "n/a".
Proof.
  split; [reflexivity |]. split; [reflexivity |]. split; [reflexivity |].
  eexists. split; reflexivity.
Qed.

(** ** Closed instances *)

Lemma C8_reddit_without_credentials_witness :
  env_truthy (REDDIT_CLIENT_ID no_credentials) = false
  /\ fetchRedditPosts example_runtime no_credentials initial_session
       1714521600000 (Throw (Rejection VUndefined)) 1714521600000
       [ wildfire_incident ]
     = (Ok [], initial_session).
Proof.
  split; [reflexivity |].
  exact (proj1 (C8_reddit_without_credentials example_runtime no_credentials
                  initial_session 1714521600000 (Throw (Rejection VUndefined))
                  1714521600000 [ wildfire_incident ] eq_refl)).
Defined.

(** One minute after the pre-warm the stored result is served; three
    minutes after it the pipeline runs again. *)
Lemma C4_cache_ttl_witness :
  getAllIncidents example_runtime warm_cache (1714521600400 + 60000) later_run
  = (warm_cache,
     {| body := aggregateAllSources example_runtime (results first_run)
                  (fetched_now first_run);
        fromCache := true |})
  /\ fromCache
       (getAllIncidents example_runtime warm_cache (1714521600400 + 180000)
          later_run).2 = false.
Proof.
  split.
  - apply (proj1 (proj2 (C4_cache_ttl example_runtime warm_cache
                           (1714521600400 + 60000) later_run))
             _ 1714521600400%Z);
      [reflexivity | reflexivity | discriminate | reflexivity].
  - reflexivity.
Defined.

Lemma C10_by_type_ignores_ttl_witness :
  (getIncidentsByType example_runtime warm_cache "fire" later_run).1 = warm_cache
  /\ filtered (getIncidentsByType example_runtime warm_cache "fire" later_run).2
     = [ wildfire_incident ]
  /\ (getIncidentsByType example_runtime empty_cache "earthquake" later_run).1
     = empty_cache
  /\ filtered
       (getIncidentsByType example_runtime empty_cache "earthquake" later_run).2
     = [ equator_incident ].
Proof.
  split.
  - exact (proj1 (C10_by_type_ignores_ttl example_runtime warm_cache "fire"
                    later_run)).
  - repeat split; vm_compute; reflexivity.
Defined.

(** * Further properties *)

(** ** Deduplicator, continued *)

Section DedupMore.

Context (rt : Runtime).

Lemma dedup_from_In (incidents seen : list Incident) (inc : Incident) :
  In inc (dedup_from rt seen incidents) -> In inc incidents.
Proof.
  revert seen. induction incidents as [| a rest IH]; intros seen H; [exact H |].
  simpl in H. rewrite dedup_step_keep in H.
  destruct (List.existsb _ seen).
  - right. exact (IH _ H).
  - destruct H as [<- | H]; [left; reflexivity | right; exact (IH _ H)].
Qed.

Lemma dedup_from_covers (incidents seen : list Incident) (inc : Incident) :
  In inc incidents ->
  In inc (dedup_from rt seen incidents)
  \/ exists s, In s (seen ++ dedup_from rt seen incidents)
               /\ clash rt s inc = true.
Proof.
  revert seen.
  induction incidents as [| a rest IH]; intros seen Hin; [destruct Hin |].
  simpl. rewrite dedup_step_keep.
  destruct (List.existsb (fun s => clash rt s a) seen) eqn:E.
  - destruct Hin as [<- | Hin]; [| exact (IH seen Hin)].
    right. apply List.existsb_exists in E as (s & Hs & Hc).
    exists s. split; [apply in_or_app; left; exact Hs | exact Hc].
  - destruct Hin as [<- | Hin]; [left; left; reflexivity |].
    destruct (IH (seen ++ [a]) Hin) as [H | (s & Hs & Hc)].
    + left. right. exact H.
    + right. exists s. split; [| exact Hc].
      rewrite <- app_assoc in Hs. exact Hs.
Qed.

(** A relation that holds between every two elements, in whichever order
    they stand, still does after the list is rearranged. *)
Lemma pairwise_Permutation {A : Type} (R : A -> A -> Prop) (l l' : list A) :
  (forall x y, R x y -> R y x) ->
  Permutation l l' -> ForallOrdPairs R l -> ForallOrdPairs R l'.
Proof.
  intros Hsym Hp. induction Hp as [| x l l' Hp IH | x y l | l l' l'' _ IH1 _ IH2];
    intros H.
  - exact H.
  - inversion H as [| ? ? Hx Hl]; subst. constructor.
    + rewrite <- Hp. exact Hx.
    + exact (IH Hl).
  - inversion H as [| ? ? Hy Hl]; subst.
    inversion Hl as [| ? ? Hx Hl']; subst.
    inversion Hy as [| ? ? Hyx Hy']; subst.
    constructor; [constructor; [apply Hsym; exact Hyx | exact Hx] |].
    constructor; assumption.
  - exact (IH2 (IH1 H)).
Qed.

Lemma clash_free_pairs (l : list Incident) :
  clash_free rt l ->
  forall i j x y, i <> j -> l !! i = Some x -> l !! j = Some y ->
    clash rt x y = false.
Proof.
  intros Hfree i j x y Hij Hi Hj.
  destruct (Nat.lt_total i j) as [Hlt | [Heq | Hgt]]; [| contradiction |].
  - exact (clash_free_lookup rt l Hfree i j x y Hlt Hi Hj).
  - rewrite clash_sym.
    exact (clash_free_lookup rt l Hfree j i y x Hgt Hj Hi).
Qed.

Lemma rank_clash_free (l : list Incident) :
  clash_free rt l -> clash_free rt (rank rt l).
Proof.
  apply pairwise_Permutation.
  - intros x y H. rewrite clash_sym. exact H.
  - apply Array_sort_perm.
Qed.

End DedupMore.

(** X1.  Deduplication changes nothing on a list that is already free of
    clashes, and so deduplicating a second time returns the first result
    unchanged. *)
Theorem X1_dedup_fixed_point (rt : Runtime) (incidents : list Incident) :
  deduplicateIncidents rt (deduplicateIncidents rt incidents)
  = deduplicateIncidents rt incidents
  /\ (clash_free rt incidents -> deduplicateIncidents rt incidents = incidents).
Proof.
  split; [apply deduplicateIncidents_idempotent |].
  intros H. apply dedup_from_fixed. exact H.
Qed.

(** X2.  No input incident goes unrepresented: each one is in the output
    or clashes with an incident of the output.  The first incident of the
    input is always kept, at the head, and the output is never longer than
    the input. *)
Theorem X2_dedup_covers_input (rt : Runtime) (incidents : list Incident) :
  let out := deduplicateIncidents rt incidents in
  (forall inc, In inc incidents ->
     In inc out \/ exists s, In s out /\ clash rt s inc = true)
  /\ (forall x rest, incidents = x :: rest -> exists tail, out = x :: tail)
  /\ (length out <= length incidents)%nat.
Proof.
  intros out. split; [| split].
  - intros inc Hin. exact (dedup_from_covers rt incidents [] inc Hin).
  - intros x rest ->. subst out. unfold deduplicateIncidents.
    cbn [dedup_from]. rewrite dedup_step_keep. cbn. eauto.
  - apply sublist_length, dedup_from_sublist.
Qed.

(** ** Aggregator, continued *)

Lemma aggregate_incidents (rt : Runtime) (results : Settlements) (now : Z) :
  incidents (aggregateAllSources rt results now)
  = rank rt (deduplicateIncidents rt
      (contribution (usgs results) ++ contribution (nasa results)
         ++ contribution (gdacs results) ++ contribution (reliefweb results)
         ++ contribution (reddit results))).
Proof. unfold aggregateAllSources. rewrite collect_all_eq. reflexivity. Qed.

(** X3.  The list the aggregator returns, after ranking, still holds no two
    incidents that clash (ranking only rearranges the deduplicated list),
    and every incident in it was delivered by an adapter that fulfilled:
    the aggregator invents nothing. *)
Theorem X3_final_list_clash_free (rt : Runtime) (results : Settlements)
  (now : Z) :
  let out := incidents (aggregateAllSources rt results now) in
  (forall i j x y, i <> j -> out !! i = Some x -> out !! j = Some y ->
     clash rt x y = false)
  /\ (forall inc, In inc out ->
        exists s value, In s (settled_list results) /\ s = Fulfilled value
                        /\ In inc value).
Proof.
  intros out. subst out. rewrite aggregate_incidents. split.
  - apply clash_free_pairs, rank_clash_free.
    apply (dedup_from_clash_free rt _ []). constructor.
  - intros inc Hin.
    apply (Permutation_in _ (Permutation_sym (Array_sort_perm _ _))) in Hin.
    apply dedup_from_In in Hin.
    assert (Hc : forall s, In inc (contribution s) ->
                   exists value, s = Fulfilled value /\ In inc value).
    { intros [value | reason] H; [eauto | destruct H]. }
    repeat (apply in_app_or in Hin as [Hin | Hin]);
      apply Hc in Hin as (value & E & Hv); eexists _, value;
      (split; [| split; [exact E | exact Hv]]); simpl; tauto.
Qed.

(** X4.  Source order is priority.  What deduplication keeps of the first
    source (USGS) alone is kept of the combined list, ahead of everything
    kept from later sources, and reaches the returned list: a later source
    never displaces a USGS incident. *)
Theorem X4_first_source_has_priority (rt : Runtime) (results : Settlements)
  (now : Z) :
  let first := deduplicateIncidents rt (contribution (usgs results)) in
  let others :=
    contribution (nasa results) ++ contribution (gdacs results)
      ++ contribution (reliefweb results) ++ contribution (reddit results) in
  (exists later, later `sublist_of` others
     /\ deduplicateIncidents rt (contribution (usgs results) ++ others)
        = first ++ later)
  /\ forall inc, In inc first ->
       In inc (incidents (aggregateAllSources rt results now)).
Proof.
  intros first others.
  assert (H : deduplicateIncidents rt (contribution (usgs results) ++ others)
              = first ++ dedup_from rt ([] ++ first) others).
  { unfold deduplicateIncidents. apply dedup_from_app. }
  split.
  - eexists. split; [| exact H]. apply dedup_from_sublist.
  - intros inc Hin. rewrite aggregate_incidents.
    apply (Permutation_in _ (Array_sort_perm _ _)).
    fold others. rewrite H. apply in_or_app. left. exact Hin.
Qed.

(** X5.  When every adapter is rejected the aggregator still returns: the
    incident list is empty and each of the five sources is reported as
    failed with the message of its own rejection reason. *)
Theorem X5_all_sources_rejected (rt : Runtime) (results : Settlements) (now : Z) :
  (forall s, In s (settled_list results) -> exists reason, s = Rejected reason) ->
  let r := aggregateAllSources rt results now in
  incidents r = []
  /\ forall name, In name sourceNames ->
       exists error, sourceStatus r !! name = Some (StatusFailed error).
Proof.
  intros H r. subst r.
  assert (Hs : forall s, In s (settled_list results) -> contribution s = []
                 /\ exists error, report s = StatusFailed error).
  { intros s Hin. destruct (H s Hin) as [reason ->]. simpl. eauto. }
  destruct (Hs (usgs results)) as [E1 [e1 R1]]; [simpl; tauto |].
  destruct (Hs (nasa results)) as [E2 [e2 R2]]; [simpl; tauto |].
  destruct (Hs (gdacs results)) as [E3 [e3 R3]]; [simpl; tauto |].
  destruct (Hs (reliefweb results)) as [E4 [e4 R4]]; [simpl; tauto |].
  destruct (Hs (reddit results)) as [E5 [e5 R5]]; [simpl; tauto |].
  split.
  - rewrite aggregate_incidents, E1, E2, E3, E4, E5. reflexivity.
  - unfold aggregateAllSources. rewrite collect_all_eq.
    cbn [sourceStatus]. rewrite R1, R2, R3, R4, R5.
    intros name Hn. simpl in Hn.
    destruct Hn as [<- | [<- | [<- | [<- | [<- | []]]]]];
      eexists; by simplify_map_eq.
Qed.

Lemma X5_all_sources_rejected_witness :
  incidents (aggregateAllSources example_runtime
               (all_rejected (VObj [ ("message", VStr "Network Error") ]))
               1714521600000)
  = [].
Proof.
  refine (proj1 (X5_all_sources_rejected example_runtime
                   (all_rejected (VObj [ ("message", VStr "Network Error") ]))
                   1714521600000 _)).
  intros s Hs. simpl in Hs.
  destruct Hs as [<- | [<- | [<- | [<- | [<- | []]]]]]; eexists; reflexivity.
Defined.

(** ** USGS adapter, continued *)

Section UsgsMore.

Context (rt : Runtime).

Lemma usgs_feature_reads (f : JsVal) (i : Incident) :
  usgs_feature rt f = Ok i ->
  (exists d, at_idx (prop (prop f "geometry") "coordinates") 2 = VNum d)
  /\ exists t, date_of rt (prop (prop f "properties") "time") = Some t
               /\ time i = VStr (Date_toISOString rt t).
Proof.
  unfold usgs_feature, get, get_idx, as_number, toISOString.
  destruct (nullish f); [discriminate |]. cbn.
  destruct (nullish (prop f "properties")); [discriminate |]. cbn.
  destruct (nullish (prop f "geometry")); [discriminate |]. cbn.
  destruct (nullish (prop (prop f "geometry") "coordinates")); [discriminate |].
  cbn.
  destruct (prop (prop f "properties") "mag") as [| | | m | | |];
    try discriminate. cbn.
  destruct (date_of rt _) as [t |]; [| discriminate]. cbn.
  destruct (at_idx _ 2) as [| | | d | | |]; try discriminate. cbn.
  intros [= <-]. cbn. eauto.
Qed.

Lemma mapM_result_throw {A B : Type} (f : A -> result B) (l : list A) (a : A) :
  In a l -> (exists e, f a = Throw e) -> exists e, mapM f l = Throw e.
Proof.
  intros Hin [e He]. induction l as [| x l IH]; [destruct Hin |].
  cbn. destruct Hin as [-> | Hin].
  - rewrite He. cbn. eauto.
  - destruct (f x) as [b |]; cbn; [| eauto].
    destruct (IH Hin) as [e' He']. rewrite He'. cbn. eauto.
Qed.

Lemma mapM_result_length {A B : Type} (f : A -> result B) (l : list A) (k : list B) :
  mapM f l = Ok k -> length k = length l.
Proof.
  revert k. induction l as [| a l IH]; intros k H.
  - injection H as <-. reflexivity.
  - cbn in H. destruct (f a); [| discriminate]. cbn in H.
    destruct (mapM f l) as [k0 |]; [| discriminate]. cbn in H.
    injection H as <-. simpl. rewrite (IH k0 eq_refl). reflexivity.
Qed.

Lemma usgs_severity_tier (mag : JsVal) :
  exists t, tier (LStr (usgs_severity rt mag)) = Some t /\ (0 <= t <= 3)%Z.
Proof.
  unfold usgs_severity.
  destruct (Num.ge _ _); [exists 0%Z; split; [reflexivity | lia] |].
  destruct (Num.ge _ _); [exists 1%Z; split; [reflexivity | lia] |].
  destruct (Num.ge _ _); [exists 2%Z | exists 3%Z]; (split; [reflexivity | lia]).
Qed.

End UsgsMore.

(** X6.  The seismic adapter is all or nothing on malformed records: one
    feature whose magnitude is not a Number ([null] included), or whose
    coordinates carry no numeric depth, makes [fetchUSGS] throw, so the
    adapter is rejected and none of the feed's other earthquakes are
    delivered. *)
Theorem X6_usgs_one_bad_record_rejects_all (rt : Runtime) (data : JsVal)
  (features : list JsVal) (f : JsVal) :
  prop data "features" = VArr features ->
  In f features ->
  (forall x, prop (prop f "properties") "mag" <> VNum x)
  \/ (forall d, at_idx (prop (prop f "geometry") "coordinates") 2 <> VNum d) ->
  exists e, fetchUSGS rt data = Throw e.
Proof.
  intros Hf Hin Hbad.
  assert (Hthrow : exists e, usgs_feature rt f = Throw e).
  { destruct (usgs_feature rt f) as [i | e] eqn:E; [| eauto].
    exfalso. destruct Hbad as [Hm | Hd].
    - destruct (usgs_feature_ok rt f i E) as (m & Hm' & _). exact (Hm m Hm').
    - destruct (usgs_feature_reads rt f i E) as [[d Hd'] _]. exact (Hd d Hd'). }
  destruct (mapM_result_throw (usgs_feature rt) features f Hin Hthrow) as [e He].
  exists e.
  assert (En : nullish data = false) by (destruct data; try reflexivity; discriminate).
  assert (Hu : fetchUSGS rt data
               = match mapM (usgs_feature rt) features with
                 | Ok mapped => Ok (List.filter usgs_keep mapped)
                 | Throw e' => Throw e'
                 end).
  { unfold fetchUSGS, get. rewrite En. cbn. rewrite Hf. reflexivity. }
  rewrite Hu, He. reflexivity.
Qed.

Lemma X6_usgs_one_bad_record_rejects_all_witness :
  exists e,
    fetchUSGS example_runtime
      (VObj [ ("features", VArr [ mislabelled_quake; unrated_quake ]) ])
    = Throw e.
Proof.
  apply (X6_usgs_one_bad_record_rejects_all example_runtime _
           [ mislabelled_quake; unrated_quake ] unrated_quake).
  - reflexivity.
  - right. left. reflexivity.
  - left. intros x. discriminate.
Defined.

(** X7.  Whatever the seismic adapter delivers can be ranked and placed:
    every incident of its output is an [earthquake] whose severity is one
    of the four tiers, whose magnitude is a Number, whose time is the ISO
    print of a valid date and whose coordinates are both truthy; and the
    output is never longer than the feed. *)
Theorem X7_usgs_output_well_formed (rt : Runtime) (data : JsVal)
  (out : list Incident) :
  fetchUSGS rt data = Ok out ->
  (forall i, In i out ->
     type i = LStr "earthquake"
     /\ (exists t, tier (severity i) = Some t /\ (0 <= t <= 3)%Z)
     /\ (exists m, magnitude i = VNum m)
     /\ (exists t, time i = VStr (Date_toISOString rt t))
     /\ truthy (lat i) = true /\ truthy (lng i) = true)
  /\ forall features, prop data "features" = VArr features ->
       (length out <= length features)%nat.
Proof.
  intros H.
  destruct (fetchUSGS_ok rt data out H) as (features & mapped & Hf & Hm & ->).
  split.
  - intros i Hi. apply List.filter_In in Hi as [Hi Hk].
    destruct (mapM_result_In _ _ _ Hm i Hi) as (f & _ & Hfi).
    destruct (usgs_feature_ok rt f i Hfi) as (m & _ & Ht & Hs & Hg & _).
    destruct (usgs_feature_reads rt f i Hfi) as (_ & t & Hd & Htime).
    split; [exact Ht |].
    split; [rewrite Hs; apply usgs_severity_tier |].
    split; [eauto |].
    split.
    + exists t. exact Htime.
    + unfold usgs_keep in Hk. apply andb_true_iff in Hk. exact Hk.
  - intros features' Hf'. rewrite Hf in Hf'. injection Hf' as <-.
    rewrite <- (mapM_result_length _ _ _ Hm).
    apply List.filter_length_le.
Qed.

Example fetchUSGS_sample :
  fetchUSGS example_runtime
    (VObj [ ("features", VArr [ fiji_quake; equator_quake ]) ])
  = Ok [ fiji_incident ].
Proof. vm_compute. reflexivity. Qed.

Lemma X7_usgs_output_well_formed_witness :
  fetchUSGS example_runtime
    (VObj [ ("features", VArr [ fiji_quake; equator_quake ]) ])
  = Ok [ fiji_incident ]
  /\ (length [ fiji_incident ] <= length [ fiji_quake; equator_quake ])%nat.
Proof.
  split; [exact fetchUSGS_sample |].
  exact (proj2 (X7_usgs_output_well_formed example_runtime _ _ fetchUSGS_sample)
           [ fiji_quake; equator_quake ] eq_refl).
Defined.

(** ** NASA EONET adapter, continued *)

Section NasaMore.

Context (rt : Runtime).

Lemma nasa_severity_tier (t : Label) :
  exists n, tier (LStr (nasa_severity_of t)) = Some n /\ (0 <= n <= 2)%Z.
Proof.
  unfold nasa_severity_of. destruct t as [s | k].
  - destruct (String.eqb s "tsunami");
      [exists 0%Z; split; [reflexivity | lia] |].
    destruct (_ || _); [exists 1%Z | exists 2%Z]; (split; [reflexivity | lia]).
  - exists 2%Z. split; [reflexivity | lia].
Qed.

(** An event with no observation is passed over. *)
Lemma nasa_event_unobserved (now : Z) (event : JsVal) :
  nullish event = false ->
  nullish (prop event "geometry") = true \/ prop event "geometry" = VArr [] ->
  nasa_event rt now event = Ok None.
Proof.
  intros He Hg. unfold nasa_event, get. rewrite He. cbn.
  assert (Hgeo : nasa_last_geometry rt event = VUndefined).
  { unfold nasa_last_geometry. destruct Hg as [Hg | ->]; [| reflexivity].
    destruct (prop event "geometry"); try discriminate; reflexivity. }
  rewrite Hgeo. reflexivity.
Qed.

Lemma nasa_loop_all_skipped (now : Z) (events : list JsVal) :
  Forall (fun event => nasa_event rt now event = Ok None) events ->
  nasa_loop rt now events = Ok [].
Proof.
  induction 1 as [| event rest He _ IH]; [reflexivity |].
  cbn. rewrite He. cbn. rewrite IH. reflexivity.
Qed.

End NasaMore.

(** X8.  Whatever the satellite-event adapter delivers passed its
    coordinate screen and can be ranked: of every incident of its output
    [isNaN] is false for both coordinates, the severity is
    [critical], [high] or [moderate] (tier 0, 1 or 2, never [low]), and
    the source is NASA EONET. *)
Theorem X8_nasa_output_well_formed (rt : Runtime) (now : Z) (data : JsVal)
  (out : list Incident) :
  fetchNASAEONET rt now data = Ok out ->
  forall i, In i out ->
    isNaN rt (lat i) = false /\ isNaN rt (lng i) = false
    /\ (exists n, tier (severity i) = Some n /\ (0 <= n <= 2)%Z)
    /\ source i = "NASA EONET".
Proof.
  intros H i Hi.
  destruct (fetchNASAEONET_not_NaN rt now data out H i Hi) as [H1 H2].
  split; [exact H1 |]. split; [exact H2 |].
  revert H. unfold fetchNASAEONET, get.
  destruct (nullish data); [discriminate |]. cbn.
  destruct (iterate (prop data "events")) as [events |]; [| discriminate].
  cbn. intros H.
  destruct (nasa_loop_In rt now events out H i Hi) as (event & _ & He).
  destruct (nasa_event_pushed rt now event i He)
    as (_ & _ & _ & _ & category & Ht & Hs).
  split.
  - rewrite Hs, Ht, nasa_severity_lookup. apply nasa_severity_tier.
  - revert He. unfold nasa_event, get.
    destruct (nullish event); [discriminate |]. cbn.
    destruct (truthy _); [| discriminate]. cbn.
    destruct (nasa_coordinates _) as [[[lng_v lat_v] |] |]; try discriminate.
    cbn. destruct (isNaN rt lat_v || isNaN rt lng_v); [discriminate |].
    intros [= <-]. reflexivity.
Qed.

Lemma X8_nasa_output_well_formed_witness :
  fetchNASAEONET example_runtime 1714608000000
    (VObj [ ("events", VArr [ unobserved_event; wildfire_event ]) ])
  = Ok [ wildfire_incident ]
  /\ isNaN example_runtime (lat wildfire_incident) = false.
Proof.
  assert (H : fetchNASAEONET example_runtime 1714608000000
                (VObj [ ("events", VArr [ unobserved_event; wildfire_event ]) ])
              = Ok [ wildfire_incident ]) by (vm_compute; reflexivity).
  split; [exact H |].
  exact (proj1 (X8_nasa_output_well_formed example_runtime _ _ _ H
                  wildfire_incident (or_introl eq_refl))).
Defined.

(** X9.  An event that has no geometry, or an empty geometry array, is
    passed over without error: a feed made only of such events yields the
    empty list, not a rejection. *)
Theorem X9_nasa_unobserved_events_skipped (rt : Runtime) (now : Z)
  (events : list JsVal) :
  Forall (fun event =>
            nullish event = false
            /\ (nullish (prop event "geometry") = true
                \/ prop event "geometry" = VArr [])) events ->
  fetchNASAEONET rt now (VObj [ ("events", VArr events) ]) = Ok [].
Proof.
  intros H. unfold fetchNASAEONET, get. cbn.
  apply nasa_loop_all_skipped.
  eapply List.Forall_impl; [| exact H].
  intros event [He Hg]. apply nasa_event_unobserved; assumption.
Qed.

Lemma X9_nasa_unobserved_events_skipped_witness :
  fetchNASAEONET example_runtime 1714608000000
    (VObj [ ("events", VArr [ unobserved_event; VObj [] ]) ])
  = Ok [].
Proof.
  apply X9_nasa_unobserved_events_skipped.
  constructor; [split; [reflexivity | right; reflexivity] |].
  constructor; [split; [reflexivity | left; reflexivity] | constructor].
Defined.

(** ** Cache and routes, continued *)

Section ServingFacts.

Context (rt : Runtime).

Lemma serve_cons (cache : Cache) (now : Z) (run : Run)
  (rest : list (Z * Run)) :
  serve rt cache ((now, run) :: rest)
  = ((serve rt (getAllIncidents rt cache now run).1 rest).1,
     (getAllIncidents rt cache now run).2
       :: (serve rt (getAllIncidents rt cache now run).1 rest).2).
Proof.
  cbn [serve].
  destruct (getAllIncidents rt cache now run) as [cache' answer].
  cbn [fst snd].
  destruct (serve rt cache' rest) as [final answers]. reflexivity.
Qed.

Lemma serve_last (requests : list (Z * Run)) (cache : Cache) :
  requests <> [] ->
  exists answer,
    List.last (serve rt cache requests).2 answer = answer
    /\ In answer (serve rt cache requests).2
    /\ data (serve rt cache requests).1 = Some (body answer).
Proof.
  revert cache. induction requests as [| [now run] rest IH]; intros cache Hne;
    [contradiction |].
  rewrite serve_cons. cbn [fst snd].
  destruct rest as [| q rest'].
  - exists (getAllIncidents rt cache now run).2. cbn.
    split; [reflexivity |]. split; [left; reflexivity |].
    apply getAllIncidents_cached.
  - destruct (IH (getAllIncidents rt cache now run).1 ltac:(discriminate))
      as (answer & Hl & Hin & Hd).
    exists answer. split; [| split; [right; exact Hin | exact Hd]].
    destruct (serve rt (getAllIncidents rt cache now run).1 (q :: rest')).2
      as [| a l] eqn:E; [destruct Hin |].
    exact Hl.
Qed.

Lemma serve_dated (requests : list (Z * Run)) (cache : Cache) :
  cache_dated rt cache ->
  Forall (fun q => (fetched_now q.2 <= stored_now q.2)%Z) requests ->
  cache_dated rt (serve rt cache requests).1.
Proof.
  revert cache. induction requests as [| [now run] rest IH]; intros cache Hc Hq;
    [exact Hc |].
  apply Forall_cons_1 in Hq as [Hrun Hq].
  rewrite serve_cons. cbn [fst].
  apply IH; [| exact Hq].
  apply getAllIncidents_dated; assumption.
Qed.

Lemma serve_length (requests : list (Z * Run)) (cache : Cache) :
  length (serve rt cache requests).2 = length requests.
Proof.
  revert cache. induction requests as [| [now run] rest IH]; intros cache;
    [reflexivity |].
  rewrite serve_cons. cbn. rewrite IH. reflexivity.
Qed.

End ServingFacts.

(** X10.  Over any sequence of [GET /api/incidents] requests, from any
    cache: every request is answered; after the last one the cache holds
    exactly the result that request returned; and on a clock that does not
    run backwards the cached result was always fetched no later than its
    timestamp says, also after the start-up pre-warm. *)
Theorem X10_cache_holds_last_answer (rt : Runtime) (cache : Cache)
  (requests : list (Z * Run)) :
  let served := serve rt cache requests in
  length served.2 = length requests
  /\ (requests <> [] ->
        exists answer, List.last served.2 answer = answer
                       /\ data served.1 = Some (body answer))
  /\ (cache_dated rt cache ->
      Forall (fun q => (fetched_now q.2 <= stored_now q.2)%Z) requests ->
      cache_dated rt served.1)
  /\ cache_dated rt empty_cache
  /\ (forall run, (fetched_now run <= stored_now run)%Z ->
        cache_dated rt (prewarm rt run)).
Proof.
  intros served. split; [apply serve_length |].
  split.
  { intros Hne. destruct (serve_last rt requests cache Hne) as (a & Hl & _ & Hd).
    eauto. }
  split; [apply serve_dated |].
  split; [intros r t H; discriminate | apply prewarm_dated].
Qed.

(** X11.  Serving from the cache never extends the entry's life.  While the
    cache holds a result with timestamp [t], any number of requests made
    before [t + CACHE_TTL_MS] are all answered with that same result,
    flagged [fromCache: true], and leave the cache, timestamp included,
    exactly as it was; so the first request at or after [t + CACHE_TTL_MS]
    runs the pipeline however many requests came before it. *)
Theorem X11_cache_hits_do_not_renew (rt : Runtime) (cache : Cache)
  (r : AggregationResult) (t : Z) (requests : list (Z * Run)) :
  data cache = Some r -> timestamp cache = Some t -> t <> 0%Z ->
  Forall (fun q => (q.1 - t < CACHE_TTL_MS)%Z) requests ->
  serve rt cache requests
  = (cache, List.map (fun _ => {| body := r; fromCache := true |}) requests)
  /\ forall now run, (t + CACHE_TTL_MS <= now)%Z ->
       fromCache (getAllIncidents rt (serve rt cache requests).1 now run).2
       = false.
Proof.
  intros Hd Ht Hz Hq.
  assert (Hs : serve rt cache requests
               = (cache,
                  List.map (fun _ => {| body := r; fromCache := true |}) requests)).
  { induction Hq as [| [now run] rest Hnow _ IH]; [reflexivity |].
    rewrite serve_cons.
    rewrite (getAllIncidents_hit rt cache now run r
               (fresh_some cache now r t Hd Ht Hz Hnow)).
    cbn [fst snd]. rewrite IH. reflexivity. }
  split; [exact Hs |].
  intros now run Hnow. rewrite Hs. cbn [fst].
  rewrite getAllIncidents_miss; [reflexivity |].
  apply fresh_none. right. right. right. exists t. split; [exact Ht | lia].
Qed.

Lemma X11_cache_hits_do_not_renew_witness :
  serve example_runtime warm_cache
    [ (1714521600400 + 1000, later_run)%Z; (1714521600400 + 179999, later_run)%Z ]
  = (warm_cache,
     [ {| body := aggregateAllSources example_runtime (results first_run)
                    (fetched_now first_run);
          fromCache := true |};
       {| body := aggregateAllSources example_runtime (results first_run)
                    (fetched_now first_run);
          fromCache := true |} ]).
Proof.
  refine (proj1 (X11_cache_hits_do_not_renew example_runtime warm_cache _
                   1714521600400%Z _ eq_refl eq_refl _ _)).
  - discriminate.
  - repeat constructor.
Defined.

(** X12.  The two routes agree.  Right after any [GET /api/incidents], a
    [GET /api/incidents/:type] returns exactly the incidents of that
    answer whose type is the requested text, in the answer's ranked order,
    with their number as [count]; it returns no incident of another type
    and leaves the cache alone. *)
Theorem X12_by_type_filters_last_answer (rt : Runtime) (cache : Cache)
  (now : Z) (run run' : Run) (type_param : string) :
  let first := getAllIncidents rt cache now run in
  let second := getIncidentsByType rt first.1 type_param run' in
  filtered second.2
  = List.filter (has_type type_param) (incidents (body first.2))
  /\ Forall (fun i => type i = LStr type_param) (filtered second.2)
  /\ filtered second.2 `sublist_of` incidents (body first.2)
  /\ (forall i, In i (incidents (body first.2)) -> type i = LStr type_param ->
        In i (filtered second.2))
  /\ count second.2 = length (filtered second.2)
  /\ second.1 = first.1.
Proof.
  intros first second.
  assert (Hf : filtered second.2
               = List.filter (has_type type_param) (incidents (body first.2))).
  { subst second. unfold getIncidentsByType. cbn [snd filtered].
    subst first. rewrite getAllIncidents_cached. reflexivity. }
  assert (Ht : forall i, has_type type_param i = true <-> type i = LStr type_param).
  { intros i. unfold has_type. destruct (type i) as [s | k]; simpl.
    - rewrite String.eqb_eq. split; [intros ->; reflexivity | intros [= ->]; reflexivity].
    - split; discriminate. }
  assert (Hn : count second.2 = length (filtered second.2)) by reflexivity.
  assert (Hk : second.1 = first.1) by reflexivity.
  split; [exact Hf |]. rewrite Hn, Hf.
  split.
  { apply List.Forall_forall. intros i Hi.
    apply List.filter_In in Hi as [_ Hi]. apply Ht, Hi. }
  split.
  { clear. induction (incidents (body first.2)) as [| a l IH]; [constructor |].
    simpl. destruct (has_type type_param a);
      [apply sublist_skip | apply sublist_cons]; exact IH. }
  split.
  { intros i Hi Hty. apply List.filter_In. split; [exact Hi | apply Ht, Hty]. }
  split; [reflexivity | exact Hk].
Qed.

(** ** Reddit token *)

(** X13.  With a client id configured, [fetchRedditPosts] asks for a token
    only when it holds none or the one it holds expires within 30 seconds.
    A token request that is rejected makes the adapter throw that
    rejection and leaves the session as it was, so the next cycle asks
    again; a request that succeeds stores the new token with an expiry of
    the clock plus [expires_in] seconds; and a token still good for more
    than 30 seconds is reused without any request. *)
Theorem X13_reddit_token_refresh (rt : Runtime) (env : Env)
  (session : RedditSession) (now now_token : Z) (posts : list Incident) :
  env_truthy (REDDIT_CLIENT_ID env) = true ->
  let stale :=
    negb (truthy (redditToken session))
    || Num.lt (Num.sub (redditTokenExpiry session) (Num.of_Z 30000))
         (Num.of_Z now) in
  (stale = false ->
     forall post,
       fetchRedditPosts rt env session now post now_token posts
       = (Ok posts, session))
  /\ (stale = true -> env_truthy (REDDIT_CLIENT_SECRET env) = true ->
      forall e,
        fetchRedditPosts rt env session now (Throw e) now_token posts
        = (Throw e, session))
  /\ (stale = true -> env_truthy (REDDIT_CLIENT_SECRET env) = true ->
      forall data, nullish data = false ->
        fetchRedditPosts rt env session now (Ok data) now_token posts
        = (Ok posts,
           {| redditToken := prop data "access_token";
              redditTokenExpiry :=
                Num.add (Num.of_Z now_token)
                  (Num.mul (ToNumber rt (prop data "expires_in"))
                     (Num.of_Z 1000)) |}))
  /\ (stale = true -> env_truthy (REDDIT_CLIENT_SECRET env) = false ->
      forall post,
        fetchRedditPosts rt env session now post now_token posts
        = (Ok posts, session)).
Proof.
  intros Hid stale.
  unfold fetchRedditPosts, getRedditToken. rewrite Hid. cbn [negb].
  fold stale.
  repeat split.
  - intros ->. reflexivity.
  - intros -> ->. reflexivity.
  - intros -> -> data ->. reflexivity.
  - intros -> -> post. reflexivity.
Qed.

Lemma X13_reddit_token_refresh_witness :
  fetchRedditPosts example_runtime with_credentials initial_session
    1714521600000 (Throw (Rejection (VStr "401"))) 1714521600100 []
  = (Throw (Rejection (VStr "401")), initial_session)
  /\ fetchRedditPosts example_runtime with_credentials initial_session
       1714521600000
       (Ok (VObj [ ("access_token", VStr "abc");
                   ("expires_in", VNum (Num.of_Z 3600)) ]))
       1714521600100 [ wildfire_incident ]
     = (Ok [ wildfire_incident ],
        {| redditToken := VStr "abc";
           redditTokenExpiry := Num.of_Z 1714525200100 |}).
Proof.
  pose proof (fun posts =>
                X13_reddit_token_refresh example_runtime with_credentials
                  initial_session 1714521600000 1714521600100 posts eq_refl)
    as H.
  cbv zeta in H.
  split.
  - exact (proj1 (proj2 (H [])) eq_refl eq_refl _).
  - rewrite (proj1 (proj2 (proj2 (H [ wildfire_incident ])))
               eq_refl eq_refl
               (VObj [ ("access_token", VStr "abc");
                       ("expires_in", VNum (Num.of_Z 3600)) ])
               eq_refl).
    vm_compute. reflexivity.
Defined.

(** ** Text *)

Lemma prefix_app (kw s : string) :
  String.prefix kw s = true <-> exists b, s = (kw ++ b)%string.
Proof.
  revert s. induction kw as [| c kw IH]; intros s.
  - split; [intros _; exists s; reflexivity | destruct s; reflexivity].
  - destruct s as [| c' s]; simpl; [split; [discriminate | intros [b [=]]] |].
    destruct (Ascii.ascii_dec c c') as [-> | Hne].
    + rewrite IH. split; intros [b Hb]; exists b; [rewrite Hb | injection Hb];
        auto.
    + split; [discriminate | intros [b [= -> _]]; contradiction].
Qed.

(** [includes s kw] holds exactly when [kw] occurs in [s]. *)
Lemma includes_occurs (s kw : string) :
  includes s kw = true <-> exists a b, s = (a ++ kw ++ b)%string.
Proof.
  induction s as [| c s IH]; cbn [includes].
  - rewrite orb_false_r, prefix_app. split.
    + intros [b Hb]. exists EmptyString, b. exact Hb.
    + intros ([| c a] & b & Hb); [exists b; exact Hb | discriminate].
  - rewrite orb_true_iff, prefix_app, IH. split.
    + intros [[b Hb] | (a & b & Hb)].
      * exists EmptyString, b. exact Hb.
      * exists (String c a), b. simpl. rewrite Hb. reflexivity.
    + intros ([| c' a] & b & Hb).
      * left. exists b. exact Hb.
      * right. injection Hb as -> Hb. exists a, b. exact Hb.
Qed.

Lemma string_app_assoc (a b c : string) :
  ((a ++ b) ++ c)%string = (a ++ b ++ c)%string.
Proof.
  induction a as [| x a IH]; [reflexivity |].
  change (String x ((a ++ b) ++ c)%string = String x (a ++ b ++ c)%string).
  rewrite IH. reflexivity.
Qed.

(** A text that includes a word includes every part of the word. *)
Lemma includes_part (s word part : string) :
  includes word part = true -> includes s word = true ->
  includes s part = true.
Proof.
  rewrite !includes_occurs. intros (a & b & ->) (a' & b' & ->).
  exists (a' ++ a)%string, (b ++ b')%string.
  rewrite !string_app_assoc. reflexivity.
Qed.

(** ** Tables *)

Lemma table_or_cases (t : list (string * string)) (k fallback : string) :
  table_or t (Some k) fallback = LStr fallback
  \/ (exists v, In (k, v) t /\ table_or t (Some k) fallback = LStr v)
  \/ (inherited k = true /\ table_or t (Some k) fallback = LBuiltin k).
Proof.
  unfold table_or, table_get.
  destruct (assoc k t) as [v |] eqn:E.
  - right. left. exists v. split; [| reflexivity].
    induction t as [| [k' v'] t IH]; [discriminate |]. simpl in E.
    destruct (String.eqb k k') eqn:Ek.
    + apply String.eqb_eq in Ek as ->. injection E as ->. left. reflexivity.
    + right. apply IH, E.
  - destruct (inherited k); [right; right; split; reflexivity | left; reflexivity].
Qed.

(** ** GDACS adapter *)

Section GdacsFacts.

Context (rt : Runtime) (tx : Text).

Lemma gdacs_type_cases (t : string) :
  In (gdacs_type t)
     [ "earthquake"; "flood"; "storm"; "volcano"; "tsunami"; "fire"; "other" ].
Proof.
  unfold gdacs_type.
  repeat match goal with
         | |- context [if ?b then _ else _] => destruct b
         end; simpl; tauto.
Qed.

Lemma gdacs_item_pushed (now : nat -> Z) (idx : nat) (item : JsVal)
  (i : Incident) :
  gdacs_item rt tx now idx item = Ok (Some i) ->
  plain_number (lat i) /\ plain_number (lng i)
  /\ (exists s, type i = LStr (gdacs_type (toLowerCase tx s))
                /\ title i = VStr (trim tx s)
                /\ js_or (prop item "title") (VStr "") = VStr s)
  /\ severity i
     = table_or gdacs_sevMap
         (Some (ToString rt
                  (js_or (prop item "gdacs:alertlevel")
                     (js_or (prop item "alertlevel") (VStr "")))))
         "moderate"
  /\ (if truthy (prop item "pubDate")
      then exists t, date_of rt (prop item "pubDate") = Some t
                     /\ time i = VStr (Date_toISOString rt t)
      else time i = VNull)
  /\ source i = "GDACS (UN System)"
  /\ id i = ("gdacs_" ++ pretty idx ++ "_" ++ pretty (now idx))%string.
Proof.
  unfold gdacs_item.
  destruct (gdacs_coordinates rt item) as [[[lat_n lng_n] |] |] eqn:Ec;
    cbn; try discriminate.
  destruct (gdacs_coordinates_not_NaN rt item lat_n lng_n Ec) as [H1 H2].
  destruct (js_or (prop item "title") (VStr "")) as [| | | | s | |] eqn:Et;
    cbn; try discriminate.
  destruct (truthy (prop item "pubDate")) eqn:Ep; cbn.
  - destruct (date_of rt (prop item "pubDate")) as [t |] eqn:Ed; cbn;
      [| discriminate].
    intros [= <-]. cbn.
    repeat split; eauto.
    + exists lat_n. split; [reflexivity | exact H1].
    + exists lng_n. split; [reflexivity | exact H2].
  - intros [= <-]. cbn.
    repeat split; eauto.
    + exists lat_n. split; [reflexivity | exact H1].
    + exists lng_n. split; [reflexivity | exact H2].
Qed.

Lemma gdacs_loop_In (now : nat -> Z) (items : list JsVal) (idx : nat)
  (out : list Incident) :
  gdacs_loop rt tx now idx items = Ok out ->
  forall i, In i out ->
    exists k item, items !! k = Some item
                   /\ gdacs_item rt tx now (idx + k) item = Ok (Some i).
Proof.
  revert idx out. induction items as [| item rest IH]; intros idx out; cbn.
  - intros [= <-] i [].
  - destruct (gdacs_item rt tx now idx item) as [pushed |] eqn:Ei; cbn;
      [| discriminate].
    destruct (gdacs_loop rt tx now (S idx) rest) as [results |] eqn:Er; cbn;
      [| discriminate].
    intros [= <-] i Hi.
    assert (Hrest : In i results ->
              exists k item', (item :: rest) !! k = Some item'
                /\ gdacs_item rt tx now (idx + k) item' = Ok (Some i)).
    { intros Hin. destruct (IH (S idx) results Er i Hin) as (k & item' & Hk & Hp).
      exists (S k), item'. split; [exact Hk |].
      replace (idx + S k) with (S idx + k) by lia. exact Hp. }
    destruct pushed as [j |]; [| auto].
    destruct Hi as [<- | Hi]; [| auto].
    exists 0, item. split; [reflexivity |].
    replace (idx + 0) with idx by lia. exact Ei.
Qed.

Lemma gdacs_loop_length (now : nat -> Z) (items : list JsVal) (idx : nat)
  (out : list Incident) :
  gdacs_loop rt tx now idx items = Ok out -> length out <= length items.
Proof.
  revert idx out. induction items as [| item rest IH]; intros idx out; cbn.
  - intros [= <-]. reflexivity.
  - destruct (gdacs_item rt tx now idx item) as [pushed |]; cbn;
      [| discriminate].
    destruct (gdacs_loop rt tx now (S idx) rest) as [results |] eqn:Er; cbn;
      [| discriminate].
    intros [= <-]. specialize (IH _ _ Er).
    destruct pushed; simpl; lia.
Qed.

Lemma gdacs_loop_throw (now : nat -> Z) (items : list JsVal) (idx k : nat)
  (item : JsVal) (e : Exn) :
  items !! k = Some item ->
  gdacs_item rt tx now (idx + k) item = Throw e ->
  exists e', gdacs_loop rt tx now idx items = Throw e'.
Proof.
  revert idx k. induction items as [| first rest IH]; intros idx k Hk He;
    [discriminate |].
  cbn. destruct k as [| k].
  - injection Hk as ->. replace (idx + 0) with idx in He by lia.
    rewrite He. cbn. eauto.
  - destruct (gdacs_item rt tx now idx first) as [pushed |]; cbn; [| eauto].
    replace (idx + S k) with (S idx + k) in He by lia.
    destruct (IH (S idx) k Hk He) as [e' ->]. cbn. eauto.
Qed.

Lemma fetchGDACS_items (now : nat -> Z) (parsed : JsVal) :
  fetchGDACS rt tx now parsed
  = if negb (truthy (gdacs_items parsed)) then Ok []
    else gdacs_loop rt tx now 0
           (take 30 match gdacs_items parsed with
                    | VArr l => l
                    | _ => [ gdacs_items parsed ]
                    end).
Proof. reflexivity. Qed.

End GdacsFacts.

(** X14.  [fetchGDACS] reads at most the first thirty items of the feed:
    it returns at most thirty incidents, and two feeds whose item arrays
    agree on their first thirty entries give the same outcome, whatever
    follows (an entry past the thirtieth that would make the callback throw
    included).  A feed with a single item, which the parser delivers as the
    item itself and not as an array, is treated as the array of that one
    item; a feed with no item gives the empty list. *)
Theorem X14_gdacs_first_thirty_items (rt : Runtime) (tx : Text)
  (now : nat -> Z) (parsed : JsVal) :
  (truthy (gdacs_items parsed) = false -> fetchGDACS rt tx now parsed = Ok [])
  /\ (forall out, fetchGDACS rt tx now parsed = Ok out -> length out <= 30)
  /\ (forall l parsed' l',
        gdacs_items parsed = VArr l -> gdacs_items parsed' = VArr l' ->
        take 30 l = take 30 l' ->
        fetchGDACS rt tx now parsed' = fetchGDACS rt tx now parsed)
  /\ (forall parsed',
        truthy (gdacs_items parsed) = true ->
        (forall l, gdacs_items parsed <> VArr l) ->
        gdacs_items parsed' = VArr [ gdacs_items parsed ] ->
        fetchGDACS rt tx now parsed' = fetchGDACS rt tx now parsed).
Proof.
  rewrite fetchGDACS_items.
  split; [intros ->; reflexivity |].
  split.
  { intros out. destruct (negb _); [intros [= <-]; simpl; lia |].
    intros H. apply gdacs_loop_length in H.
    rewrite length_take in H. lia. }
  split.
  - intros l parsed' l' E E' Hl. rewrite fetchGDACS_items, E, E'. cbn.
    rewrite Hl. reflexivity.
  - intros parsed' Ht Hn E'. rewrite fetchGDACS_items, E', Ht. cbn.
    destruct (gdacs_items parsed); try reflexivity.
    exfalso. eapply Hn. reflexivity.
Qed.

(** X15.  Every incident [fetchGDACS] returns has a latitude and a
    longitude that are Numbers other than [NaN]; its type is one of the
    seven type names, chosen from the lower-cased title, and its title is
    the trimmed text of the item's title; its severity is [critical],
    [high] or [moderate] (never [low]), or, for an alert level that names a
    member of [Object.prototype], that built-in object; its time is [null]
    or the ISO text of a valid date; its id carries the item's position in
    the feed. *)
Theorem X15_gdacs_output_well_formed (rt : Runtime) (tx : Text)
  (now : nat -> Z) (parsed : JsVal) (out : list Incident) :
  fetchGDACS rt tx now parsed = Ok out ->
  Forall (fun i =>
            plain_number (lat i) /\ plain_number (lng i)
            /\ (exists s, type i = LStr (gdacs_type (toLowerCase tx s))
                          /\ title i = VStr (trim tx s))
            /\ In (type i)
                 (List.map LStr [ "earthquake"; "flood"; "storm"; "volcano";
                                  "tsunami"; "fire"; "other" ])
            /\ (In (severity i) [ LStr "critical"; LStr "high"; LStr "moderate" ]
                \/ exists k, inherited k = true /\ severity i = LBuiltin k)
            /\ (time i = VNull
                \/ exists t, time i = VStr (Date_toISOString rt t))
            /\ source i = "GDACS (UN System)"
            /\ exists idx, (idx < 30)%nat
                 /\ id i = ("gdacs_" ++ pretty idx ++ "_" ++ pretty (now idx))%string)
         out.
Proof.
  rewrite fetchGDACS_items. destruct (negb _).
  { intros [= <-]. constructor. }
  intros H. apply List.Forall_forall. intros i Hi.
  destruct (gdacs_loop_In rt tx now _ 0 out H i Hi) as (k & item & Hk & Hp).
  assert (Hk30 : (k < 30)%nat).
  { apply lookup_lt_Some in Hk. rewrite length_take in Hk. lia. }
  destruct (gdacs_item_pushed rt tx now _ item i Hp)
    as (H1 & H2 & (s & Hty & Hti & _) & Hs & Htime & Hsrc & Hid).
  split; [exact H1 |]. split; [exact H2 |].
  split; [exists s; split; assumption |].
  split.
  { rewrite Hty. apply List.in_map, gdacs_type_cases. }
  split.
  { rewrite Hs.
    destruct (table_or_cases gdacs_sevMap
                (ToString rt (js_or (prop item "gdacs:alertlevel")
                                (js_or (prop item "alertlevel") (VStr ""))))
                "moderate") as [-> | [(v & Hv & ->) | [Hk' ->]]].
    - left. simpl. tauto.
    - left. simpl in Hv.
      destruct Hv as [[= _ <-] | [[= _ <-] | [[= _ <-] | []]]]; simpl; tauto.
    - right. eauto. }
  split.
  { destruct (truthy (prop item "pubDate")); [| left; exact Htime].
    destruct Htime as (t & _ & Ht). right. eauto. }
  split; [exact Hsrc |].
  exists k. split; [exact Hk30 | exact Hid].
Qed.

Example fetchGDACS_sample :
  fetchGDACS feed_runtime example_text feed_clock
    (gdacs_feed (VArr [ cyclone_item ]))
  = Ok [ {| id := "gdacs_0_1714521600000";
            type := LStr "storm";
            title := VStr "Orange alert for tropical cyclone - Fiji";
            location := VStr "Fiji";
            lat := VNum (Num.dec (-179) 10);
            lng := VNum (Num.dec 1784 10);
            severity := LStr "high";
            magnitude := VUndefined;
            time := VStr "2024-05-01T00:00:00.000Z";
            source := "GDACS (UN System)";
            url := VStr "https://www.gdacs.org/report.aspx?eventid=1001";
            extra := [] |} ].
Proof. vm_compute. reflexivity. Qed.

Lemma X15_gdacs_output_well_formed_witness :
  exists i,
    fetchGDACS feed_runtime example_text feed_clock
      (gdacs_feed (VArr [ cyclone_item ])) = Ok [ i ]
    /\ plain_number (lat i) /\ severity i = LStr "high".
Proof.
  eexists. split; [exact fetchGDACS_sample |].
  pose proof (X15_gdacs_output_well_formed feed_runtime example_text
                feed_clock _ _ fetchGDACS_sample) as H.
  apply Forall_cons_1 in H as [(H1 & _) _].
  split; [exact H1 | reflexivity].
Defined.

(** X16.  One item among the first thirty that makes the callback throw
    rejects the whole GDACS feed.  An item with usable coordinates does so
    when its title is a truthy value that is no string (an element with
    attributes, which the parser delivers as an object), or when its
    publication date is text that is no date. *)
Theorem X16_gdacs_one_bad_item_rejects_all (rt : Runtime) (tx : Text)
  (now : nat -> Z) (parsed : JsVal) (l : list JsVal) (k : nat) (item : JsVal)
  (c : number * number) :
  gdacs_items parsed = VArr l ->
  l !! k = Some item -> (k < 30)%nat ->
  gdacs_coordinates rt item = Ok (Some c) ->
  (truthy (prop item "title") = true /\ forall s, prop item "title" <> VStr s)
  \/ (truthy (prop item "pubDate") = true
      /\ date_of rt (prop item "pubDate") = None) ->
  exists e, fetchGDACS rt tx now parsed = Throw e.
Proof.
  intros E Hk Hk30 Hc Hbad.
  rewrite fetchGDACS_items, E. cbn [truthy negb].
  assert (Hthrow : exists e, gdacs_item rt tx now (0 + k) item = Throw e).
  { unfold gdacs_item. rewrite Hc. destruct c as [lat_n lng_n]. cbn.
    destruct Hbad as [[Ht Hs] | [Hp Hd]].
    - unfold js_or. rewrite Ht.
      destruct (prop item "title") as [| | | | s | |]; cbn; eauto.
      exfalso. eapply Hs. reflexivity.
    - destruct (as_string _); cbn; [| eauto].
      rewrite Hp, Hd. cbn. eauto. }
  destruct Hthrow as [e He].
  eapply gdacs_loop_throw; [| exact He].
  rewrite lookup_take_lt by exact Hk30. exact Hk.
Qed.

Lemma X16_gdacs_one_bad_item_rejects_all_witness :
  exists e,
    fetchGDACS feed_runtime example_text feed_clock
      (gdacs_feed (VArr [ cyclone_item; misdated_item ])) = Throw e.
Proof.
  refine (X16_gdacs_one_bad_item_rejects_all feed_runtime example_text
            feed_clock (gdacs_feed (VArr [ cyclone_item; misdated_item ]))
            [ cyclone_item; misdated_item ] 1 misdated_item
            (Num.dec 419 10, Num.dec 125 10) eq_refl eq_refl _ _ _).
  - lia.
  - vm_compute. reflexivity.
  - right. split; reflexivity.
Defined.

(** ** ReliefWeb adapter *)

Section ReliefWebFacts.

Context (rt : Runtime).

Lemma nth_numbers (parts : list number) (k : nat) :
  nth k (List.map VNum parts) VUndefined = VUndefined
  \/ exists x, nth k (List.map VNum parts) VUndefined = VNum x.
Proof.
  revert k. induction parts as [| x parts IH]; intros [| k]; simpl; eauto.
Qed.

Lemma reliefweb_coordinates_plain (item : JsVal) (lat_v lng_v : JsVal) :
  reliefweb_coordinates rt item = Ok (Some (lat_v, lng_v)) ->
  plain_number lat_v /\ plain_number lng_v.
Proof.
  intros H.
  destruct (reliefweb_coordinates_not_NaN rt item lat_v lng_v H) as [H1 H2].
  revert H. unfold reliefweb_coordinates, get.
  destruct (nullish item); [discriminate |]. cbn.
  destruct (nullish (prop item "fields")); [discriminate |]. cbn.
  destruct (truthy _); [| discriminate]. cbn.
  destruct (prop_opt _ "location") as [| | | | s | |]; try discriminate.
  rewrite <- List.map_map.
  destruct (isNaN rt (nth 1 _ _) || isNaN rt (nth 0 _ _)); [discriminate |].
  intros [= <- <-].
  split.
  - destruct (nth_numbers (List.map (StringToNumber rt) (split_on ","%char s)) 1)
      as [E | [x E]].
    + rewrite E in H1. discriminate.
    + exists x. split; [exact E |].
      rewrite E in H1. exact H1.
  - destruct (nth_numbers (List.map (StringToNumber rt) (split_on ","%char s)) 0)
      as [E | [x E]].
    + rewrite E in H2. discriminate.
    + exists x. split; [exact E |].
      rewrite E in H2. exact H2.
Qed.

Lemma reliefweb_record_pushed (item : JsVal) (i : Incident) :
  reliefweb_record rt item = Ok (Some i) ->
  plain_number (lat i) /\ plain_number (lng i)
  /\ severity i = LStr "high"
  /\ type i
     = table_or reliefweb_typeMap
         (Some (ToString rt
                  (js_or (prop_opt (at_idx_opt
                                      (prop (prop item "fields") "type") 0)
                            "code")
                     (VStr "OT"))))
         "other"
  /\ source i = "ReliefWeb (OCHA)"
  /\ magnitude i = VUndefined
  /\ time i = prop_opt (prop (prop item "fields") "date") "created".
Proof.
  unfold reliefweb_record.
  destruct (reliefweb_coordinates rt item) as [[[lat_v lng_v] |] |] eqn:Ec;
    cbn; try discriminate.
  destruct (reliefweb_coordinates_plain item lat_v lng_v Ec) as [H1 H2].
  intros [= <-]. cbn. repeat split; assumption.
Qed.

Lemma reliefweb_loop_In (items : list JsVal) (out : list Incident) :
  reliefweb_loop rt items = Ok out ->
  forall i, In i out ->
    exists item, In item items /\ reliefweb_record rt item = Ok (Some i).
Proof.
  revert out. induction items as [| item rest IH]; intros out; cbn.
  - intros [= <-] i [].
  - destruct (reliefweb_record rt item) as [pushed |] eqn:Ei; cbn;
      [| discriminate].
    destruct (reliefweb_loop rt rest) as [results |]; cbn; [| discriminate].
    intros [= <-] i Hi.
    assert (Hrest : In i results ->
              exists item', In item' (item :: rest)
                            /\ reliefweb_record rt item' = Ok (Some i)).
    { intros Hin. destruct (IH results eq_refl i Hin) as (item' & Hk & Hp).
      exists item'. split; [right; exact Hk | exact Hp]. }
    destruct pushed as [j |]; [| auto].
    destruct Hi as [<- | Hi]; [| auto].
    exists item. split; [left; reflexivity | exact Ei].
Qed.

Lemma reliefweb_loop_length (items : list JsVal) (out : list Incident) :
  reliefweb_loop rt items = Ok out -> length out <= length items.
Proof.
  revert out. induction items as [| item rest IH]; intros out; cbn.
  - intros [= <-]. reflexivity.
  - destruct (reliefweb_record rt item) as [pushed |]; cbn; [| discriminate].
    destruct (reliefweb_loop rt rest) as [results |]; cbn; [| discriminate].
    intros [= <-]. specialize (IH _ eq_refl).
    destruct pushed; simpl; lia.
Qed.

Lemma reliefweb_loop_throw (items : list JsVal) (item : JsVal) (e : Exn) :
  In item items -> reliefweb_record rt item = Throw e ->
  exists e', reliefweb_loop rt items = Throw e'.
Proof.
  induction items as [| first rest IH]; intros Hin He; [destruct Hin |].
  cbn. destruct Hin as [-> | Hin].
  - rewrite He. cbn. eauto.
  - destruct (reliefweb_record rt first); cbn; [| eauto].
    destruct (IH Hin He) as [e' ->]. cbn. eauto.
Qed.

End ReliefWebFacts.

(** X17.  Every incident [fetchReliefWeb] returns has severity [high],
    whatever the disaster, so the ranking places all of them in tier 1; its
    coordinates are Numbers other than [NaN]; its type is one of the seven
    type names or, for a type code that names a member of
    [Object.prototype], that built-in object; it carries no magnitude.
    The adapter returns no more incidents than the response lists
    records. *)
Theorem X17_reliefweb_output_well_formed (rt : Runtime) (data : JsVal)
  (out : list Incident) :
  fetchReliefWeb rt data = Ok out ->
  Forall (fun i =>
            severity i = LStr "high" /\ tier (severity i) = Some 1%Z
            /\ plain_number (lat i) /\ plain_number (lng i)
            /\ (In (type i)
                  (List.map LStr [ "earthquake"; "flood"; "storm"; "volcano";
                                   "tsunami"; "fire"; "other" ])
                \/ exists k, inherited k = true /\ type i = LBuiltin k)
            /\ magnitude i = VUndefined
            /\ source i = "ReliefWeb (OCHA)")
         out
  /\ forall items, iterate (js_or (prop data "data") (VArr [])) = Ok items ->
       length out <= length items.
Proof.
  unfold fetchReliefWeb, get.
  destruct (nullish data); [discriminate |]. cbn.
  destruct (iterate (js_or (prop data "data") (VArr []))) as [items |];
    [| discriminate].
  cbn. intros H. split.
  - apply List.Forall_forall. intros i Hi.
    destruct (reliefweb_loop_In rt items out H i Hi) as (item & _ & Hp).
    destruct (reliefweb_record_pushed rt item i Hp)
      as (H1 & H2 & Hs & Hty & Hsrc & Hm & _).
    rewrite Hs. repeat split; try assumption.
    rewrite Hty.
    match goal with
    | |- context [table_or ?t (Some ?k) ?f] =>
        destruct (table_or_cases t k f) as [-> | [(v & Hv & ->) | [Hk ->]]]
    end.
    + left. simpl. tauto.
    + left. simpl in Hv.
      repeat (destruct Hv as [[= _ <-] | Hv]; [simpl; tauto |]). destruct Hv.
    + right. eexists. split; [exact Hk | reflexivity].
  - intros items' [= <-]. eapply reliefweb_loop_length, H.
Qed.

Example fetchReliefWeb_sample :
  fetchReliefWeb feed_runtime (VObj [ ("data", VArr [ italy_floods ]) ])
  = Ok [ {| id := "rw_52001";
            type := LStr "flood";
            title := VStr "Italy: Floods - May 2024";
            location := VStr "Italy";
            lat := VNum (Num.dec 419 10);
            lng := VNum (Num.dec 125 10);
            severity := LStr "high";
            magnitude := VUndefined;
            time := VStr "2024-05-01T00:00:00.000Z";
            source := "ReliefWeb (OCHA)";
            url := VStr "https://reliefweb.int/disaster/fl-2024-000052-ita";
            extra := [] |} ].
Proof. vm_compute. reflexivity. Qed.

Lemma X17_reliefweb_output_well_formed_witness :
  exists i,
    fetchReliefWeb feed_runtime (VObj [ ("data", VArr [ italy_floods ]) ])
    = Ok [ i ]
    /\ tier (severity i) = Some 1%Z /\ plain_number (lat i).
Proof.
  eexists. split; [exact fetchReliefWeb_sample |].
  pose proof (proj1 (X17_reliefweb_output_well_formed feed_runtime _ _
                       fetchReliefWeb_sample)) as H.
  apply Forall_cons_1 in H as [(_ & Ht & Hl & _) _].
  split; [exact Ht | exact Hl].
Defined.

(** X18.  One record that makes the loop throw rejects the whole ReliefWeb
    response: a record without [fields], and a record whose first country
    has a [location] that is truthy but no text (an object holding the two
    coordinates, say), on which [split] is no function. *)
Theorem X18_reliefweb_one_bad_record_rejects_all (rt : Runtime)
  (data : JsVal) (items : list JsVal) (item : JsVal) :
  prop data "data" = VArr items -> In item items ->
  nullish item = false ->
  nullish (prop item "fields") = true
  \/ (let location :=
        prop_opt (at_idx_opt (prop (prop item "fields") "country") 0)
          "location" in
      truthy location = true /\ forall s, location <> VStr s) ->
  exists e, fetchReliefWeb rt data = Throw e.
Proof.
  intros E Hin Hitem Hbad.
  assert (Hd : nullish data = false).
  { destruct data; try reflexivity; discriminate. }
  unfold fetchReliefWeb, get. rewrite Hd, E. cbn.
  assert (Hthrow : exists e, reliefweb_record rt item = Throw e).
  { unfold reliefweb_record, reliefweb_coordinates, get. rewrite Hitem. cbn.
    destruct Hbad as [-> | [Ht Hs]]; [cbn; eauto |].
    destruct (nullish (prop item "fields")); cbn; [eauto |].
    rewrite Ht. cbn.
    destruct (prop_opt _ "location") as [| | | | s | |]; cbn; eauto.
    exfalso. eapply Hs. reflexivity. }
  destruct Hthrow as [e He].
  eapply reliefweb_loop_throw; eassumption.
Qed.

Lemma X18_reliefweb_one_bad_record_rejects_all_witness :
  exists e,
    fetchReliefWeb feed_runtime
      (VObj [ ("data", VArr [ italy_floods; turkey_quake ]) ]) = Throw e.
Proof.
  refine (X18_reliefweb_one_bad_record_rejects_all feed_runtime
            (VObj [ ("data", VArr [ italy_floods; turkey_quake ]) ])
            [ italy_floods; turkey_quake ] turkey_quake eq_refl _ eq_refl _).
  - right. left. reflexivity.
  - right. split; [reflexivity | discriminate].
Defined.

(** ** Reddit adapter: classification and scoring *)

Lemma lt_trans (x y z : number) :
  Num.lt x y = true -> Num.lt y z = true -> Num.lt x z = true.
Proof.
  unfold Num.lt, SFltb, SFcompare.
  destruct x as [sx | sx | | sx mx ex], y as [sy | sy | | sy my ey],
    z as [sz | sz | | sz mz ez];
    try destruct sx; try destruct sy; try destruct sz;
    try discriminate; try reflexivity.
  all: destruct (Z.compare_spec ex ey), (Z.compare_spec ey ez),
         (Z.compare_spec ex ez); try discriminate; try reflexivity; try lia.
  all: subst.
  all: change (Pcompare ?a ?b Eq) with (Pos.compare a b).
  all: destruct (Pos.compare_spec mx my), (Pos.compare_spec my mz),
         (Pos.compare_spec mx mz); simpl; try discriminate; try reflexivity;
         try lia.
Qed.

Lemma existsb_includes_part (lower : string) (kws kws' : list string) :
  (forall kw, In kw kws -> exists kw', In kw' kws' /\ includes kw kw' = true) ->
  (forall kw', In kw' kws' -> In kw' kws) ->
  List.existsb (includes lower) kws = List.existsb (includes lower) kws'.
Proof.
  intros Hpart Hsub. apply eq_true_iff_eq. rewrite !List.existsb_exists. split.
  - intros (kw & Hin & Hkw). destruct (Hpart kw Hin) as (kw' & Hin' & Hp).
    exists kw'. split; [exact Hin' | eapply includes_part; eassumption].
  - intros (kw' & Hin' & Hkw'). exists kw'. split; [apply Hsub, Hin' | exact Hkw'].
Qed.

Lemma includes_self (kw : string) : includes kw kw = true.
Proof.
  apply includes_occurs. exists EmptyString, EmptyString.
  change (kw = (kw ++ EmptyString)%string).
  induction kw as [| c kw IH]; [reflexivity |].
  change (String c kw = String c (kw ++ EmptyString)%string).
  rewrite <- IH. reflexivity.
Qed.

Section RedditTextFacts.

Context (rt : Runtime) (tx : Text).

Lemma classifyDisasterType_first_entry (text : string) :
  classifyDisasterType tx text
  = first_entry DISASTER_KEYWORDS (toLowerCase tx text).
Proof. reflexivity. Qed.

Lemma first_entry_essential (lower : string) :
  first_entry DISASTER_KEYWORDS lower = first_entry essential_keywords lower.
Proof.
  unfold first_entry, DISASTER_KEYWORDS, essential_keywords.
  cbn [List.find snd fst].
  assert (E1 : List.existsb (includes lower)
                 [ "earthquake"; "quake"; "seismic"; "tremor"; "aftershock";
                   "magnitude" ]
               = List.existsb (includes lower)
                   [ "quake"; "seismic"; "tremor"; "aftershock"; "magnitude" ]).
  { apply existsb_includes_part.
    - intros kw Hin. simpl in Hin.
      destruct Hin as [<- | Hin].
      { exists "quake". split; [simpl; tauto | vm_compute; reflexivity]. }
      exists kw. split; [exact Hin | apply includes_self].
    - intros kw Hin. right. exact Hin. }
  assert (E2 : List.existsb (includes lower)
                 [ "flood"; "flooding"; "submerged"; "inundation"; "flash flood" ]
               = List.existsb (includes lower)
                   [ "flood"; "submerged"; "inundation" ]).
  { apply existsb_includes_part.
    - intros kw Hin. simpl in Hin.
      destruct Hin as [<- | [<- | [<- | [<- | [<- | []]]]]].
      + exists "flood". split; [simpl; tauto | vm_compute; reflexivity].
      + exists "flood". split; [simpl; tauto | vm_compute; reflexivity].
      + exists "submerged". split; [simpl; tauto | vm_compute; reflexivity].
      + exists "inundation". split; [simpl; tauto | vm_compute; reflexivity].
      + exists "flood". split; [simpl; tauto | vm_compute; reflexivity].
    - intros kw Hin. simpl in *. tauto. }
  assert (E3 : List.existsb (includes lower)
                 [ "wildfire"; "fire"; "blaze"; "inferno"; "burning";
                   "forest fire"; "brushfire" ]
               = List.existsb (includes lower)
                   [ "fire"; "blaze"; "inferno"; "burning" ]).
  { apply existsb_includes_part.
    - intros kw Hin. simpl in Hin.
      destruct Hin as [<- | [<- | [<- | [<- | [<- | [<- | [<- | []]]]]]]].
      + exists "fire". split; [simpl; tauto | vm_compute; reflexivity].
      + exists "fire". split; [simpl; tauto | vm_compute; reflexivity].
      + exists "blaze". split; [simpl; tauto | vm_compute; reflexivity].
      + exists "inferno". split; [simpl; tauto | vm_compute; reflexivity].
      + exists "burning". split; [simpl; tauto | vm_compute; reflexivity].
      + exists "fire". split; [simpl; tauto | vm_compute; reflexivity].
      + exists "fire". split; [simpl; tauto | vm_compute; reflexivity].
    - intros kw Hin. simpl in *. tauto. }
  rewrite E1, E2, E3.
  repeat match goal with
         | |- context [if ?b then _ else _] => destruct b; try reflexivity
         end.
Qed.

Lemma first_entry_In (table : list (string * list string)) (lower ty : string) :
  first_entry table lower = Some ty ->
  exists kws kw, In (ty, kws) table /\ In kw kws /\ includes lower kw = true.
Proof.
  unfold first_entry.
  destruct (List.find _ table) as [[ty' kws] |] eqn:E; [| discriminate].
  intros [= <-]. apply List.find_some in E as [Hin Hex].
  apply List.existsb_exists in Hex as (kw & Hkw & Hinc). eauto.
Qed.

Lemma classifyDisasterType_cases (text ty : string) :
  classifyDisasterType tx text = Some ty ->
  In ty [ "earthquake"; "flood"; "fire"; "storm"; "volcano"; "tsunami" ].
Proof.
  intros H. apply first_entry_In in H as (kws & _ & Hin & _).
  simpl in Hin.
  repeat (destruct Hin as [[= <- _] | Hin]; [simpl; tauto |]). destruct Hin.
Qed.

Lemma scoreSeverity_cases (upvotes : JsVal) (s : string) :
  exists sev,
    scoreSeverity rt tx upvotes (VStr s) = Ok sev
    /\ In sev [ "critical"; "high"; "moderate"; "low" ].
Proof.
  unfold scoreSeverity. cbn.
  repeat match goal with
         | |- context [if ?b then _ else _] => destruct b
         end; eexists; (split; [reflexivity | simpl; tauto]).
Qed.

Lemma scoreSeverity_string (upvotes : JsVal) (s : string) :
  scoreSeverity rt tx upvotes (VStr s)
  = Ok (let scary :=
          List.existsb (includes (toLowerCase tx s)) scaryWords in
        let votes := ToNumber rt upvotes in
        if Num.lt (Num.of_Z 5000) votes || (Num.lt (Num.of_Z 2000) votes && scary)
        then "critical"
        else if Num.lt (Num.of_Z 1000) votes || scary then "high"
        else if Num.lt (Num.of_Z 200) votes then "moderate"
        else "low").
Proof.
  unfold scoreSeverity. cbn [as_string mbind result_bind]. cbv zeta.
  repeat match goal with
         | |- context [if ?b then _ else _] => destruct b; try reflexivity
         end.
Qed.

End RedditTextFacts.

(** X19.  [scoreSeverity] throws on a title that is no string; on a string
    it returns one of the four tier names.  A title with a scary word is
    rated [high] at least; more than 5000 upvotes are rated [critical]
    whatever the title; and under the same title more upvotes never give a
    lower rating. *)
Theorem X19_score_severity (rt : Runtime) (tx : Text) (upvotes title : JsVal) :
  ((forall s, title <> VStr s) ->
     scoreSeverity rt tx upvotes title = Throw TypeError)
  /\ forall s, title = VStr s ->
       exists sev,
         scoreSeverity rt tx upvotes title = Ok sev
         /\ In sev [ "critical"; "high"; "moderate"; "low" ]
         /\ (List.existsb (includes (toLowerCase tx s)) scaryWords = true ->
             In sev [ "critical"; "high" ])
         /\ (Num.lt (Num.of_Z 5000) (ToNumber rt upvotes) = true ->
             sev = "critical")
         /\ forall more sev',
              Num.lt (ToNumber rt upvotes) (ToNumber rt more) = true ->
              scoreSeverity rt tx more title = Ok sev' ->
              exists t t', tier (LStr sev) = Some t
                           /\ tier (LStr sev') = Some t' /\ (t' <= t)%Z.
Proof.
  split.
  { intros Hs. destruct title as [| | | | s | |]; try reflexivity.
    exfalso. eapply Hs. reflexivity. }
  intros s ->. rewrite scoreSeverity_string. cbv zeta.
  set (scary := List.existsb (includes (toLowerCase tx s)) scaryWords).
  set (a := ToNumber rt upvotes).
  set (c5 := Num.of_Z 5000). set (c2 := Num.of_Z 2000).
  set (c1 := Num.of_Z 1000). set (c0 := Num.of_Z 200).
  eexists. split; [reflexivity |].
  split.
  { destruct (Num.lt c5 a), (Num.lt c2 a), (Num.lt c1 a), (Num.lt c0 a), scary;
      simpl; tauto. }
  split.
  { intros ->.
    destruct (Num.lt c5 a), (Num.lt c2 a), (Num.lt c1 a), (Num.lt c0 a);
      simpl; tauto. }
  split; [intros ->; reflexivity |].
  intros more sev' Hlt. rewrite scoreSeverity_string. cbv zeta.
  fold scary c5 c2 c1 c0. set (b := ToNumber rt more) in *.
  assert (Hmono : forall c, Num.lt c a = true -> Num.lt c b = true).
  { intros c Hca. eapply lt_trans; eassumption. }
  pose proof (Hmono c5) as H5. pose proof (Hmono c2) as H2.
  pose proof (Hmono c1) as H1. pose proof (Hmono c0) as H0.
  intros [= <-].
  destruct (Num.lt c5 a); [rewrite (H5 eq_refl) |];
    (destruct (Num.lt c2 a); [rewrite (H2 eq_refl) |]);
    (destruct (Num.lt c1 a); [rewrite (H1 eq_refl) |]);
    (destruct (Num.lt c0 a); [rewrite (H0 eq_refl) |]);
    destruct scary;
    destruct (Num.lt c5 b), (Num.lt c2 b), (Num.lt c1 b), (Num.lt c0 b);
    cbn [orb andb];
    (do 2 eexists; split; [reflexivity |]; split; [reflexivity |]; lia).
Qed.

(** X20.  The keyword tables decide by first match.  Six keywords of
    [DISASTER_KEYWORDS] contain another keyword of their own entry, and
    [classifyDisasterType] answers as it would without them; the type it
    returns is one of the six entry names.  The Reddit classifier and the
    GDACS title test order their types differently: on a text that names
    both a fire and a storm and neither answers earthquake or flood, the
    first answers [fire] and the second [storm]. *)
Theorem X20_keyword_classification (tx : Text) (text : string) :
  classifyDisasterType tx text
  = first_entry essential_keywords (toLowerCase tx text)
  /\ (forall ty, classifyDisasterType tx text = Some ty ->
        In ty [ "earthquake"; "flood"; "fire"; "storm"; "volcano"; "tsunami" ])
  /\ (gdacs_type (toLowerCase tx text) = "earthquake"
      <-> includes (toLowerCase tx text) "quake" = true)
  /\ (includes (toLowerCase tx text) "fire" = true ->
      includes (toLowerCase tx text) "storm" = true ->
      In (classifyDisasterType tx text)
         [ Some "earthquake"; Some "flood"; Some "fire" ]
      /\ In (gdacs_type (toLowerCase tx text))
            [ "earthquake"; "flood"; "storm" ]).
Proof.
  split.
  { rewrite classifyDisasterType_first_entry. apply first_entry_essential. }
  split; [apply classifyDisasterType_cases |].
  split.
  { unfold gdacs_type.
    destruct (includes (toLowerCase tx text) "earthquake") eqn:E.
    - split; [intros _ | reflexivity].
      eapply includes_part; [| exact E]. vm_compute. reflexivity.
    - cbn. destruct (includes (toLowerCase tx text) "quake");
        [split; reflexivity |].
      split; [| discriminate].
      repeat match goal with
             | |- context [if ?b then _ else _] => destruct b
             end; discriminate. }
  intros Hfire Hstorm. split.
  - rewrite classifyDisasterType_first_entry, first_entry_essential.
    unfold first_entry, essential_keywords. cbn [List.find snd fst].
    destruct (List.existsb _ [ "quake"; _; _; _; _ ]); [simpl; tauto |].
    destruct (List.existsb _ [ "flood"; _; _ ]); [simpl; tauto |].
    cbn [List.existsb]. rewrite Hfire. simpl. tauto.
  - unfold gdacs_type. rewrite Hstorm, !orb_true_r.
    repeat match goal with
           | |- context [if ?b then _ else _] => destruct b
           end; simpl; tauto.
Qed.

(** ** Reddit adapter: the loop over the posts *)

Section RedditLoopFacts.

Context (rt : Runtime) (tx : Text).

Lemma extractLocation_cases (text : string) (random : nat -> number)
  (n : nat) :
  (exists name la lo,
     In (name, (la, lo)) LOCATION_HINTS
     /\ includes (toLowerCase tx text) name = true
     /\ extractLocation tx text random n
        = (Some (capitalize name,
                 Num.add la (jitter (random n)),
                 Num.add lo (jitter (random (S n)))),
           S (S n)))
  \/ extractLocation tx text random n = (None, n).
Proof.
  unfold extractLocation.
  destruct (List.find _ LOCATION_HINTS) as [[name [la lo]] |] eqn:E;
    [left | right; reflexivity].
  apply List.find_some in E as [Hin Hinc]. exists name, la, lo. auto.
Qed.

Lemma reddit_incident_ok (sub_name : string) (p : JsVal) (type_s : string)
  (place : string * number * number) (i : Incident) :
  reddit_incident rt tx sub_name p type_s place = Ok i ->
  type i = LStr type_s
  /\ location i = VStr place.1.1
  /\ lat i = VNum place.1.2 /\ lng i = VNum place.2
  /\ (exists s sev, prop p "title" = VStr s
        /\ title i = VStr (slice_to tx 120 s)
        /\ scoreSeverity rt tx (prop p "score") (VStr s) = Ok sev
        /\ severity i = LStr sev)
  /\ (exists t, time i = VStr (Date_toISOString rt t))
  /\ source i = "Reddit"
  /\ magnitude i = VUndefined
  /\ extra i = [ ("upvotes", prop p "score");
                 ("comments", prop p "num_comments");
                 ("subreddit", VStr sub_name) ].
Proof.
  unfold reddit_incident.
  destruct (prop p "title") as [| | | | s | |]; cbn [as_string mbind result_bind];
    try discriminate.
  destruct (scoreSeverity rt tx (prop p "score") (VStr s)) as [sev |] eqn:Es;
    [| discriminate].
  destruct (toISOString rt _) as [iso |] eqn:Et; [| discriminate].
  destruct (sliceable _); [| discriminate].
  intros [= <-]. cbn.
  unfold toISOString in Et.
  destruct (date_of rt _) as [t |]; [| discriminate]. injection Et as <-.
  do 4 (split; [reflexivity |]).
  split.
  { exists s, sev. split; [reflexivity |]. split; [reflexivity |].
    split; [exact Es | reflexivity]. }
  split; [exists t; reflexivity |].
  repeat split.
Qed.

Lemma reddit_post_pushed (sub_name : string) (post : JsVal)
  (random : nat -> number) (n n' : nat) (i : Incident) :
  reddit_post rt tx sub_name post random n = (Ok (Some i), n') ->
  In (type i)
     (List.map LStr [ "earthquake"; "flood"; "fire"; "storm"; "volcano";
                      "tsunami" ])
  /\ In (severity i) (List.map LStr [ "critical"; "high"; "moderate"; "low" ])
  /\ (exists name la lo,
        In (name, (la, lo)) LOCATION_HINTS
        /\ location i = VStr (capitalize name)
        /\ lat i = VNum (Num.add la (jitter (random n)))
        /\ lng i = VNum (Num.add lo (jitter (random (S n)))))
  /\ (exists t, time i = VStr (Date_toISOString rt t))
  /\ (exists s, title i = VStr (slice_to tx 120 s))
  /\ source i = "Reddit"
  /\ (exists votes, assoc "upvotes" (extra i) = Some votes
        /\ Num.lt (ToNumber rt votes) (Num.of_Z 10) = false)
  /\ assoc "subreddit" (extra i) = Some (VStr sub_name)
  /\ n' = S (S n).
Proof.
  unfold reddit_post, get.
  destruct (nullish post); [discriminate |].
  set (p := prop post "data").
  destruct (nullish p); [discriminate |].
  destruct (truthy (prop p "title")); [| discriminate].
  destruct (Num.lt (ToNumber rt (prop p "score")) (Num.of_Z 10)) eqn:Ev;
    [discriminate |].
  cbn [negb orb].
  set (text := (ToString rt (prop p "title") ++ " "
                ++ ToString rt (js_or (prop p "selftext") (VStr "")))%string).
  destruct (classifyDisasterType tx text) as [type_s |] eqn:Ec;
    [| discriminate].
  destruct (extractLocation_cases text random n)
    as [(name & la & lo & Hin & _ & ->) | ->]; [| discriminate].
  destruct (reddit_incident rt tx sub_name p type_s _) as [j |] eqn:Ei;
    cbn [mbind result_bind]; [| discriminate].
  intros [= <- <-].
  destruct (reddit_incident_ok _ _ _ _ _ Ei)
    as (Hty & Hloc & Hlat & Hlng & (s & sev & _ & Hti & Hsev & Hs) & Htime
        & Hsrc & _ & Hextra).
  split.
  { rewrite Hty. apply List.in_map.
    apply (classifyDisasterType_cases tx text type_s Ec). }
  split.
  { rewrite Hs. apply List.in_map.
    destruct (scoreSeverity_cases rt tx (prop p "score") s) as (sev0 & E0 & H0).
    rewrite E0 in Hsev. injection Hsev as <-. exact H0. }
  split; [exists name, la, lo; auto |].
  split; [exact Htime |].
  split; [eauto |].
  split; [exact Hsrc |].
  rewrite Hextra. split; [| split; reflexivity].
  exists (prop p "score"). split; [reflexivity | exact Ev].
Qed.

(** The loop only ever appends to [allPosts], also when it throws. *)
Lemma reddit_posts_appends (sub_name : string) (random : nat -> number)
  (posts : list JsVal) (allPosts : list Incident) (n : nat) :
  exists new,
    (reddit_posts rt tx sub_name posts random allPosts n).2.1 = allPosts ++ new
    /\ Forall (reddit_pushed rt tx random) new
    /\ length new <= length posts.
Proof.
  revert allPosts n. induction posts as [| post rest IH]; intros allPosts n.
  - exists []. cbn. rewrite app_nil_r. auto.
  - cbn [reddit_posts].
    destruct (reddit_post rt tx sub_name post random n) as [[pushed | e] n']
      eqn:Ep.
    + destruct (IH (match pushed with
                    | Some i => allPosts ++ [ i ]
                    | None => allPosts
                    end) n') as (new & -> & Hnew & Hlen).
      destruct pushed as [i |].
      * exists (i :: new). rewrite <- app_assoc. split; [reflexivity |].
        split; [| simpl; lia].
        constructor; [| exact Hnew]. exists sub_name, post, n, n'. exact Ep.
      * exists new. split; [reflexivity |]. split; [exact Hnew | simpl; lia].
    + exists []. cbn. rewrite app_nil_r. split; [reflexivity |].
      split; [constructor | lia].
Qed.

Lemma reddit_sub_appends (sub_name : string) (response : result JsVal)
  (random : nat -> number) (allPosts : list Incident) (n : nat) :
  exists new,
    (reddit_sub rt tx sub_name response random allPosts n).2.1 = allPosts ++ new
    /\ Forall (reddit_pushed rt tx random) new.
Proof.
  assert (Hnone : exists new : list Incident,
            allPosts = allPosts ++ new
            /\ Forall (reddit_pushed rt tx random) new).
  { exists []. rewrite app_nil_r. auto. }
  unfold reddit_sub. destruct response as [data | e]; [| exact Hnone].
  destruct (iterate _) as [posts | e]; [| exact Hnone].
  destruct (reddit_posts_appends sub_name random posts allPosts n)
    as (new & Hnew & Hall & _).
  exists new.
  destruct (reddit_posts rt tx sub_name posts random allPosts n) as [[u | e] st];
    auto.
Qed.

Lemma reddit_subs_appends (responses : string -> result JsVal)
  (random : nat -> number) (subs : list (string * string))
  (allPosts : list Incident) (n : nat) (out : list Incident) :
  (reddit_subs rt tx subs responses random allPosts n).1 = Ok out ->
  exists new, out = allPosts ++ new
              /\ Forall (reddit_pushed rt tx random) new.
Proof.
  revert allPosts n. induction subs as [| sub rest IH]; intros allPosts n.
  - cbn. intros [= <-]. exists []. rewrite app_nil_r. auto.
  - cbn [reddit_subs].
    destruct (reddit_sub_appends sub.1 (responses sub.1) random allPosts n)
      as (new & Hnew & Hall).
    destruct (reddit_sub rt tx sub.1 (responses sub.1) random allPosts n)
      as [[u | e] [allPosts' n']]; [| discriminate].
    cbn in Hnew. subst allPosts'. intros H.
    destruct (IH _ _ H) as (new' & -> & Hall').
    exists (new ++ new'). rewrite app_assoc. split; [reflexivity |].
    apply Forall_app. auto.
Qed.

(** What a turn of the loop throws is an error of the engine. *)
Lemma reddit_incident_throws (sub_name : string) (p : JsVal) (type_s : string)
  (place : string * number * number) (e : Exn) :
  reddit_incident rt tx sub_name p type_s place = Throw e ->
  e = TypeError \/ e = RangeError.
Proof.
  unfold reddit_incident.
  destruct (prop p "title") as [| | | | s | |];
    cbn [as_string mbind result_bind];
    try (intros [= <-]; left; reflexivity).
  rewrite scoreSeverity_string. cbn [mbind result_bind].
  unfold toISOString. destruct (date_of rt _); cbn [mbind result_bind];
    [| intros [= <-]; right; reflexivity].
  unfold sliceable. destruct (js_or _ _); cbn [mbind result_bind];
    try discriminate; intros [= <-]; left; reflexivity.
Qed.

Lemma reddit_post_throws (sub_name : string) (post : JsVal)
  (random : nat -> number) (n n' : nat) (e : Exn) :
  reddit_post rt tx sub_name post random n = (Throw e, n') ->
  e = TypeError \/ e = RangeError.
Proof.
  unfold reddit_post, get.
  destruct (nullish post); [intros [= <- _]; left; reflexivity |].
  destruct (nullish (prop post "data")); [intros [= <- _]; left; reflexivity |].
  destruct (negb _ || _); [discriminate |].
  destruct (classifyDisasterType tx _) as [type_s |]; [| discriminate].
  destruct (extractLocation tx _ random n) as [[place |] n'']; [| discriminate].
  destruct (reddit_incident rt tx sub_name _ type_s place) as [j | e'] eqn:Ei;
    cbn [mbind result_bind]; [discriminate |].
  intros [= <- _]. eapply reddit_incident_throws, Ei.
Qed.

Lemma reddit_posts_throws (sub_name : string) (random : nat -> number)
  (posts : list JsVal) (allPosts : list Incident) (n : nat) (e : Exn) :
  (reddit_posts rt tx sub_name posts random allPosts n).1 = Throw e ->
  e = TypeError \/ e = RangeError.
Proof.
  revert allPosts n. induction posts as [| post rest IH]; intros allPosts n;
    [discriminate |].
  cbn [reddit_posts].
  destruct (reddit_post rt tx sub_name post random n) as [[pushed | e'] n']
    eqn:Ep; [apply IH |].
  cbn. intros [= <-]. eapply reddit_post_throws, Ep.
Qed.

(** A request that fails, and a listing whose loop throws, leave the
    handler to log the error. *)
Lemma reddit_sub_caught (sub_name : string) (response : result JsVal)
  (random : nat -> number) (allPosts : list Incident) (n : nat) :
  (forall e, response = Throw e -> warn e = Ok tt) ->
  (reddit_sub rt tx sub_name response random allPosts n).1 = Ok tt.
Proof.
  intros Hw. unfold reddit_sub. destruct response as [data | e].
  - destruct (iterate _) as [posts | e] eqn:Ei.
    { destruct (reddit_posts rt tx sub_name posts random allPosts n)
        as [[u | e] st] eqn:Er; [reflexivity |].
      cbn. destruct (reddit_posts_throws sub_name random posts allPosts n e)
        as [-> | ->]; [rewrite Er; reflexivity | reflexivity | reflexivity]. }
    cbn. unfold iterate in Ei.
    destruct (js_or _ _); try discriminate; injection Ei as <-; reflexivity.
  - cbn. apply Hw. reflexivity.
Qed.

End RedditLoopFacts.

Section RedditIsolation.

Context (rt : Runtime) (tx : Text).

Lemma reddit_posts_app (sub_name : string) (random : nat -> number)
  (before after : list JsVal) (allPosts : list Incident) (n : nat) :
  reddit_posts rt tx sub_name (before ++ after) random allPosts n
  = match reddit_posts rt tx sub_name before random allPosts n with
    | (Ok _, (allPosts', n')) =>
        reddit_posts rt tx sub_name after random allPosts' n'
    | thrown => thrown
    end.
Proof.
  revert allPosts n. induction before as [| post rest IH]; intros allPosts n;
    [reflexivity |].
  cbn [reddit_posts app].
  destruct (reddit_post rt tx sub_name post random n) as [[pushed | e] n'];
    [apply IH | reflexivity].
Qed.

Lemma reddit_subs_returns (responses : string -> result JsVal)
  (random : nat -> number) (subs : list (string * string))
  (allPosts : list Incident) (n : nat) :
  rejections_carry_errors responses ->
  exists out, (reddit_subs rt tx subs responses random allPosts n).1 = Ok out.
Proof.
  intros Hr. revert allPosts n.
  induction subs as [| sub rest IH]; intros allPosts n; [cbn; eauto |].
  cbn [reddit_subs].
  pose proof (reddit_sub_caught rt tx sub.1 (responses sub.1) random allPosts n
                (Hr sub.1)) as Hc.
  destruct (reddit_sub rt tx sub.1 (responses sub.1) random allPosts n)
    as [[u | e] [allPosts' n']]; [apply IH | discriminate].
Qed.

Lemma reddit_subs_ext (responses responses' : string -> result JsVal)
  (random : nat -> number) (subs : list (string * string))
  (allPosts : list Incident) (n : nat) :
  (forall name allPosts n,
     reddit_sub rt tx name (responses name) random allPosts n
     = reddit_sub rt tx name (responses' name) random allPosts n) ->
  reddit_subs rt tx subs responses random allPosts n
  = reddit_subs rt tx subs responses' random allPosts n.
Proof.
  intros Hs. revert allPosts n.
  induction subs as [| sub rest IH]; intros allPosts n; [reflexivity |].
  cbn [reddit_subs]. rewrite Hs.
  destruct (reddit_sub rt tx sub.1 (responses' sub.1) random allPosts n)
    as [[u | e] [allPosts' n']]; [apply IH | reflexivity].
Qed.

End RedditIsolation.

(** X21.  Every incident the loop over the subreddits collects has one of
    the six keyword types (never [other]) and one of the four severity
    names; its location is the capitalised name of an entry of
    [LOCATION_HINTS] and its coordinates are that entry's plus one jitter
    each; its time is the ISO text of a valid date; its title is the text
    of the post's title cut to 120; and its vote count is not below 10.
    A missing vote count is not below 10 either, and is rated [high] or
    [low] by the words of the title alone. *)
Theorem X21_reddit_posts_well_formed (rt : Runtime) (tx : Text)
  (responses : string -> result JsVal) (random : nat -> number) (n : nat)
  (out : list Incident) :
  (reddit_loop rt tx responses random n).1 = Ok out ->
  Forall (fun i =>
            In (type i)
               (List.map LStr [ "earthquake"; "flood"; "fire"; "storm";
                                "volcano"; "tsunami" ])
            /\ In (severity i)
                  (List.map LStr [ "critical"; "high"; "moderate"; "low" ])
            /\ (exists name la lo r1 r2,
                  In (name, (la, lo)) LOCATION_HINTS
                  /\ location i = VStr (capitalize name)
                  /\ lat i = VNum (Num.add la (jitter r1))
                  /\ lng i = VNum (Num.add lo (jitter r2)))
            /\ (exists t, time i = VStr (Date_toISOString rt t))
            /\ (exists s, title i = VStr (slice_to tx 120 s))
            /\ source i = "Reddit"
            /\ exists votes, assoc "upvotes" (extra i) = Some votes
                 /\ Num.lt (ToNumber rt votes) (Num.of_Z 10) = false)
         out
  /\ Num.lt (ToNumber rt VUndefined) (Num.of_Z 10) = false
  /\ forall s, In (scoreSeverity rt tx VUndefined (VStr s))
                 [ Ok "high"; Ok "low" ].
Proof.
  intros H. split.
  - destruct (reddit_subs_appends rt tx responses random subreddits [] n out H)
      as (new & -> & Hnew).
    cbn [app]. eapply Forall_impl; [exact Hnew |].
    intros i (sub_name & post & m & m' & Hp).
    destruct (reddit_post_pushed rt tx sub_name post random m m' i Hp)
      as (Hty & Hsev & (name & la & lo & Hin & Hloc & Hlat & Hlng) & Ht & Hti
          & Hsrc & Hv & _).
    repeat (split; [assumption |]).
    split; [| repeat (split; [assumption |]); exact Hv].
    exists name, la, lo, (random m), (random (S m)). auto.
  - split; [reflexivity |].
    intros s. rewrite scoreSeverity_string. cbv zeta.
    generalize (List.existsb (includes (toLowerCase tx s)) scaryWords).
    intros scary. cbn [ToNumber].
    change (Num.lt (Num.of_Z 5000) Num.NaN) with false.
    change (Num.lt (Num.of_Z 2000) Num.NaN) with false.
    change (Num.lt (Num.of_Z 1000) Num.NaN) with false.
    change (Num.lt (Num.of_Z 200) Num.NaN) with false.
    destruct scary; simpl; tauto.
Qed.

Example reddit_loop_sample :
  reddit_loop feed_runtime example_text worldnews_only steady_random 0
  = (Ok [ quake_report ], 4).
Proof. vm_compute. reflexivity. Qed.

Lemma X21_reddit_posts_well_formed_witness :
  (reddit_loop feed_runtime example_text worldnews_only steady_random 0).1
  = Ok [ quake_report ]
  /\ In (type quake_report)
        (List.map LStr [ "earthquake"; "flood"; "fire"; "storm"; "volcano";
                         "tsunami" ]).
Proof.
  assert (E : (reddit_loop feed_runtime example_text worldnews_only
                 steady_random 0).1 = Ok [ quake_report ]).
  { rewrite reddit_loop_sample. reflexivity. }
  split; [exact E |].
  pose proof (proj1 (X21_reddit_posts_well_formed feed_runtime example_text
                       worldnews_only steady_random 0 _ E)) as H.
  apply Forall_cons_1 in H as [(Hty & _) _]. exact Hty.
Defined.

(** X22.  A failure inside the loop over the subreddits is confined to its
    subreddit.  When every rejected request carries an error object, as
    the HTTP client's do, the loop returns a list whatever the responses
    are; a rejected request counts as an empty listing, so the other
    subreddits contribute what they would have; and when a post makes a
    turn throw, the incidents pushed for the posts before it stay in the
    list and the posts after it are not read. *)
Theorem X22_reddit_failures_are_skipped (rt : Runtime) (tx : Text)
  (responses : string -> result JsVal) (random : nat -> number) (n : nat) :
  rejections_carry_errors responses ->
  (exists out, (reddit_loop rt tx responses random n).1 = Ok out)
  /\ reddit_loop rt tx responses random n
     = reddit_loop rt tx
         (fun name => match responses name with
                      | Ok data => Ok data
                      | Throw _ => Ok (reddit_listing [])
                      end)
         random n
  /\ forall sub_name before bad after allPosts m,
       let done := reddit_posts rt tx sub_name before random allPosts m in
       done.1 = Ok tt ->
       (exists e m', reddit_post rt tx sub_name bad random done.2.2
                     = (Throw e, m')) ->
       (reddit_sub rt tx sub_name
          (Ok (reddit_listing (before ++ bad :: after))) random allPosts m).2.1
       = done.2.1.
Proof.
  intros Hr. split; [apply reddit_subs_returns, Hr |].
  split.
  - apply reddit_subs_ext. intros name allPosts m.
    specialize (Hr name). destruct (responses name) as [data | e];
      [reflexivity |].
    cbn. rewrite (Hr e eq_refl). reflexivity.
  - intros sub_name before bad after allPosts m done Hdone (e & m' & Hbad).
    unfold reddit_sub.
    change (iterate (js_or (prop_opt (prop_opt (reddit_listing
                                                  (before ++ bad :: after))
                                        "data") "children") (VArr [])))
      with (@Ok (list JsVal) (before ++ bad :: after)).
    cbv iota. rewrite reddit_posts_app. fold done.
    destruct done as [[u | e'] [allPosts' m'']]; [| discriminate].
    cbn [reddit_posts]. cbn [fst snd] in Hbad. rewrite Hbad. reflexivity.
Qed.

Lemma X22_reddit_failures_are_skipped_witness :
  exists out,
    (reddit_loop feed_runtime example_text worldnews_only steady_random 0).1
    = Ok out.
Proof.
  refine (proj1 (X22_reddit_failures_are_skipped feed_runtime example_text
                   worldnews_only steady_random 0 _)).
  intros name e. unfold worldnews_only.
  destruct (String.eqb name "worldnews"); [discriminate |].
  intros [= <-]. reflexivity.
Defined.
